(** * bdwm-wp-env: source acquisition, docker-compose topology and the
      [start] sequence, embedded from the JavaScript sources.

    - [Download]: lib/download-sources.js ([downloadSources],
      [downloadGitSource]).
    - [Compose]: lib/build-docker-compose-config.js ([getMounts],
      [buildDockerComposeConfig]).
    - [Start]: lib/commands/start.js ([start]).

    JavaScript strings are [string]; arrays are [list]; a value typed
    [?T] (object or [null]) is [option T], with [None] for [null]; the
    plain object [addedSources], used as a dictionary from url to [true],
    is a [gmap string bool]. *)

From Stdlib Require Import Ascii String QArith.
From stdpp Require Import base option list strings gmap pretty.

Local Open Scope string_scope.
Local Open Scope list_scope.

(** ** Asynchronous code

    An [async] function is a state transformer that either resolves
    with a value or rejects with an error; [await] is [bind]. Effects
    made before a rejection stay made, so the state is returned in both
    cases. *)

Inductive Outcome (A : Type) : Type :=
| Resolved (a : A)
| Rejected (error : string).
Arguments Resolved {A} a.
Arguments Rejected {A} error.

Definition Async (S A : Type) : Type := S -> Outcome A * S.

Definition ret {S A : Type} (a : A) : Async S A :=
  fun s => (Resolved a, s).

Definition bind {S A B : Type} (m : Async S A) (k : A -> Async S B)
  : Async S B :=
  fun s =>
    match m s with
    | (Resolved a, s') => k a s'
    | (Rejected e, s') => (Rejected e, s')
    end.

(** [try { await m } catch ( error ) { handler }], and [m.catch( handler )]. *)
Definition try_catch {S A : Type} (m : Async S A)
  (handler : string -> Async S A) : Async S A :=
  fun s =>
    match m s with
    | (Resolved a, s') => (Resolved a, s')
    | (Rejected e, s') => handler e s'
    end.

(** [await Promise.all( [ a, b ] )]: both calls are made when the array
    is built, [a] first; neither is cancelled when the other rejects, and
    the result resolves only if both do. The effects of [a] are put
    before those of [b]. *)
Definition Promise_all2 {S A B : Type} (a : Async S A) (b : Async S B)
  : Async S (A * B) :=
  fun s =>
    match a s with
    | (ra, s1) =>
        match b s1 with
        | (rb, s2) =>
            (match ra, rb with
             | Resolved x, Resolved y => Resolved (x, y)
             | Rejected e, _ => Rejected e
             | _, Rejected e => Rejected e
             end, s2)
        end
    end.

Declare Scope async_scope.
Delimit Scope async_scope with async.
Notation "x <- m ;; k" := (bind m (fun x => k))
  (at level 100, m at next level, right associativity) : async_scope.
Notation "m ;; k" := (bind m (fun _ => k))
  (at level 100, right associativity) : async_scope.

(** ** Data model (typedefs [WPSource], [WPServiceConfig], [WPConfig] of
       lib/config.js, with the fields the three modules read). *)

(** A source descriptor. [type] is the string ['local'], ['git'] or
    ['zip']; [url] and [ref] are absent for local sources. *)
Record WPSource := {
  type : string;
  url : option string;
  ref : option string;
  path : string;
  testsPath : string;
  basename : string;
}.

Global Instance WPSource_eq_dec : EqDecision WPSource.
Proof. solve_decision. Defined.

(** One environment of [config.env]. [mappings] keeps the key order of
    the object, which is the order [Object.entries] walks it in. *)
Record WPServiceConfig := {
  port : N;
  coreSource : option WPSource;
  pluginSources : list WPSource;
  themeSources : list WPSource;
  mappings : list (string * WPSource);
}.

Record Environments := {
  development : WPServiceConfig;
  tests : WPServiceConfig;
}.

(** [Object.values( config.env )]: the environments in key order. *)
Definition Object_values (e : Environments) : list WPServiceConfig :=
  [development e; tests e].

(** A property of an object as the code reads it: missing
    ([undefined]), [null], or a value. *)
Inductive JsField (A : Type) : Type :=
| Undefined
| Null
| Value (a : A).
Arguments Undefined {A}.
Arguments Null {A}.
Arguments Value {A} a.

(** Truthiness of a property that holds an object when it holds a
    value. *)
Definition truthy {A : Type} (field : JsField A) : bool :=
  match field with
  | Value _ => true
  | Undefined | Null => false
  end.

(** The whole configuration. [topCoreSource] is the field the code reads
    as [config.coreSource], next to the per-environment
    [config.env.<name>.coreSource]. lib/config.js, which builds the
    object, is not among the sources: the field may hold a source or
    [null], or be missing. *)
Record WPConfig := {
  env : Environments;
  topCoreSource : JsField WPSource;
  configDirectoryPath : string;
  workDirectoryPath : string;
  dockerComposeConfigPath : string;
  detectedLocalConfig : bool;
  debug : bool;
}.

(** ** lib/download-sources.js *)
Module Download.

(** The two closure variables of [downloadSources]: the array [sources]
    and the dictionary [addedSources]. *)
Record Added := {
  sources : list WPSource;
  addedSources : gmap string bool;
}.

Definition empty_added : Added :=
  {| sources := []; addedSources := ∅ |}.

(** The properties with a string key that a plain object inherits from
    [Object.prototype]: eleven functions and the accessor [__proto__],
    which reads as the prototype. All of them are truthy. *)
Definition Object_prototype : list string :=
  ["constructor"; "__defineGetter__"; "__defineSetter__"; "hasOwnProperty";
   "__lookupGetter__"; "__lookupSetter__"; "isPrototypeOf";
   "propertyIsEnumerable"; "toString"; "valueOf"; "__proto__";
   "toLocaleString"].

Definition inherited (key : string) : bool :=
  bool_decide (key ∈ Object_prototype).

(** Truthiness of [addedSources[ key ]], where [addedSources] starts as
    [{}]: the value written for the key, and without one what the object
    inherits under that name. [m] holds the properties written. *)
Definition is_added (m : gmap string bool) (key : string) : bool :=
  match m !! key with
  | Some b => b
  | None => inherited key
  end.

(** [addSource]: [source && source.url && ! addedSources[ source.url ]]
    guards a push and a dictionary write. A [null] source, a missing url
    and the empty url are falsy. *)
Definition addSource (st : Added) (source : option WPSource) : Added :=
  match source with
  | None => st
  | Some s =>
      match url s with
      | None => st
      | Some u =>
          if negb (String.eqb u "") && negb (is_added (addedSources st) u)
          then {| sources := sources st ++ [s];
                  addedSources := <[u := true]> (addedSources st) |}
          else st
      end
  end.

(** [array.forEach( addSource )]. *)
Definition forEach_addSource (st : Added) (l : list WPSource) : Added :=
  foldl (fun acc s => addSource acc (Some s)) st l.

(** One turn of the loop over the environments: plugins, then themes,
    then the core source. *)
Definition addEnvironment (st : Added) (e : WPServiceConfig) : Added :=
  addSource
    (forEach_addSource (forEach_addSource st (pluginSources e))
       (themeSources e))
    (coreSource e).

(** The array that [downloadSources] maps [downloadSource] over. *)
Definition collectSources (envs : list WPServiceConfig) : list WPSource :=
  sources (foldl addEnvironment empty_added envs).

Definition downloadSources (config : WPConfig) : list WPSource :=
  collectSources (Object_values (env config)).

(** Every descriptor the loop hands to [addSource], in that order
    ([null] core sources left out: [addSource] ignores them). *)
Definition offered (envs : list WPServiceConfig) : list WPSource :=
  flat_map
    (fun e => pluginSources e ++ themeSources e
              ++ match coreSource e with Some c => [c] | None => [] end)
    envs.

(** The url [addSource] keys on, when the descriptor has a truthy one. *)
Definition key_of (s : WPSource) : option string :=
  match url s with
  | Some u => if String.eqb u "" then None else Some u
  | None => None
  end.

(** The descriptors of [l] that have a url and are the first in [l],
    after those recorded in [m], to carry it. *)
Fixpoint first_per_url (m : gmap string bool) (l : list WPSource)
  : list WPSource :=
  match l with
  | [] => []
  | s :: rest =>
      match key_of s with
      | Some u =>
          if is_added m u then first_per_url m rest
          else s :: first_per_url (<[u := true]> m) rest
      | None => first_per_url m rest
      end
  end.

(** *** [downloadGitSource] *)

(** The [progress] argument of libgit2's [transferProgress] callback. *)
Record TransferProgress := {
  receivedObjects : N;
  indexedObjects : N;
  totalObjects : N;
}.

(** A JavaScript number obtained by dividing two object counts: a
    finite quotient, [Infinity] (non-zero over zero) or [NaN] (zero over
    zero). Quotients are kept exact, as rationals. *)
Inductive JsNumber : Type :=
| Finite (q : Q)
| Infinity
| NaN.

(** [a / b] on non-negative integers. *)
Definition js_div (a b : N) : JsNumber :=
  match b with
  | N0 => match a with N0 => NaN | Npos _ => Infinity end
  | Npos d => Finite (Z.of_N a # d)
  end.

(** The value the [transferProgress] callback passes to [onProgress]. *)
Definition transferProgress (progress : TransferProgress) : JsNumber :=
  js_div (receivedObjects progress + indexedObjects progress)
         (totalObjects progress * 2).

(** What NodeGit does during one acquisition: for each call whether it
    resolves, and for the two transfers ([Clone] and [remote.fetch], which
    both get [gitFetchOptions]' callbacks) the progress reports made while
    they run. *)
Record NodeGit := {
  Clone_reports : list TransferProgress;
  Clone_ok : bool;
  Repository_open_ok : bool;
  getRemote_ok : bool;
  fetch_reports : list TransferProgress;
  fetch_ok : bool;
  disconnect_ok : bool;
  getReference_FETCH_HEAD_ok : bool;
  getReference_ref_ok : bool;
  checkoutRef_ok : bool;
  setHeadDetached_ok : bool;
}.

(** The state is the list of values [onProgress] was called with,
    oldest first. *)
Definition onProgress (v : JsNumber) : Async (list JsNumber) unit :=
  fun calls => (Resolved tt, calls ++ [v]).

(** A NodeGit call that makes no progress report. *)
Definition nodegit (name : string) (ok : bool) : Async (list JsNumber) unit :=
  fun calls => (if ok then Resolved tt else Rejected name, calls).

(** A NodeGit transfer: each report goes through [transferProgress]. *)
Definition transfer (name : string) (reports : list TransferProgress)
  (ok : bool) : Async (list JsNumber) unit :=
  fun calls =>
    (if ok then Resolved tt else Rejected name,
     calls ++ map transferProgress reports).

Local Open Scope async_scope.

Definition downloadGitSource (git : NodeGit) : Async (list JsNumber) unit :=
  onProgress (Finite 0) ;;
  try_catch (transfer "NodeGit.Clone" (Clone_reports git) (Clone_ok git))
    (fun _ => nodegit "NodeGit.Repository.open" (Repository_open_ok git)) ;;
  nodegit "repository.getRemote" (getRemote_ok git) ;;
  transfer "remote.fetch" (fetch_reports git) (fetch_ok git) ;;
  nodegit "remote.disconnect" (disconnect_ok git) ;;
  try_catch
    (try_catch
       (nodegit "repository.getReference" (getReference_FETCH_HEAD_ok git))
       (fun _ => nodegit "repository.getReference" (getReference_ref_ok git)) ;;
     nodegit "repository.checkoutRef" (checkoutRef_ok git))
    (fun _ => nodegit "repository.setHeadDetached" (setHeadDetached_ok git)) ;;
  onProgress (Finite 1).

Local Close Scope async_scope.

(** The values [onProgress] receives in one acquisition, and how the
    acquisition ends. *)
Definition acquire (git : NodeGit) : Outcome unit * list JsNumber :=
  downloadGitSource git [].

(** Whether a progress value is a number between 0 and 1. *)
Definition in_unit_interval (v : JsNumber) : Prop :=
  match v with
  | Finite q => (0 <= q)%Q /\ (q <= 1)%Q
  | Infinity | NaN => False
  end.

End Download.

(** ** lib/build-docker-compose-config.js *)
Module Compose.

Section Topology.

(** Node's [path.join] and [fs.readdirSync], and the module's
    [__dirname]. *)
Variable path_join : string -> string -> string.
Variable readdirSync : string -> list string.
Variable dirname : string.

(** Modelled from the spec: [hasSameCoreSource] of lib/wordpress.js, which
    is not among the sources. Environments are source-equivalent when
    their core descriptors compare equal by destination path; a [null]
    core is equivalent only to another [null] core. The function takes
    the array of environments and compares each with the first. *)
Definition sameCoreSource (a b : option WPSource) : bool :=
  match a, b with
  | None, None => true
  | Some x, Some y => String.eqb (path x) (path y)
  | _, _ => false
  end.

Definition hasSameCoreSource (envs : list WPServiceConfig) : bool :=
  match envs with
  | [] => true
  | first :: _ =>
      forallb (fun e => sameCoreSource (coreSource first) (coreSource e)) envs
  end.

Definition directoryMounts (config : WPServiceConfig) : list string :=
  map (fun '(wpDir, source) => path source +:+ ":/var/www/html/" +:+ wpDir)
      (mappings config).

Definition pluginMounts (config : WPServiceConfig) : list string :=
  map (fun source =>
         path source +:+ ":/var/www/html/wp-content/plugins/"
           +:+ basename source)
      (pluginSources config).

Definition themeMounts (config : WPServiceConfig) : list string :=
  map (fun source =>
         path source +:+ ":/var/www/html/wp-content/themes/"
           +:+ basename source)
      (themeSources config).

Definition coreMount (config : WPServiceConfig) (wordpressDefault : string)
  : string :=
  match coreSource config with
  | Some c => path c
  | None => wordpressDefault
  end +:+ ":/var/www/html".

(** [getMounts( config, wordpressDefault = 'wordpress' )]; the default
    is passed by the caller here. *)
Definition getMounts (config : WPServiceConfig) (wordpressDefault : string)
  : list string :=
  coreMount config wordpressDefault
    :: directoryMounts config ++ pluginMounts config ++ themeMounts config.

(** The filter on the entries of the local core directory. *)
Definition keepEntry (filename : string) : bool :=
  negb (String.eqb filename "wp-config.php")
  && negb (String.eqb filename "wp-config-sample.php")
  && negb (String.eqb filename "wp-content").

(** The mounts put in front of the tests mounts when the core is
    shared. *)
Definition sharedCoreMounts (wpSource : WPSource) : list string :=
  (testsPath wpSource +:+ ":/var/www/html")
    :: (if String.eqb (type wpSource) "local"
        then map (fun filename =>
                    path_join (path wpSource) filename
                      +:+ ":/var/www/html/" +:+ filename)
                 (List.filter keepEntry (readdirSync (path wpSource)))
        else []).

(** [testsMounts] after the [shift]/[unshift] of the shared-core
    branch. *)
Definition testsMountsOf (config : WPConfig) : list string :=
  let testsMounts := getMounts (tests (env config)) "tests-wordpress" in
  match coreSource (development (env config)) with
  | Some wpSource =>
      if hasSameCoreSource [development (env config); tests (env config)]
      then sharedCoreMounts wpSource ++ tail testsMounts
      else testsMounts
  | None => testsMounts
  end.

(** A service of the compose file; a key the source leaves out is
    [None] or empty. *)
Record Service := {
  depends_on : list string;
  image : option string;
  build : option string;
  ports : list string;
  environment : list (string * string);
  volumes : list string;
  user : option string;
}.

(** The object [buildDockerComposeConfig] returns; [named_volumes] is the
    top-level [volumes] object, each name mapped to an empty object. *)
Record DockerComposeConfig := {
  version : string;
  services : list (string * Service);
  named_volumes : list string;
}.

Definition buildDockerComposeConfig (config : WPConfig)
  : DockerComposeConfig :=
  let developmentMounts := getMounts (development (env config)) "wordpress" in
  let testsMounts := testsMountsOf config in
  let developmentPorts :=
    "${WP_ENV_PORT:-" +:+ pretty (port (development (env config)))
      +:+ "}:80" in
  let testsPorts :=
    "${WP_ENV_TESTS_PORT:-" +:+ pretty (port (tests (env config)))
      +:+ "}:80" in
  let cliUser := "33:33" in
  {| version := "3.7";
     services :=
       [ ("mysql",
          {| depends_on := []; image := Some "mariadb"; build := None;
             ports := ["3306"];
             environment := [("MYSQL_ALLOW_EMPTY_PASSWORD", "yes")];
             volumes := ["mysql:/var/lib/mysql"]; user := None |});
         ("wordpress",
          {| depends_on := ["mysql"]; image := None;
             build := Some (dirname +:+ "/wordpress-xdebug");
             ports := [developmentPorts];
             environment := [("WORDPRESS_DB_NAME", "wordpress")];
             volumes := developmentMounts; user := None |});
         ("tests-wordpress",
          {| depends_on := ["mysql"]; image := Some "wordpress";
             build := None;
             ports := [testsPorts];
             environment := [("WORDPRESS_DB_NAME", "tests-wordpress")];
             volumes := testsMounts; user := None |});
         ("cli",
          {| depends_on := ["wordpress"]; image := Some "wordpress:cli";
             build := None; ports := []; environment := [];
             volumes := developmentMounts; user := Some cliUser |});
         ("tests-cli",
          {| depends_on := ["tests-wordpress"];
             image := Some "wordpress:cli";
             build := None; ports := []; environment := [];
             volumes := testsMounts; user := Some cliUser |});
         ("composer",
          {| depends_on := []; image := Some "composer"; build := None;
             ports := []; environment := [];
             volumes := [configDirectoryPath config +:+ ":/app"];
             user := None |});
         ("phpunit",
          {| depends_on := ["tests-wordpress"];
             image := Some "wordpressdevelop/phpunit:${LOCAL_PHP-latest}";
             build := None; ports := [];
             environment :=
               [("LOCAL_DIR", "html");
                ("WP_PHPUNIT__TESTS_CONFIG",
                 "/var/www/html/phpunit-wp-config.php")];
             volumes :=
               testsMounts
                 ++ ["phpunit-uploads:/var/www/html/wp-content/uploads"];
             user := None |}) ];
     named_volumes :=
       (if truthy (topCoreSource config) then [] else ["wordpress"])
         ++ (if truthy (topCoreSource config) then []
             else ["tests-wordpress"])
         ++ ["mysql"; "phpunit-uploads"] |}.

(** [config.services[ name ]] of the returned object. *)
Definition service (dc : DockerComposeConfig) (name : string)
  : option Service :=
  snd <$> find (fun kv => String.eqb (fst kv) name) (services dc).

End Topology.

(** Whether a string has a [:], the separator of a mount string. *)
Fixpoint has_colon (s : string) : bool :=
  match s with
  | EmptyString => false
  | String c rest => Ascii.eqb c ":"%char || has_colon rest
  end.

End Compose.

(** ** lib/commands/start.js *)
Module Start.

(** What [start] does to the outside, in the order it does it. The
    calls are those of docker-compose, of lib/stop.js, lib/init-config.js,
    lib/download-sources.js, lib/wordpress.js, lib/cache.js and
    lib/retry.js, and the timer. [DownloadSources] carries the array of
    sources that [downloadSources] hands to [downloadSource]. *)
Inductive Event : Type :=
| CheckForLegacyInstall
| InitConfig
| Warn (message : string)
| Stop
| UpOne (service : string)
| UpMany (services : list string)
| DownloadSources (sources : list WPSource)
| SetupWordPressDirectories
| MakeContentDirectoriesWritable (environment : string)
| CheckDatabaseConnection
| RetryDelay (ms : N)
| Sleep (ms : N)
| ConfigureWordPress (environment : string)
| SetCache (workDirectory key value : string).

Global Instance Event_eq_dec : EqDecision Event.
Proof. solve_decision. Defined.

(** The state [start] runs in: the events so far, the cache entries on
    disk (keyed by work directory and cache key) and the spinner's
    text. *)
Record State := {
  trace : list Event;
  cache : gmap (string * string) string;
  spinner_text : string;
}.

Definition initial_state (c : gmap (string * string) string) : State :=
  {| trace := []; cache := c; spinner_text := "" |}.

(** How the outside answers during one invocation. A call that may be
    repeated is answered by attempt number, counted from 0.
    [configuration_order] is the order in which the two environments go
    on after their first attempts at [configureWordPress], both made:
    [true] where development makes its next step. *)
Record World := {
  checkForLegacyInstall_ok : bool;
  initConfig_result : Outcome WPConfig;
  stop_ok : bool;
  upOne_ok : string -> bool;
  upMany_ok : list string -> bool;
  downloadSources_ok : bool;
  setupWordPressDirectories_ok : bool;
  makeContentDirectoriesWritable_ok : string -> bool;
  checkDatabaseConnection_ok : nat -> bool;
  configureWordPress_ok : string -> nat -> bool;
  configuration_order : list bool;
}.

Definition CONFIG_CACHE_KEY : string := "config_checksum".

(** Record an event. *)
Definition emit (e : Event) (s : State) : State :=
  {| trace := trace s ++ [e]; cache := cache s;
     spinner_text := spinner_text s |}.

(** An outside call: the event is recorded, then the call resolves or
    rejects. *)
Definition call (e : Event) (ok : bool) : Async State unit :=
  fun s => (if ok then Resolved tt else Rejected "rejected", emit e s).

(** [spinner.text = text]. *)
Definition set_text (text : string) : Async State unit :=
  fun s =>
    (Resolved tt,
     {| trace := trace s; cache := cache s; spinner_text := text |}).

(** How many times [e] was recorded. *)
Definition occurrences (e : Event) (l : list Event) : nat :=
  length (List.filter (fun x => bool_decide (x = e)) l).

(** Whether the calls that make the content directories writable, when
    they are made, both resolve. *)
Definition writable_resolves (w : World) (config : WPConfig) : bool :=
  match topCoreSource config with
  | Null => makeContentDirectoriesWritable_ok w "development"
            && makeContentDirectoriesWritable_ok w "tests"
  | Undefined | Value _ => true
  end.

(** Whether the calls from stopping the services to bringing them all
    up resolve. *)
Definition provisions (w : World) : bool :=
  stop_ok w && upOne_ok w "mysql" && downloadSources_ok w
  && setupWordPressDirectories_ok w
  && upMany_ok w ["wordpress"; "tests-wordpress"].

(** An outside call that may be made again: it is answered by its
    attempt number, the number of earlier calls. *)
Definition attempt (e : Event) (ok : nat -> bool) : Async State unit :=
  fun s => call e (ok (occurrences e (trace s))) s.

(** The state after further events. *)
Definition after (s : State) (events : list Event) : State :=
  {| trace := trace s ++ events; cache := cache s;
     spinner_text := spinner_text s |}.

(** The events of [k] failed attempts at [e], each followed by a wait of
    [delay] milliseconds, and one more attempt. *)
Definition attempts (e : Event) (delay : N) (k : nat) : list Event :=
  concat (replicate k [e; RetryDelay delay]) ++ [e].

(** The events that belong to the steps before the database is checked:
    reading the configuration, stopping, acquisition, bringing the
    services up and making the content directories writable. *)
Definition before_database (e : Event) : bool :=
  match e with
  | CheckForLegacyInstall | InitConfig | Warn _ | Stop | UpOne _ | UpMany _
  | DownloadSources _ | SetupWordPressDirectories
  | MakeContentDirectoriesWritable _ => true
  | CheckDatabaseConnection | RetryDelay _ | Sleep _
  | ConfigureWordPress _ | SetCache _ _ _ => false
  end.

(** The text of the warning given when no configuration file was
    found. *)
Definition warning (config : WPConfig) : string :=
  "Warning: could not find a .bdwm-wp-env.json configuration file and could not determine if '"
    +:+ configDirectoryPath config
    +:+ "' is a WordPress installation, a plugin, or a theme.".

(** The events of [start] up to the point where the configuration is
    known. *)
Definition reading (config : WPConfig) : list Event :=
  [CheckForLegacyInstall; InitConfig]
    ++ (if detectedLocalConfig config then [] else [Warn (warning config)]).

(** The events of a run that re-provisions, from stopping the services
    to bringing them all up. *)
Definition provisioned (config : WPConfig) : list Event :=
  [Stop; UpOne "mysql"; DownloadSources (Download.downloadSources config);
   SetupWordPressDirectories; UpMany ["wordpress"; "tests-wordpress"]].

(** The events of making the content directories writable. *)
Definition writable (config : WPConfig) : list Event :=
  match topCoreSource config with
  | Null => [MakeContentDirectoriesWritable "development";
             MakeContentDirectoriesWritable "tests"]
  | Undefined | Value _ => []
  end.

(** The state in which the database phase starts. *)
Definition configuring_state (config : WPConfig) (s : State) : State :=
  after {| trace := trace s; cache := cache s;
           spinner_text := "Configuring WordPress." |}
        (writable config).

(** Whether an event is a write of the cache. *)
Definition is_SetCache (e : Event) : bool :=
  match e with
  | SetCache _ _ _ => true
  | _ => false
  end.

(** Acquisition and application-level configuration. *)
Definition provisioning (e : Event) : bool :=
  match e with
  | DownloadSources _ | SetupWordPressDirectories
  | ConfigureWordPress _ => true
  | _ => false
  end.

(** The events of the attempts at [configureWordPress] for one
    environment, by the answers to the first attempt, and whether one of
    the two attempts is answered well. *)
Definition configuring (ok : nat -> bool) (delay : N) (environment : string)
  : list Event :=
  if ok 0 then [ConfigureWordPress environment]
  else [ConfigureWordPress environment; RetryDelay delay;
        ConfigureWordPress environment].

Definition configured (ok : nat -> bool) : bool := ok 0 || ok 1.

(** The events that follow a first attempt at [configureWordPress] for
    one environment: none when it resolved, the wait and the second
    attempt otherwise. *)
Definition retried (ok : nat -> bool) (delay : N) (environment : string)
  : list Event :=
  if ok 0 then [] else [RetryDelay delay; ConfigureWordPress environment].

(** Two lists of events merged in the order [schedule] gives, [true] for
    the next event of the first list. *)
Fixpoint interleave (schedule : list bool) (a b : list Event) : list Event :=
  match schedule with
  | [] => a ++ b
  | first :: later =>
      match a, b with
      | [], _ => b
      | _ :: _, [] => a
      | x :: a', y :: b' =>
          if first then x :: interleave later a' b
          else y :: interleave later a b'
      end
  end.

(** The events of the configuration of both environments: the two first
    attempts, development first, then what follows them for each, merged
    in the order of the outside. *)
Definition configuration_events (w : World) (delay : N) : list Event :=
  [ConfigureWordPress "development"; ConfigureWordPress "tests"]
    ++ interleave (configuration_order w)
         (retried (configureWordPress_ok w "development") delay "development")
         (retried (configureWordPress_ok w "tests") delay "tests").

(** The events the database phase can add. *)
Definition database_event (e : Event) : Prop :=
  e = CheckDatabaseConnection \/ e = RetryDelay 1000 \/ e = Sleep 4000.

Section Sequence.

(** lib/md5.js, and the delay lib/retry.js waits when the caller gives
    none. *)
Variable md5 : WPConfig -> string.
Variable default_delay : N.

Variable w : World.

(** Modelled from the spec: [didCacheChange] of lib/cache.js, which is not
    among the sources. The value is compared with the entry cached under
    the work directory for the key; a missing entry is an unknown value,
    so it counts as changed. *)
Definition didCacheChange (key value workDirectory : string)
  : Async State bool :=
  fun s =>
    (Resolved
       (negb (bool_decide (cache s !! (workDirectory, key) = Some value))),
     s).

(** Modelled from the spec: [setCache] of lib/cache.js, which is not among
    the sources. The entry for the key under the work directory is
    written. *)
Definition setCache (key value workDirectory : string) : Async State unit :=
  fun s =>
    (Resolved tt,
     {| trace := trace s ++ [SetCache workDirectory key value];
        cache := <[(workDirectory, key) := value]> (cache s);
        spinner_text := spinner_text s |}).

(** Modelled from the spec: [retry] of lib/retry.js, which is not among
    the sources. The action is attempted up to [times] times, with
    [delay] milliseconds between two attempts; the error of the last
    attempt is thrown when all have failed. [more] is the number of
    attempts left after the next one. *)
Fixpoint retry_from {A : Type} (action : Async State A) (delay : N)
  (more : nat) : Async State A :=
  fun s =>
    match action s with
    | (Resolved a, s') => (Resolved a, s')
    | (Rejected e, s') =>
        match more with
        | O => (Rejected e, s')
        | S more' => retry_from action delay more' (emit (RetryDelay delay) s')
        end
    end.

Definition retry {A : Type} (action : Async State A) (times : nat)
  (delay : option N) : Async State A :=
  retry_from action (default default_delay delay) (Nat.pred times).

Definition checkForLegacyInstall : Async State unit :=
  call CheckForLegacyInstall (checkForLegacyInstall_ok w).

Definition initConfig : Async State WPConfig :=
  fun s => (initConfig_result w, emit InitConfig s).

Definition stop : Async State unit := call Stop (stop_ok w).

Definition upOne (service : string) : Async State unit :=
  call (UpOne service) (upOne_ok w service).

Definition upMany (services : list string) : Async State unit :=
  call (UpMany services) (upMany_ok w services).

Definition downloadSources (config : WPConfig) : Async State unit :=
  call (DownloadSources (Download.downloadSources config))
       (downloadSources_ok w).

Definition setupWordPressDirectories : Async State unit :=
  call SetupWordPressDirectories (setupWordPressDirectories_ok w).

Definition makeContentDirectoriesWritable (environment : string)
  : Async State unit :=
  call (MakeContentDirectoriesWritable environment)
       (makeContentDirectoriesWritable_ok w environment).

Definition checkDatabaseConnection : Async State unit :=
  attempt CheckDatabaseConnection (checkDatabaseConnection_ok w).

Definition configureWordPress (environment : string) : Async State unit :=
  attempt (ConfigureWordPress environment)
          (configureWordPress_ok w environment).

Definition sleep (ms : N) : Async State unit :=
  fun s => (Resolved tt, emit (Sleep ms) s).

Local Open Scope async_scope.

(** Lines 107 to 113: the content directories are made writable when
    [config.coreSource === null], which a missing field is not. *)
Definition writable_phase (config : WPConfig) : Async State unit :=
  match topCoreSource config with
  | Null =>
      Promise_all2 (makeContentDirectoriesWritable "development")
                   (makeContentDirectoriesWritable "tests") ;;
      ret tt
  | Undefined | Value _ => ret tt
  end.

(** Lines 115 to 126: the first check of the database connection, and
    the retries and the wait of the [catch] block. *)
Definition database_phase : Async State unit :=
  try_catch checkDatabaseConnection
    (fun _ =>
       retry checkDatabaseConnection 30 (Some 1000%N) ;;
       sleep 4000).

(** The steps a task has left, made one after another until one
    rejects; the outcome of the task is that of the last step it made,
    and [so_far] when it makes none. *)
Fixpoint run_steps (steps : list (Async State unit)) (so_far : Outcome unit)
  (s : State) : Outcome unit * State :=
  match steps with
  | [] => (so_far, s)
  | step :: rest =>
      match step s with
      | (Resolved _, s') => run_steps rest (Resolved tt) s'
      | (Rejected e, s') => (Rejected e, s')
      end
  end.

(** Two tasks that go on side by side, each with the steps it has left
    and its outcome so far. [schedule] gives the order in which they make
    their steps, [true] for the first task; a task that has no step left
    lets the other go on to its end, and so do both, the first task
    first, when the schedule has run out. *)
Fixpoint interleaved (schedule : list bool) (a b : list (Async State unit))
  (ra rb : Outcome unit) (s : State) : Outcome unit * Outcome unit * State :=
  match schedule with
  | [] =>
      match run_steps a ra s with
      | (ra', s1) =>
          match run_steps b rb s1 with
          | (rb', s2) => (ra', rb', s2)
          end
      end
  | first :: later =>
      match a, b with
      | [], _ =>
          match run_steps b rb s with
          | (rb', s') => (ra, rb', s')
          end
      | _ :: _, [] =>
          match run_steps a ra s with
          | (ra', s') => (ra', rb, s')
          end
      | x :: a', y :: b' =>
          if first
          then match x s with
               | (Resolved _, s') =>
                   interleaved later a' b (Resolved tt) rb s'
               | (Rejected e, s') => interleaved later [] b (Rejected e) rb s'
               end
          else match y s with
               | (Resolved _, s') =>
                   interleaved later a b' ra (Resolved tt) s'
               | (Rejected e, s') => interleaved later a [] ra (Rejected e) s'
               end
      end
  end.

(** Modelled from the spec: what [retry] of lib/retry.js, called with
    [times: 2] and no delay, has left to do once its first attempt, which
    it makes when it is called, has settled. Nothing when the attempt
    resolved; otherwise the wait and the second attempt, the last. *)
Definition retry_rest (action : Async State unit) (first : Outcome unit)
  : list (Async State unit) :=
  match first with
  | Resolved _ => []
  | Rejected _ =>
      [ (fun s => (Resolved tt, emit (RetryDelay default_delay) s)); action ]
  end.

(** Lines 129 to 136: the two [retry]-wrapped calls of
    [configureWordPress] under [Promise.all]. Both [retry] calls are made
    while the array is built, so the first attempt for development is
    followed by the first attempt for tests, whatever becomes of the
    former. What the two have left after that, they do side by side, in
    the order the outside gives; neither is cancelled when the other
    rejects, and the result resolves only if both do. *)
Definition configuration_phase : Async State (unit * unit) :=
  fun s =>
    match configureWordPress "development" s with
    | (development, s1) =>
        match configureWordPress "tests" s1 with
        | (tests, s2) =>
            match
              interleaved (configuration_order w)
                (retry_rest (configureWordPress "development") development)
                (retry_rest (configureWordPress "tests") tests)
                development tests s2
            with
            | (Resolved _, Resolved _, s3) => (Resolved (tt, tt), s3)
            | (Rejected e, _, s3) => (Rejected e, s3)
            | (_, Rejected e, s3) => (Rejected e, s3)
            end
        end
    end.

(** The branch taken when the configuration changed or an update was
    asked for: lines 104 to 142. *)
Definition configure (config : WPConfig) (configHash : string)
  : Async State unit :=
  set_text "Configuring WordPress." ;;
  writable_phase config ;;
  database_phase ;;
  configuration_phase ;;
  setCache CONFIG_CACHE_KEY configHash (workDirectoryPath config).

(** [start] from the point where the configuration is known: lines 59
    to 144. *)
Definition startWith (update : bool) (config : WPConfig)
  : Async State unit :=
  let configHash := md5 config in
  shouldConfigureWp <-
    (if update then ret true
     else didCacheChange CONFIG_CACHE_KEY configHash
            (workDirectoryPath config)) ;;
  (if shouldConfigureWp : bool
   then stop ;; set_text "Downloading sources."
   else ret tt) ;;
  Promise_all2 (upOne "mysql")
    (if shouldConfigureWp then downloadSources config else ret tt) ;;
  (if shouldConfigureWp then setupWordPressDirectories else ret tt) ;;
  set_text "Starting WordPress." ;;
  upMany ["wordpress"; "tests-wordpress"] ;;
  (if shouldConfigureWp then configure config configHash else ret tt) ;;
  set_text "WordPress started.".

(** The value [startWith] gives to [shouldConfigureWp] when the cache
    on disk is [c]. *)
Definition shouldConfigureWp (update : bool) (config : WPConfig)
  (c : gmap (string * string) string) : bool :=
  update
  || negb (bool_decide
             (c !! (workDirectoryPath config, CONFIG_CACHE_KEY)
              = Some (md5 config))).

Definition start (update : bool) : Async State unit :=
  set_text "Reading configuration." ;;
  checkForLegacyInstall ;;
  config <- initConfig ;;
  (if negb (detectedLocalConfig config)
   then fun s => (Resolved tt, emit (Warn (warning config)) s)
   else ret tt) ;;
  startWith update config.

Local Close Scope async_scope.

End Sequence.

(** One invocation of [start], from an empty trace and the cache as it
    is on disk. *)
Definition run (md5 : WPConfig -> string) (default_delay : N) (w : World)
  (update : bool) (c : gmap (string * string) string)
  : Outcome unit * State :=
  start md5 default_delay w update (initial_state c).

End Start.

(** ** The claims that the code does not meet, as the specification
       words them. *)
Module Stated.

(** Acquisition runs at most once per destination path: no two of the
    sources handed to [downloadSource] share their [path]. *)
Definition once_per_destination : Prop :=
  forall config : WPConfig,
    NoDup (path <$> Download.downloadSources config).


(** When both environments have a local core with one destination
    path, the tests mounts are the core's [testsPath] at [/var/www/html],
    the kept entries of the core directory and the other mounts of the
    tests environment, and the development core mount is not among
    them. *)
Definition shared_local_core_replaced : Prop :=
  forall (path_join : string -> string -> string)
         (readdirSync : string -> list string) (dirname : string)
         (config : WPConfig) (d t : WPSource),
    coreSource (development (env config)) = Some d ->
    coreSource (tests (env config)) = Some t ->
    path d = path t -> type d = "local" -> type t = "local" ->
    exists testsMounts,
      Compose.volumes
        <$> Compose.service
              (Compose.buildDockerComposeConfig path_join readdirSync
                 dirname config) "tests-wordpress"
      = Some testsMounts
      /\ testsMounts
         = (testsPath d +:+ ":/var/www/html")
             :: map (fun filename =>
                       path_join (path d) filename
                         +:+ ":/var/www/html/" +:+ filename)
                    (List.filter Compose.keepEntry (readdirSync (path d)))
             ++ Compose.directoryMounts (tests (env config))
             ++ Compose.pluginMounts (tests (env config))
             ++ Compose.themeMounts (tests (env config))
      /\ (path d +:+ ":/var/www/html") ∉ testsMounts.

(** The named volumes [wordpress] and [tests-wordpress] are declared
    exactly when the top-level [config.coreSource] is [null]. *)
Definition named_volumes_iff_null : Prop :=
  forall (path_join : string -> string -> string)
         (readdirSync : string -> list string) (dirname : string)
         (config : WPConfig),
    ("wordpress"
       ∈ Compose.named_volumes
           (Compose.buildDockerComposeConfig path_join readdirSync dirname
              config)
     <-> topCoreSource config = Null)
    /\ ("tests-wordpress"
          ∈ Compose.named_volumes
              (Compose.buildDockerComposeConfig path_join readdirSync
                 dirname config)
        <-> topCoreSource config = Null).

(** A successful git acquisition reports 0 first and 1 last, and every
    value in between is the quotient of some progress report and lies
    between 0 and 1. *)
Definition progress_in_unit_interval : Prop :=
  forall (git : Download.NodeGit) (calls : list Download.JsNumber),
    Download.acquire git = (Resolved tt, calls) ->
    exists reports,
      calls = Download.Finite 0
                :: map Download.transferProgress reports
                ++ [Download.Finite 1]
      /\ Forall Download.in_unit_interval
           (map Download.transferProgress reports).



(** The cache is written only after both environments were configured,
    as the last event of a run that resolves. *)
Definition checksum_written_last : Prop :=
  forall (md5 : WPConfig -> string) (default_delay : N) (w : Start.World)
         (update : bool) (c : gmap (string * string) string)
         (config : WPConfig) (directory key value : string),
    Start.checkForLegacyInstall_ok w = true ->
    Start.initConfig_result w = Resolved config ->
    Start.SetCache directory key value
      ∈ Start.trace (Start.run md5 default_delay w update c).2 ->
    (Start.run md5 default_delay w update c).1 = Resolved tt
    /\ Start.configured (Start.configureWordPress_ok w "development") = true
    /\ Start.configured (Start.configureWordPress_ok w "tests") = true.

(** When a run fails the cache is left as it was, and the next start on
    the same configuration stops the services and provisions again. *)
Definition failed_start_is_redone : Prop :=
  forall (md5 : WPConfig -> string) (default_delay : N)
         (w next : Start.World) (update again : bool)
         (c : gmap (string * string) string) (config : WPConfig),
    Start.checkForLegacyInstall_ok w = true ->
    Start.initConfig_result w = Resolved config ->
    Start.checkForLegacyInstall_ok next = true ->
    Start.initConfig_result next = Resolved config ->
    (Start.run md5 default_delay w update c).1 <> Resolved tt ->
    Start.cache (Start.run md5 default_delay w update c).2 = c
    /\ exists later,
         Start.trace
           (Start.run md5 default_delay next again
              (Start.cache (Start.run md5 default_delay w update c).2)).2
         = Start.reading config ++ Start.Stop :: later.

(** The checksum is persisted on full success only, and a failed start
    is done again. *)
Definition checksum_on_full_success : Prop :=
  checksum_written_last /\ failed_start_is_redone.

End Stated.

(** ** Concrete descriptors, configurations and answers of the outside *)
Module Examples.

Definition gutenberg : WPSource :=
  {| type := "git";
     url := Some "https://github.com/WordPress/gutenberg.git";
     ref := Some "master";
     path := "/work/gutenberg";
     testsPath := "/work/tests-gutenberg";
     basename := "gutenberg" |}.

(** The same repository at another ref. *)
Definition gutenberg_trunk : WPSource :=
  {| type := "git";
     url := Some "https://github.com/WordPress/gutenberg.git";
     ref := Some "trunk";
     path := "/work/gutenberg-trunk";
     testsPath := "/work/tests-gutenberg-trunk";
     basename := "gutenberg-trunk" |}.

(** Another repository whose descriptor has the destination of
    [gutenberg]. *)
Definition gutenberg_fork : WPSource :=
  {| type := "git";
     url := Some "https://github.com/bdwm/gutenberg.git";
     ref := Some "master";
     path := "/work/gutenberg";
     testsPath := "/work/tests-gutenberg";
     basename := "gutenberg" |}.

Definition here : WPSource :=
  {| type := "local"; url := None; ref := None;
     path := "/home/dev/plugin";
     testsPath := "/work/tests-plugin";
     basename := "plugin" |}.

Definition local_core : WPSource :=
  {| type := "local"; url := None; ref := None;
     path := "/home/dev/wordpress";
     testsPath := "/work/tests-wordpress";
     basename := "wordpress" |}.

Definition service_config (p : N) (core : option WPSource)
  (plugins : list WPSource) : WPServiceConfig :=
  {| port := p; coreSource := core; pluginSources := plugins;
     themeSources := []; mappings := [] |}.

(** A configuration whose top-level [coreSource] is the source [top],
    or [null] when there is none. *)
Definition config_of (top : option WPSource) (dev tst : WPServiceConfig)
  : WPConfig :=
  {| env := {| development := dev; tests := tst |};
     topCoreSource := match top with Some c => Value c | None => Null end;
     configDirectoryPath := "/home/dev/plugin";
     workDirectoryPath := "/work";
     dockerComposeConfigPath := "/work/docker-compose.yml";
     detectedLocalConfig := true;
     debug := false |}.

(** The plugin in the working directory for both environments and no
    core: [config.coreSource] is [null], and so is each environment's. *)
Definition plugin_config : WPConfig :=
  config_of None (service_config 8888 None [here])
            (service_config 8889 None [here]).

(** Two refs of one repository, one per environment. *)
Definition two_refs_config : WPConfig :=
  config_of None (service_config 8888 None [here; gutenberg])
            (service_config 8889 None [here; gutenberg_trunk]).

(** Two repositories with one destination. *)
Definition same_destination_config : WPConfig :=
  config_of None (service_config 8888 None [gutenberg])
            (service_config 8889 None [gutenberg_fork]).

(** A fetch whose only progress report has no objects in it. *)
Definition empty_fetch : Download.NodeGit :=
  {| Download.Clone_reports := [];
     Download.Clone_ok := false;
     Download.Repository_open_ok := true;
     Download.getRemote_ok := true;
     Download.fetch_reports :=
       [ {| Download.receivedObjects := 0;
            Download.indexedObjects := 0;
            Download.totalObjects := 0 |} ];
     Download.fetch_ok := true;
     Download.disconnect_ok := true;
     Download.getReference_FETCH_HEAD_ok := true;
     Download.getReference_ref_ok := true;
     Download.checkoutRef_ok := true;
     Download.setHeadDetached_ok := true |}.

(** A clone of four objects, reported three times. *)
Definition small_clone : Download.NodeGit :=
  {| Download.Clone_reports :=
       [ {| Download.receivedObjects := 2;
            Download.indexedObjects := 0;
            Download.totalObjects := 4 |};
         {| Download.receivedObjects := 4;
            Download.indexedObjects := 1;
            Download.totalObjects := 4 |};
         {| Download.receivedObjects := 4;
            Download.indexedObjects := 4;
            Download.totalObjects := 4 |} ];
     Download.Clone_ok := true;
     Download.Repository_open_ok := true;
     Download.getRemote_ok := true;
     Download.fetch_reports := [];
     Download.fetch_ok := true;
     Download.disconnect_ok := true;
     Download.getReference_FETCH_HEAD_ok := true;
     Download.getReference_ref_ok := true;
     Download.checkoutRef_ok := true;
     Download.setHeadDetached_ok := true |}.

Definition wordpress_master : WPSource :=
  {| type := "git";
     url := Some "https://github.com/WordPress/WordPress.git";
     ref := Some "master";
     path := "/work/WordPress";
     testsPath := "/work/tests-WordPress";
     basename := "WordPress" |}.

(** A repository as the core, at the top level and for both
    environments, and the plugin in the working directory. *)
Definition remote_core_config : WPConfig :=
  config_of (Some wordpress_master)
            (service_config 8888 (Some wordpress_master) [here])
            (service_config 8889 (Some wordpress_master) [here]).

(** [path.join] on a directory without a trailing separator and a file
    name, and a core directory with six entries. *)
Definition join (a b : string) : string := a +:+ "/" +:+ b.

Definition core_entries (_ : string) : list string :=
  ["index.php"; "wp-admin"; "wp-config.php"; "wp-config-sample.php";
   "wp-content"; "wp-includes"].

(** A local directory as the core, at the top level and for both
    environments, and the plugin in the working directory. *)
Definition local_core_config : WPConfig :=
  config_of (Some local_core)
            (service_config 8888 (Some local_core) [here])
            (service_config 8889 (Some local_core) [here]).

(** The development environment on the default image, the tests
    environment on a repository, and a top-level core. *)
Definition overridden_core_config : WPConfig :=
  config_of (Some gutenberg)
            (service_config 8888 None [here])
            (service_config 8889 (Some gutenberg) [here]).

(** An outside where every call resolves at once, and the checksum
    function used in the examples. *)
Definition calm (config : WPConfig) : Start.World :=
  {| Start.checkForLegacyInstall_ok := true;
     Start.initConfig_result := Resolved config;
     Start.stop_ok := true;
     Start.upOne_ok := fun _ => true;
     Start.upMany_ok := fun _ => true;
     Start.downloadSources_ok := true;
     Start.setupWordPressDirectories_ok := true;
     Start.makeContentDirectoriesWritable_ok := fun _ => true;
     Start.checkDatabaseConnection_ok := fun _ => true;
     Start.configureWordPress_ok := fun _ _ => true;
     Start.configuration_order := [] |}.

(** The database accepts connections from the check numbered [ready]
    on; the other calls resolve at once. *)
Definition slow_database (config : WPConfig) (ready : nat) : Start.World :=
  {| Start.checkForLegacyInstall_ok := true;
     Start.initConfig_result := Resolved config;
     Start.stop_ok := true;
     Start.upOne_ok := fun _ => true;
     Start.upMany_ok := fun _ => true;
     Start.downloadSources_ok := true;
     Start.setupWordPressDirectories_ok := true;
     Start.makeContentDirectoriesWritable_ok := fun _ => true;
     Start.checkDatabaseConnection_ok := fun n => Nat.leb ready n;
     Start.configureWordPress_ok := fun _ _ => true;
     Start.configuration_order := [] |}.

(** The database never accepts a connection. *)
Definition no_database (config : WPConfig) : Start.World :=
  {| Start.checkForLegacyInstall_ok := true;
     Start.initConfig_result := Resolved config;
     Start.stop_ok := true;
     Start.upOne_ok := fun _ => true;
     Start.upMany_ok := fun _ => true;
     Start.downloadSources_ok := true;
     Start.setupWordPressDirectories_ok := true;
     Start.makeContentDirectoriesWritable_ok := fun _ => true;
     Start.checkDatabaseConnection_ok := fun _ => false;
     Start.configureWordPress_ok := fun _ _ => true;
     Start.configuration_order := [] |}.

Definition checksum (config : WPConfig) : string :=
  match topCoreSource config with
  | Value _ => "5f4dcc3b5aa765d61d8327deb882cf99"
  | Undefined | Null => "d41d8cd98f00b204e9800998ecf8427e"
  end.

(** The cache after a start that applied [config]. *)
Definition applied (config : WPConfig) : gmap (string * string) string :=
  {[ (workDirectoryPath config, Start.CONFIG_CACHE_KEY) := checksum config ]}.

End Examples.

(** ** [Promise.all] on an array

    All the calls are made, in the order of the array; none is cancelled
    when another rejects, and the result resolves only if all do. The
    effects of a call are put before those of the calls after it. *)
Fixpoint Promise_all {S : Type} (tasks : list (Async S unit)) : Async S unit :=
  match tasks with
  | [] => ret tt
  | task :: rest => bind (Promise_all2 task (Promise_all rest)) (fun _ => ret tt)
  end.

(** ** lib/download-sources.js: [downloadSource] and
       [downloadZipSource] *)
Module Archive.
Import Download.

(** The calls [downloadZipSource] makes on the file system and the
    network: [fs.createWriteStream], [pipeline] on the stream of
    [got.stream( url )] and the file, [extractZip], [rimraf],
    [fs.promises.readdir] and [copyDir]. The messages of debug mode are
    left out. *)
Inductive Op : Type :=
| CreateWriteStream (file : string)
| Pipeline (url : option string) (file : string)
| ExtractZip (zip dir : string)
| Rimraf (target : string)
| Readdir (dir : string)
| CopyDir (from to : string).

Global Instance Op_eq_dec : EqDecision Op.
Proof. solve_decision. Defined.

(** The values [onProgress] was called with and the calls made, oldest
    first. *)
Record State := {
  calls : list JsNumber;
  ops : list Op;
}.

Definition initial_state : State := {| calls := []; ops := [] |}.

(** How the outside answers during the download of one source: what
    NodeGit does, the [percent] of each [downloadProgress] event of the
    response stream, and for each call whether it resolves. [readdir]
    resolves with the entries of the directory. *)
Record Outside := {
  git : NodeGit;
  percents : list JsNumber;
  pipeline_ok : bool;
  extractZip_ok : bool;
  readdir_result : Outcome (list string);
  copyDir_ok : string -> bool;
  rimraf_ok : string -> bool;
}.

Section Source.

(** Node's [path.join]. *)
Variable path_join : string -> string -> string.

Variable o : Outside.

Definition onProgress (v : JsNumber) : Async State unit :=
  fun s => (Resolved tt, {| calls := calls s ++ [v]; ops := ops s |}).

(** A call that is recorded and then resolves or rejects. *)
Definition call (op : Op) (ok : bool) : Async State unit :=
  fun s =>
    (if ok then Resolved tt else Rejected "rejected",
     {| calls := calls s; ops := ops s ++ [op] |}).

(** [await pipeline( responseStream, zipFile )]: the progress events
    of the response stream go to [onProgress] while it runs. *)
Definition pipeline (url : option string) (file : string)
  : Async State unit :=
  fun s =>
    (if pipeline_ok o then Resolved tt else Rejected "rejected",
     {| calls := calls s ++ percents o;
        ops := ops s ++ [Pipeline url file] |}).

Definition readdir (dir : string) : Async State (list string) :=
  fun s =>
    (readdir_result o, {| calls := calls s; ops := ops s ++ [Readdir dir] |}).

Definition copyDir (from to : string) : Async State unit :=
  call (CopyDir from to) (copyDir_ok o from).

Definition rimraf (target : string) : Async State unit :=
  call (Rimraf target) (rimraf_ok o target).

Local Open Scope async_scope.

(** Lines 203 to 208. The elements of the array are evaluated in
    order: [rimraf( zipName )] is called, then [readdir] is awaited, then
    [copyDir] is called on every entry; a rejection of [readdir] is thrown
    before [Promise.all] is reached. *)
Definition copy_and_clean_up (source : WPSource) (zipName dirName : string)
  : Async State unit :=
  fun s =>
    match rimraf zipName s with
    | (removed, s1) =>
        match readdir dirName s1 with
        | (Rejected e, s2) => (Rejected e, s2)
        | (Resolved files, s2) =>
            match
              Promise_all
                (map (fun file =>
                        copyDir (path_join dirName file) (path source))
                     files) s2
            with
            | (copied, s3) =>
                (match removed, copied with
                 | Resolved _, Resolved _ => Resolved tt
                 | Rejected e, _ => Rejected e
                 | _, Rejected e => Rejected e
                 end, s3)
            end
        end
    end.

Definition downloadZipSource (source : WPSource) : Async State unit :=
  onProgress (Finite 0) ;;
  let zipName := path source +:+ ".zip" in
  call (CreateWriteStream zipName) true ;;
  pipeline (url source) zipName ;;
  let dirName := path source +:+ ".temp" in
  call (ExtractZip zipName dirName) (extractZip_ok o) ;;
  copy_and_clean_up source zipName dirName ;;
  rimraf dirName ;;
  onProgress (Finite 1).

(** [downloadGitSource] of [Download], which reports progress and makes
    none of the calls above. *)
Definition downloadGitSource (source : WPSource) : Async State unit :=
  fun s =>
    match Download.downloadGitSource (git o) (calls s) with
    | (result, reported) => (result, {| calls := reported; ops := ops s |})
    end.

Definition downloadSource (source : WPSource) : Async State unit :=
  if String.eqb (type source) "git" then downloadGitSource source
  else if String.eqb (type source) "zip" then downloadZipSource source
  else ret tt.

Local Close Scope async_scope.

(** Whether [readdir] resolves and every entry is copied. *)
Definition copied (source : WPSource) : bool :=
  match readdir_result o with
  | Resolved files =>
      forallb (fun file =>
                 copyDir_ok o (path_join (path source +:+ ".temp") file))
              files
  | Rejected _ => false
  end.

(** The calls of copying the entries [files] of the temporary
    directory. *)
Definition copies (source : WPSource) (files : list string) : list Op :=
  map (fun file =>
         CopyDir (path_join (path source +:+ ".temp") file) (path source))
      files.

End Source.

(** The download of one zip source, and of one source of any type, from
    the start. *)
Definition unzip (path_join : string -> string -> string) (o : Outside)
  (source : WPSource) : Outcome unit * State :=
  downloadZipSource path_join o source initial_state.

Definition download (path_join : string -> string -> string) (o : Outside)
  (source : WPSource) : Outcome unit * State :=
  downloadSource path_join o source initial_state.

End Archive.

(** ** lib/download-sources.js: [downloadSources] and its progress
       display *)
Module Progress.
Import Download.

(** The entry of [id] is set to [progress], in an object whose keys
    are kept in the order in which they were added. *)
Fixpoint assign (id : string) (progress : JsNumber)
  (progresses : list (string * JsNumber)) : list (string * JsNumber) :=
  match progresses with
  | [] => [(id, progress)]
  | (key, value) :: rest =>
      if String.eqb key id then (key, progress) :: rest
      else (key, value) :: assign id progress rest
  end.

(** [progresses[ id ] = progress] on a plain object: the key
    [__proto__] names the prototype, and a number assigned to it is
    dropped. *)
Definition set_property (id : string) (progress : JsNumber)
  (progresses : list (string * JsNumber)) : list (string * JsNumber) :=
  if String.eqb id "__proto__" then progresses
  else assign id progress progresses.

(** The [progresses] object, the spinner's text and the calls the
    downloads made on the file system. *)
Record State := {
  progresses : list (string * JsNumber);
  text : string;
  file_ops : list Archive.Op;
}.

Definition newline : string := String (ascii_of_nat 10) "".

(** Whether [downloadSource] downloads a source of this type. *)
Definition reports (source : WPSource) : bool :=
  String.eqb (type source) "git" || String.eqb (type source) "zip".

Section Display.

(** Node's [path.join]; [Object.entries], which lists the keys that are
    array indices before the others; and [( value * 100 ).toFixed( 0 )]. *)
Variable path_join : string -> string -> string.
Variable Object_entries :
  list (string * JsNumber) -> list (string * JsNumber).
Variable percent : JsNumber -> string.

(** How the outside answers during the download of each source. *)
Variable outside : WPSource -> Archive.Outside.

Definition line (entry : string * JsNumber) : string :=
  "  - " +:+ entry.1 +:+ ": " +:+ percent entry.2 +:+ "/100%".

(** The text of lines 37 to 43. *)
Definition render (progresses : list (string * JsNumber)) : string :=
  "Downloading WordPress." +:+ newline
    +:+ String.concat newline (map line (Object_entries progresses)).

Definition getProgressSetter (id : string) (progress : JsNumber)
  (s : State) : State :=
  let progresses := set_property id progress (progresses s) in
  {| progresses := progresses;
     text := render progresses;
     file_ops := file_ops s |}.

(** [downloadSource( source, { onProgress: getProgressSetter(
    source.basename ), spinner } )]: the values the download reports go
    to the progress setter, in order. *)
Definition downloadSource (source : WPSource) : Async State unit :=
  fun s =>
    match Archive.download path_join (outside source) source with
    | (result, downloaded) =>
        let s' :=
          foldl (fun shown progress =>
                   getProgressSetter (basename source) progress shown)
                s (Archive.calls downloaded) in
        (result,
         {| progresses := progresses s';
            text := text s';
            file_ops := file_ops s ++ Archive.ops downloaded |})
    end.

(** Lines 62 to 69, on the sources that lines 47 to 60 collect. *)
Definition downloadSources (config : WPConfig) : Async State unit :=
  Promise_all (map downloadSource (Download.downloadSources config)).

(** One call, when the spinner reads [shown]. *)
Definition run (config : WPConfig) (shown : string)
  : Outcome unit * State :=
  downloadSources config
    {| progresses := []; text := shown; file_ops := [] |}.

End Display.

End Progress.

(** ** lib/commands/start.js: [checkForLegacyInstall] *)
Module Legacy.

(** What [checkForLegacyInstall] does to the outside: [fs.access],
    [spinner.info], [inquirer.prompt], [rimraf] and [spinner.start]. *)
Inductive Event : Type :=
| Access (install : string)
| Info (message : string)
| Prompt
| Rimraf (install : string)
| SpinnerStart.

Global Instance Event_eq_dec : EqDecision Event.
Proof. solve_decision. Defined.

(** The outside: the name of the working directory, which installs can
    be accessed, whether the failed check of the second install is handled
    before that of the first, the answer to the prompt and which removals
    resolve. *)
Record Outside := {
  cwd_basename : string;
  access_ok : string -> bool;
  tests_first : bool;
  prompt_result : Outcome bool;
  rimraf_ok : string -> bool;
}.

(** [array.indexOf( x )]: the first index of [x], or -1. *)
Fixpoint indexOf_from (x : string) (l : list string) (i : Z) : Z :=
  match l with
  | [] => (-1)%Z
  | y :: rest => if String.eqb y x then i else indexOf_from x rest (i + 1)%Z
  end.

Definition indexOf (x : string) (l : list string) : Z := indexOf_from x l 0.

(** [array.splice( start, 1 )], as the array it leaves: a negative
    [start] counts from the end. *)
Definition splice1 (start : Z) (l : list string) : list string :=
  let len := Z.of_nat (length l) in
  let actual :=
    if (start <? 0)%Z then Z.max (len + start) 0 else Z.min start len in
  delete (Z.to_nat actual) l.

Definition installs_of (basename : string) : list string :=
  ["../" +:+ basename +:+ "-wordpress";
   "../" +:+ basename +:+ "-tests-wordpress"].

(** The installs whose check fails, in the order in which the [catch]
    callbacks run. *)
Definition rejections (o : Outside) : list string :=
  let failed :=
    List.filter (fun install => negb (access_ok o install))
                (installs_of (cwd_basename o)) in
  if tests_first o then reverse failed else failed.

(** [installs] after the callbacks: each one takes its install out with
    [installs.splice( installs.indexOf( install ), 1 )]. *)
Definition remaining (o : Outside) : list string :=
  foldl (fun installs install => splice1 (indexOf install installs) installs)
        (installs_of (cwd_basename o)) (rejections o).

Definition newline : string := String (ascii_of_nat 10) "".

Definition notice (installs : list string) : string :=
  "It appears that you have used a previous version of this tool where installs were kept in "
    +:+ String.concat " and " installs
    +:+ ". Installs are now in your home folder." +:+ newline.

Definition emit (e : Event) : Async (list Event) unit :=
  fun t => (Resolved tt, t ++ [e]).

Definition rimraf (o : Outside) (install : string)
  : Async (list Event) unit :=
  fun t =>
    (if rimraf_ok o install then Resolved tt else Rejected "rejected",
     t ++ [Rimraf install]).

Definition prompt (o : Outside) : Async (list Event) bool :=
  fun t => (prompt_result o, t ++ [Prompt]).

Local Open Scope async_scope.

(** Lines 153 to 191. A failed check is caught, so the first
    [Promise.all] always resolves. *)
Definition checkForLegacyInstall (o : Outside) : Async (list Event) unit :=
  Promise_all (map (fun install => emit (Access install))
                   (installs_of (cwd_basename o))) ;;
  let installs := remaining o in
  match installs with
  | [] => ret tt
  | _ :: _ =>
      emit (Info (notice installs)) ;;
      yesDelete <- prompt o ;;
      (if yesDelete : bool
       then Promise_all (map (rimraf o) installs) ;;
            emit (Info "Old installs deleted successfully.")
       else ret tt) ;;
      emit SpinnerStart
  end.

Local Close Scope async_scope.

(** One call, from an empty trace. *)
Definition check (o : Outside) : Outcome unit * list Event :=
  checkForLegacyInstall o [].

(** The installs that can be accessed. *)
Definition found (o : Outside) : list string :=
  List.filter (access_ok o) (installs_of (cwd_basename o)).

End Legacy.

(** ** Further concrete inputs *)
Module Samples.

(** Both environments with the plugins of the development environment of
    [Examples.two_refs_config]. *)
Definition mirrored_config : WPConfig :=
  Examples.config_of None
    (Examples.service_config 8888 None [Examples.here; Examples.gutenberg])
    (Examples.service_config 8889 None [Examples.here; Examples.gutenberg]).

(** A repository that is on disk already: the clone fails, opening it
    works, and the ref is a tag that [FETCH_HEAD] does not give. *)
Definition existing_repository : Download.NodeGit :=
  {| Download.Clone_reports := [];
     Download.Clone_ok := false;
     Download.Repository_open_ok := true;
     Download.getRemote_ok := true;
     Download.fetch_reports :=
       [ {| Download.receivedObjects := 1;
            Download.indexedObjects := 1;
            Download.totalObjects := 1 |} ];
     Download.fetch_ok := true;
     Download.disconnect_ok := true;
     Download.getReference_FETCH_HEAD_ok := false;
     Download.getReference_ref_ok := true;
     Download.checkoutRef_ok := true;
     Download.setHeadDetached_ok := false |}.

(** A clone that reports once and then fails, at a path that holds no
    repository. *)
Definition broken_clone : Download.NodeGit :=
  {| Download.Clone_reports :=
       [ {| Download.receivedObjects := 1;
            Download.indexedObjects := 0;
            Download.totalObjects := 4 |} ];
     Download.Clone_ok := false;
     Download.Repository_open_ok := false;
     Download.getRemote_ok := true;
     Download.fetch_reports :=
       [ {| Download.receivedObjects := 4;
            Download.indexedObjects := 4;
            Download.totalObjects := 4 |} ];
     Download.fetch_ok := true;
     Download.disconnect_ok := true;
     Download.getReference_FETCH_HEAD_ok := true;
     Download.getReference_ref_ok := true;
     Download.checkoutRef_ok := true;
     Download.setHeadDetached_ok := true |}.

(** The sources cannot be fetched; the other calls resolve at once. *)
Definition offline (config : WPConfig) : Start.World :=
  {| Start.checkForLegacyInstall_ok := true;
     Start.initConfig_result := Resolved config;
     Start.stop_ok := true;
     Start.upOne_ok := fun _ => true;
     Start.upMany_ok := fun _ => true;
     Start.downloadSources_ok := false;
     Start.setupWordPressDirectories_ok := true;
     Start.makeContentDirectoriesWritable_ok := fun _ => true;
     Start.checkDatabaseConnection_ok := fun _ => true;
     Start.configureWordPress_ok := fun _ _ => true;
     Start.configuration_order := [] |}.

(** The content directories of the development environment cannot be
    made writable; the other calls resolve at once. *)
Definition read_only_content (config : WPConfig) : Start.World :=
  {| Start.checkForLegacyInstall_ok := true;
     Start.initConfig_result := Resolved config;
     Start.stop_ok := true;
     Start.upOne_ok := fun _ => true;
     Start.upMany_ok := fun _ => true;
     Start.downloadSources_ok := true;
     Start.setupWordPressDirectories_ok := true;
     Start.makeContentDirectoriesWritable_ok :=
       fun environment => negb (String.eqb environment "development");
     Start.checkDatabaseConnection_ok := fun _ => true;
     Start.configureWordPress_ok := fun _ _ => true;
     Start.configuration_order := [] |}.

(** A release archive of a plugin. *)
Definition archive : WPSource :=
  {| type := "zip";
     url := Some "https://downloads.wordpress.org/plugin/gutenberg.zip";
     ref := None;
     path := "/work/gutenberg";
     testsPath := "/work/tests-gutenberg";
     basename := "gutenberg" |}.

(** The archive arrives in two parts and holds one directory and one
    file; every call resolves. *)
Definition unpacked : Archive.Outside :=
  {| Archive.git := Examples.small_clone;
     Archive.percents := [Download.Finite (1 # 2); Download.Finite 1];
     Archive.pipeline_ok := true;
     Archive.extractZip_ok := true;
     Archive.readdir_result := Resolved ["gutenberg"; "readme.txt"];
     Archive.copyDir_ok := fun _ => true;
     Archive.rimraf_ok := fun _ => true |}.

(** As [unpacked], but the file cannot be copied. *)
Definition half_copied : Archive.Outside :=
  {| Archive.git := Examples.small_clone;
     Archive.percents := [Download.Finite (1 # 2); Download.Finite 1];
     Archive.pipeline_ok := true;
     Archive.extractZip_ok := true;
     Archive.readdir_result := Resolved ["gutenberg"; "readme.txt"];
     Archive.copyDir_ok :=
       fun from => negb (String.eqb from "/work/gutenberg.temp/readme.txt");
     Archive.rimraf_ok := fun _ => true |}.

(** In a directory [gutenberg] next to which only the old tests install
    is left; the user confirms and the removal resolves. *)
Definition old_tests_install : Legacy.Outside :=
  {| Legacy.cwd_basename := "gutenberg";
     Legacy.access_ok :=
       fun install => String.eqb install "../gutenberg-tests-wordpress";
     Legacy.tests_first := false;
     Legacy.prompt_result := Resolved true;
     Legacy.rimraf_ok := fun _ => true |}.

(** No old install is left; the check of the second is the first to
    fail. *)
Definition no_old_install : Legacy.Outside :=
  {| Legacy.cwd_basename := "gutenberg";
     Legacy.access_ok := fun _ => false;
     Legacy.tests_first := true;
     Legacy.prompt_result := Resolved true;
     Legacy.rimraf_ok := fun _ => true |}.

(** [( value * 100 ).toFixed( 0 )] on the values of the examples, which
    are not negative: the nearest integer, the larger of two. *)
Definition percent (value : Download.JsNumber) : string :=
  match value with
  | Download.Finite (a # b) =>
      pretty ((200 * a + Z.pos b) / (2 * Z.pos b))%Z
  | Download.Infinity => "Infinity"
  | Download.NaN => "NaN"
  end.

(** [Object.entries] on an object without a key that is an array
    index. *)
Definition entries (progresses : list (string * Download.JsNumber))
  : list (string * Download.JsNumber) := progresses.

(** The database accepts the check numbered 11; both sites are
    configured at the second attempt only, and the tests environment makes
    its second attempt before development starts to wait. *)
Definition both_retried (config : WPConfig) : Start.World :=
  {| Start.checkForLegacyInstall_ok := true;
     Start.initConfig_result := Resolved config;
     Start.stop_ok := true;
     Start.upOne_ok := fun _ => true;
     Start.upMany_ok := fun _ => true;
     Start.downloadSources_ok := true;
     Start.setupWordPressDirectories_ok := true;
     Start.makeContentDirectoriesWritable_ok := fun _ => true;
     Start.checkDatabaseConnection_ok := fun n => Nat.leb 11 n;
     Start.configureWordPress_ok := fun _ n => Nat.leb 1 n;
     Start.configuration_order := [false; false] |}.

(** The development site is configured at the second attempt only. *)
Definition slow_development_site (config : WPConfig) : Start.World :=
  {| Start.checkForLegacyInstall_ok := true;
     Start.initConfig_result := Resolved config;
     Start.stop_ok := true;
     Start.upOne_ok := fun _ => true;
     Start.upMany_ok := fun _ => true;
     Start.downloadSources_ok := true;
     Start.setupWordPressDirectories_ok := true;
     Start.makeContentDirectoriesWritable_ok := fun _ => true;
     Start.checkDatabaseConnection_ok := fun _ => true;
     Start.configureWordPress_ok :=
       fun environment n =>
         negb (String.eqb environment "development") || Nat.leb 1 n;
     Start.configuration_order := [] |}.

(** A configuration as it is without the top-level [coreSource] key. *)
Definition without_core_key (config : WPConfig) : WPConfig :=
  {| env := env config;
     topCoreSource := Undefined;
     configDirectoryPath := configDirectoryPath config;
     workDirectoryPath := workDirectoryPath config;
     dockerComposeConfigPath := dockerComposeConfigPath config;
     detectedLocalConfig := detectedLocalConfig config;
     debug := debug config |}.

(** A local core whose tests copy is the core directory itself, for
    both environments. *)
Definition core_in_place : WPSource :=
  {| type := "local"; url := None; ref := None;
     path := "/home/dev/wordpress";
     testsPath := "/home/dev/wordpress";
     basename := "wordpress" |}.

Definition core_in_place_config : WPConfig :=
  Examples.config_of (Some core_in_place)
    (Examples.service_config 8888 (Some core_in_place) [Examples.here])
    (Examples.service_config 8889 (Some core_in_place) [Examples.here]).




End Samples.

(** * Properties *)

(** ** Source acquisition *)
Module DownloadFacts.
Import Download.

Lemma is_added_insert (m : gmap string bool) (u v : string) :
  is_added (<[u := true]> m) v = if decide (u = v) then true else is_added m v.
Proof.
  unfold is_added. rewrite lookup_insert. by destruct (decide (u = v)).
Qed.

Lemma key_of_Some (s : WPSource) (u : string) :
  key_of s = Some u <-> url s = Some u /\ u <> "".
Proof.
  unfold key_of. destruct (url s) as [v|]; [|by split; [|intros []]].
  destruct (String.eqb_spec v "") as [->|Hne].
  - split; [done|]. by intros [[= ->] ?].
  - split; [by intros [= ->]|]. by intros [[= ->] _].
Qed.

(** [addSource] takes the step that [first_per_url] takes. *)
Lemma addSource_step (st : Added) (s : WPSource) :
  addSource st (Some s) =
    match key_of s with
    | Some u =>
        if is_added (addedSources st) u then st
        else {| sources := sources st ++ [s];
                addedSources := <[u := true]> (addedSources st) |}
    | None => st
    end.
Proof.
  unfold addSource, key_of. destruct (url s) as [u|]; [|done].
  destruct (String.eqb u ""); simpl; [done|].
  by destruct (is_added (addedSources st) u).
Qed.

Lemma forEach_addSource_sources (l : list WPSource) (st : Added) :
  sources (forEach_addSource st l)
  = sources st ++ first_per_url (addedSources st) l.
Proof.
  revert st. induction l as [|s l IH]; intros st.
  - simpl. by rewrite app_nil_r.
  - unfold forEach_addSource in *. cbn [foldl first_per_url].
    rewrite IH, addSource_step.
    destruct (key_of s) as [u|]; [|done].
    destruct (is_added (addedSources st) u); [done|].
    cbn [sources addedSources]. by rewrite <- app_assoc.
Qed.

Lemma forEach_addSource_app (l1 l2 : list WPSource) (st : Added) :
  forEach_addSource st (l1 ++ l2)
  = forEach_addSource (forEach_addSource st l1) l2.
Proof. unfold forEach_addSource. by rewrite foldl_app. Qed.

(** The loop over the environments is one pass of [addSource] over the
    offered descriptors. *)
Lemma loop_is_forEach (envs : list WPServiceConfig) (st : Added) :
  foldl addEnvironment st envs = forEach_addSource st (offered envs).
Proof.
  revert st. induction envs as [|e envs IH]; intros st; [done|].
  simpl. rewrite IH. unfold addEnvironment.
  rewrite !forEach_addSource_app. f_equal.
  destruct (coreSource e); reflexivity.
Qed.

Lemma collectSources_first_per_url (envs : list WPServiceConfig) :
  collectSources envs = first_per_url ∅ (offered envs).
Proof.
  unfold collectSources. by rewrite loop_is_forEach, forEach_addSource_sources.
Qed.

Lemma first_per_url_elem (l : list WPSource) (m : gmap string bool)
  (d : WPSource) :
  d ∈ first_per_url m l ->
  d ∈ l /\ exists u, key_of d = Some u /\ is_added m u = false.
Proof.
  revert m. induction l as [|s l IH]; intros m; simpl.
  { by intros ?%elem_of_nil. }
  destruct (key_of s) as [u|] eqn:Hs.
  - destruct (is_added m u) eqn:Hu.
    + intros Hd. destruct (IH _ Hd) as [? ?]. split; [by right|done].
    + intros [-> | Hd]%elem_of_cons; [split; [by left|eauto]|].
      destruct (IH _ Hd) as [? (v & Hv & Hadded)]. split; [by right|].
      exists v. split; [done|].
      rewrite is_added_insert in Hadded. by destruct (decide (u = v)).
  - intros Hd. destruct (IH _ Hd) as [? ?]. split; [by right|done].
Qed.

Lemma first_per_url_NoDup (l : list WPSource) (m : gmap string bool) :
  NoDup (key_of <$> first_per_url m l).
Proof.
  revert m. induction l as [|s l IH]; intros m; simpl; [constructor|].
  destruct (key_of s) as [u|] eqn:Hs; [|apply IH].
  destruct (is_added m u); [apply IH|].
  rewrite fmap_cons, Hs. apply NoDup_cons. split; [|apply IH].
  intros (d & Hd & Hin)%list_elem_of_fmap.
  apply first_per_url_elem in Hin as [_ (v & Hv & Hadded)].
  assert (v = u) as -> by congruence.
  rewrite is_added_insert in Hadded. by destruct (decide (u = u)).
Qed.



Lemma downloadSources_first_per_url (config : WPConfig) :
  downloadSources config
  = first_per_url ∅ (offered (Object_values (env config))).
Proof. apply collectSources_first_per_url. Qed.

Lemma downloadSources_offered (config : WPConfig) (d : WPSource) :
  d ∈ downloadSources config -> d ∈ offered (Object_values (env config)).
Proof.
  rewrite downloadSources_first_per_url.
  by intros [? _]%first_per_url_elem.
Qed.

(** The sources handed to [downloadSource] have pairwise different
    urls. *)
Lemma downloadSources_NoDup_url (config : WPConfig) :
  NoDup (url <$> downloadSources config).
Proof.
  rewrite downloadSources_first_per_url.
  pose proof (first_per_url_NoDup (offered (Object_values (env config))) ∅)
    as Hnd.
  erewrite list_fmap_ext; [exact Hnd|].
  intros i d Hd%list_elem_of_lookup_2.
  apply first_per_url_elem in Hd as [_ (u & Hu & _)].
  rewrite Hu. by apply key_of_Some in Hu as [-> _].
Qed.

(** The sources handed to [downloadSource] have a url that names no
    inherited property. *)
Lemma downloadSources_not_inherited (config : WPConfig) (d : WPSource)
  (u : string) :
  d ∈ downloadSources config -> url d = Some u -> inherited u = false.
Proof.
  rewrite downloadSources_first_per_url.
  intros (_ & v & Hv & Hadded)%first_per_url_elem Hu.
  apply key_of_Some in Hv as [Hv _].
  assert (v = u) as -> by congruence.
  unfold is_added in Hadded. by rewrite lookup_empty in Hadded.
Qed.




(** C2, as the code has it. The sources handed to [downloadSource] have
    pairwise different urls; their destination paths are pairwise
    different as well whenever offered descriptors with one destination
    path have one url. *)
Theorem downloadSources_once_per_url (config : WPConfig) :
  NoDup (url <$> downloadSources config)
  /\ ((forall d1 d2,
         d1 ∈ offered (Object_values (env config)) ->
         d2 ∈ offered (Object_values (env config)) ->
         path d1 = path d2 -> url d1 = url d2) ->
      NoDup (path <$> downloadSources config)).
Proof.
  split; [apply downloadSources_NoDup_url|].
  intros Hpath.
  pose proof (downloadSources_offered config) as Hsub.
  pose proof (downloadSources_NoDup_url config) as Hnd.
  induction (downloadSources config) as [|a l IH]; [constructor|].
  rewrite fmap_cons in *. apply NoDup_cons in Hnd as [Hnotin Hnd].
  apply NoDup_cons. split.
  - intros (b & Hb & Hin)%list_elem_of_fmap.
    apply Hnotin. apply list_elem_of_fmap. exists b. split; [|done].
    apply Hpath; [apply Hsub; by left|apply Hsub; by right|done].
  - apply IH; [|done]. intros d Hd. apply Hsub. by right.
Qed.

(** Witness of C2: one url, one destination, two environments. *)
Lemma downloadSources_once_per_url_witness :
  NoDup (path <$> downloadSources Examples.two_refs_config).
Proof.
  apply (proj2 (downloadSources_once_per_url Examples.two_refs_config)).
  intros d1 d2 H1 H2.
  repeat (apply elem_of_cons in H1 as [-> | H1]);
    [..|by apply elem_of_nil in H1];
  (repeat (apply elem_of_cons in H2 as [-> | H2]);
    [..|by apply elem_of_nil in H2]);
    try reflexivity; intros [=].
Defined.

(** Counterexample to C2 as stated: two repositories with different urls
    and one destination path are both handed to [downloadSource]. *)
Lemma downloadSources_same_destination_twice :
  ~ Stated.once_per_destination.
Proof.
  intros H. specialize (H Examples.same_destination_config).
  apply NoDup_cons in H as [Hnotin _]. apply Hnotin. by left.
Qed.

(** A quotient of object counts is between 0 and 1 when the total is
    not zero and bounds both counts. *)
Lemma transferProgress_in_unit_interval (report : TransferProgress) :
  (0 < totalObjects report)%N ->
  (receivedObjects report <= totalObjects report)%N ->
  (indexedObjects report <= totalObjects report)%N ->
  in_unit_interval (transferProgress report).
Proof.
  destruct report as [r i t]; simpl. intros Ht Hr Hi.
  unfold transferProgress, js_div; simpl.
  destruct (t * 2)%N as [|d] eqn:Hd; [lia|].
  unfold in_unit_interval, Qle; simpl. lia.
Qed.

(** What [onProgress] receives when the acquisition resolves. *)
Lemma acquire_resolved (git : NodeGit) (calls : list JsNumber) :
  acquire git = (Resolved tt, calls) ->
  calls = Finite 0
            :: map transferProgress (Clone_reports git ++ fetch_reports git)
            ++ [Finite 1].
Proof.
  destruct git as [creports cok ook rok freports fok dok hok refok chok sok].
  unfold acquire, downloadGitSource, bind, try_catch, transfer, nodegit,
    onProgress; simpl.
  destruct cok, ook, rok, fok, dok, hok, refok, chok, sok; simpl;
    intros [= <-]; rewrite map_app, <- ?app_assoc; reflexivity.
Qed.

(** C7. A fetch that resolves after a progress report with no
    objects: [transferProgress] divides 0 by 0 and hands the result, NaN,
    to [onProgress], which is documented to get a number that ranges from
    0 to 1. The quotient is passed on as it is computed, with no guard on
    the total and no clamp. *)
Theorem downloadGitSource_reports_not_a_number :
  acquire Examples.empty_fetch = (Resolved tt, [Finite 0; NaN; Finite 1])
  /\ transferProgress
       {| receivedObjects := 0; indexedObjects := 0; totalObjects := 0 |}
     = NaN
  /\ ~ in_unit_interval NaN.
Proof. split; [reflexivity|]. split; [reflexivity|]. by intros []. Qed.

(** C7 as stated fails there: the values reported between the first
    and the last are not all between 0 and 1. *)
Lemma downloadGitSource_progress_not_a_number :
  ~ Stated.progress_in_unit_interval.
Proof.
  intros H.
  destruct (H Examples.empty_fetch [Finite 0; NaN; Finite 1] eq_refl)
    as (reports & Hcalls & Hall).
  injection Hcalls as Hcalls.
  destruct reports as [|r1 [|r2 reports]]; simpl in Hcalls, Hall;
    [discriminate| |].
  - injection Hcalls as Hnan. rewrite <- Hnan in Hall.
    by apply Forall_cons in Hall as [[] _].
  - injection Hcalls as _ Hcalls.
    destruct reports; discriminate.
Qed.

End DownloadFacts.

(** ** The docker-compose topology *)
Module ComposeFacts.
Import Compose.

(** Closes a goal from [H : x ∈ [a; b; ...]] when [x] is none of the
    listed constants. *)
Ltac not_listed H :=
  repeat (apply elem_of_cons in H as [H | H]; [discriminate H|]);
  by apply elem_of_nil in H.

(** *** Mount strings *)

Lemma has_colon_app (a b : string) : has_colon (a +:+ String ":" b) = true.
Proof.
  induction a as [|c a IH]; simpl; [done|].
  rewrite IH. apply orb_true_r.
Qed.

(** A mount string splits at its last colon in one way only. *)
Lemma mount_split (x1 x2 t1 t2 : string) :
  has_colon t1 = false -> has_colon t2 = false ->
  x1 +:+ String ":" t1 = x2 +:+ String ":" t2 ->
  x1 = x2 /\ t1 = t2.
Proof.
  intros H1 H2. revert x2.
  induction x1 as [|c x1 IH]; intros [|c' x2]; simpl; intros Heq.
  - by injection Heq.
  - injection Heq as _ Heq. rewrite Heq, has_colon_app in H1. discriminate.
  - injection Heq as _ Heq. rewrite <- Heq, has_colon_app in H2. discriminate.
  - injection Heq as -> Heq. destruct (IH _ Heq) as [-> ->]. done.
Qed.

(** A mount below [/var/www/html] is not a mount at [/var/www/html]. *)
Lemma mount_below_differs (host1 host2 below : string) :
  has_colon below = false ->
  host1 +:+ ":/var/www/html/" +:+ below <> host2 +:+ ":/var/www/html".
Proof.
  intros Hbelow Heq.
  apply (mount_split host1 host2 ("/var/www/html/" +:+ below) "/var/www/html")
    in Heq as [_ Heq]; [discriminate Heq|by simpl|done].
Qed.

Lemma keepEntry_spec (filename : string) :
  keepEntry filename = true
  <-> filename <> "wp-config.php" /\ filename <> "wp-config-sample.php"
      /\ filename <> "wp-content".
Proof.
  unfold keepEntry. rewrite !andb_true_iff, !negb_true_iff.
  rewrite !String.eqb_neq. tauto.
Qed.

Section Topology.

Variable path_join : string -> string -> string.
Variable readdirSync : string -> list string.
Variable dirname : string.

Abbreviation build_config :=
  (buildDockerComposeConfig path_join readdirSync dirname).

(** The volumes of a service of the generated file. *)
Lemma volumes_wordpress (config : WPConfig) :
  volumes <$> service (build_config config) "wordpress"
  = Some (getMounts (development (env config)) "wordpress").
Proof. reflexivity. Qed.

Lemma volumes_tests_wordpress (config : WPConfig) :
  volumes <$> service (build_config config) "tests-wordpress"
  = Some (testsMountsOf path_join readdirSync config).
Proof. reflexivity. Qed.

(** C8. The port binding of the development service is
    [${WP_ENV_PORT:-<development port>}:80] and that of the tests service
    is [${WP_ENV_TESTS_PORT:-<tests port>}:80], the configured port
    printed in decimal: each binding names the environment variable and
    has the configured port as its default only. *)
Theorem port_bindings_defer_to_environment (config : WPConfig) :
  ports <$> service (build_config config) "wordpress"
  = Some ["${WP_ENV_PORT:-"
            +:+ pretty (port (development (env config))) +:+ "}:80"]
  /\ ports <$> service (build_config config) "tests-wordpress"
     = Some ["${WP_ENV_TESTS_PORT:-"
               +:+ pretty (port (tests (env config))) +:+ "}:80"].
Proof. split; reflexivity. Qed.

(** With the default ports the bindings read 8888 and 8889. *)
Example port_bindings_default :
  ports <$> service (build_config Examples.plugin_config) "wordpress"
  = Some ["${WP_ENV_PORT:-8888}:80"]
  /\ ports <$> service (build_config Examples.plugin_config) "tests-wordpress"
     = Some ["${WP_ENV_TESTS_PORT:-8889}:80"].
Proof. split; reflexivity. Qed.

(** The first mount of a service whose environment has no core source
    is the named volume. *)
Lemma getMounts_default_core (e : WPServiceConfig) (wordpressDefault : string) :
  coreSource e = None ->
  head (getMounts e wordpressDefault)
  = Some (wordpressDefault +:+ ":/var/www/html").
Proof. unfold getMounts, coreMount. by intros ->. Qed.

Lemma testsMountsOf_default_core (config : WPConfig) :
  coreSource (tests (env config)) = None ->
  testsMountsOf path_join readdirSync config
  = getMounts (tests (env config)) "tests-wordpress".
Proof.
  intros Htests. unfold testsMountsOf.
  destruct (coreSource (development (env config))) as [d|] eqn:Hdev;
    [|done].
  unfold hasSameCoreSource. cbn [forallb].
  rewrite Hdev, Htests.
  by destruct (sameCoreSource (Some d) (Some d)).
Qed.

(** The first mount is the core mount: the path of the environment's
    own core source when it has one, and the named volume otherwise. *)
Lemma getMounts_core (e : WPServiceConfig) (wordpressDefault : string) :
  head (getMounts e wordpressDefault)
  = Some (match coreSource e with
          | Some c => path c
          | None => wordpressDefault
          end +:+ ":/var/www/html").
Proof. reflexivity. Qed.

Lemma testsMountsOf_own_core (config : WPConfig) :
  coreSource (development (env config)) = None ->
  testsMountsOf path_join readdirSync config
  = getMounts (tests (env config)) "tests-wordpress".
Proof. unfold testsMountsOf. by intros ->. Qed.

(** C10, as the code has it. The named volumes [wordpress] and
    [tests-wordpress] are declared exactly when the top-level
    [config.coreSource] is falsy: [null] or missing. The core mount that
    [getMounts] puts first follows the environment's own [coreSource]: its
    path when there is one, the named volume when it is [null]. So the
    [wordpress] service mounts what the development environment's
    [coreSource] says, and so does [tests-wordpress] for the tests
    environment when that one is [null] or the development environment
    has none; and the two disagree when an environment overrides the
    core: with a top-level core and none for development the service
    mounts a named volume that is not declared, and with no top-level core
    and one for development the volume is declared while the service
    mounts the source's path. *)
Theorem named_volumes_follow_top_level_core :
  (forall config,
     ("wordpress" ∈ named_volumes (build_config config)
      <-> topCoreSource config = Null \/ topCoreSource config = Undefined)
     /\ ("tests-wordpress" ∈ named_volumes (build_config config)
         <-> topCoreSource config = Null
             \/ topCoreSource config = Undefined))
  /\ (forall e wordpressDefault,
        head (getMounts e wordpressDefault)
        = Some (match coreSource e with
                | Some c => path c
                | None => wordpressDefault
                end +:+ ":/var/www/html"))
  /\ (forall config,
        head <$> (volumes <$> service (build_config config) "wordpress")
        = Some (Some (match coreSource (development (env config)) with
                      | Some c => path c +:+ ":/var/www/html"
                      | None => "wordpress:/var/www/html"
                      end)))
  /\ (forall config,
        coreSource (tests (env config)) = None ->
        head <$> (volumes <$> service (build_config config) "tests-wordpress")
        = Some (Some "tests-wordpress:/var/www/html"))
  /\ (forall config t,
        coreSource (tests (env config)) = Some t ->
        coreSource (development (env config)) = None ->
        head <$> (volumes <$> service (build_config config) "tests-wordpress")
        = Some (Some (path t +:+ ":/var/www/html")))
  /\ (forall config c,
        topCoreSource config = Value c ->
        coreSource (development (env config)) = None ->
        head <$> (volumes <$> service (build_config config) "wordpress")
        = Some (Some "wordpress:/var/www/html")
        /\ ("wordpress" ∉ named_volumes (build_config config)))
  /\ (forall config c,
        truthy (topCoreSource config) = false ->
        coreSource (development (env config)) = Some c ->
        "wordpress" ∈ named_volumes (build_config config)
        /\ head <$> (volumes <$> service (build_config config) "wordpress")
           = Some (Some (path c +:+ ":/var/www/html"))).
Proof.
  assert (forall config,
            ("wordpress" ∈ named_volumes (build_config config)
             <-> topCoreSource config = Null
                 \/ topCoreSource config = Undefined)
            /\ ("tests-wordpress" ∈ named_volumes (build_config config)
                <-> topCoreSource config = Null
                    \/ topCoreSource config = Undefined)) as Hdeclared.
  { intros config. unfold buildDockerComposeConfig; cbn [named_volumes].
    destruct (topCoreSource config) as [| |c]; cbn [truthy app].
    - split; (split; [by right|intros _]); [by left|by right; left].
    - split; (split; [by left|intros _]); [by left|by right; left].
    - split; (split; [intros Hin; not_listed Hin|by intros [|]]). }
  assert (forall config,
            head <$> (volumes <$> service (build_config config) "wordpress")
            = Some (Some (match coreSource (development (env config)) with
                          | Some c => path c +:+ ":/var/www/html"
                          | None => "wordpress:/var/www/html"
                          end))) as Hdevelopment.
  { intros config. rewrite volumes_wordpress.
    unfold fmap, option_fmap, option_map. rewrite getMounts_core.
    by destruct (coreSource (development (env config))). }
  split; [exact Hdeclared|]. split; [exact getMounts_core|].
  split; [exact Hdevelopment|]. split; [|split; [|split]].
  - intros config Htests. rewrite volumes_tests_wordpress.
    unfold fmap, option_fmap, option_map.
    by rewrite testsMountsOf_default_core, getMounts_default_core.
  - intros config t Htests Hdev. rewrite volumes_tests_wordpress.
    unfold fmap, option_fmap, option_map.
    rewrite testsMountsOf_own_core, getMounts_core by done.
    by rewrite Htests.
  - intros config c Htop Hdev. rewrite Hdevelopment, Hdev.
    split; [done|]. intros Hin%Hdeclared. rewrite Htop in Hin.
    by destruct Hin.
  - intros config c Htop Hdev. split.
    + apply Hdeclared. by destruct (topCoreSource config); [right|left|].
    + by rewrite Hdevelopment, Hdev.
Qed.

(** The tests mounts when both environments have one local core. *)
Lemma testsMountsOf_shared_local (config : WPConfig) (d t : WPSource) :
  coreSource (development (env config)) = Some d ->
  coreSource (tests (env config)) = Some t ->
  path d = path t -> type d = "local" ->
  testsMountsOf path_join readdirSync config
  = (testsPath d +:+ ":/var/www/html")
      :: map (fun filename =>
                path_join (path d) filename
                  +:+ ":/var/www/html/" +:+ filename)
             (List.filter keepEntry (readdirSync (path d)))
      ++ directoryMounts (tests (env config))
      ++ pluginMounts (tests (env config))
      ++ themeMounts (tests (env config)).
Proof.
  intros Hdev Htests Hpath Hlocal.
  unfold testsMountsOf, hasSameCoreSource. cbn [forallb].
  rewrite Hdev, Htests. cbn [sameCoreSource].
  rewrite <- Hpath, String.eqb_refl. cbn [andb].
  unfold sharedCoreMounts. rewrite Hlocal. reflexivity.
Qed.

(** C3, as the code has it. When both environments have a core source,
    the two have one destination path and are of type [local], the tests
    service mounts the core's [testsPath] at [/var/www/html], then every
    entry of the
    core directory other than [wp-config.php], [wp-config-sample.php] and
    [wp-content] from the core's own path, then the mapped directories,
    plugins and themes. The development core mount
    [<path>:/var/www/html] is not among them, for a descriptor whose
    [testsPath] is not its [path] and for directory entries, mapping keys
    and basenames without a colon, the separator of a mount string. *)
Theorem shared_local_core_mounts (config : WPConfig) (d t : WPSource) :
  coreSource (development (env config)) = Some d ->
  coreSource (tests (env config)) = Some t ->
  path d = path t -> type d = "local" -> type t = "local" ->
  exists testsMounts,
    volumes <$> service (build_config config) "tests-wordpress"
      = Some testsMounts
    /\ testsMounts
       = (testsPath d +:+ ":/var/www/html")
           :: map (fun filename =>
                     path_join (path d) filename
                       +:+ ":/var/www/html/" +:+ filename)
                  (List.filter keepEntry (readdirSync (path d)))
           ++ directoryMounts (tests (env config))
           ++ pluginMounts (tests (env config))
           ++ themeMounts (tests (env config))
    /\ (forall filename,
          filename ∈ List.filter keepEntry (readdirSync (path d))
          <-> filename ∈ readdirSync (path d)
              /\ filename <> "wp-config.php"
              /\ filename <> "wp-config-sample.php"
              /\ filename <> "wp-content")
    /\ (testsPath d <> path d ->
        (forall filename,
           filename ∈ readdirSync (path d) -> has_colon filename = false) ->
        (forall wpDir source,
           (wpDir, source) ∈ mappings (tests (env config)) ->
           has_colon wpDir = false) ->
        (forall source,
           source ∈ pluginSources (tests (env config))
                      ++ themeSources (tests (env config)) ->
           has_colon (basename source) = false) ->
        (path d +:+ ":/var/www/html") ∉ testsMounts).
Proof.
  intros Hdev Htests Hpath Hlocal _.
  eexists. split; [apply volumes_tests_wordpress|].
  rewrite (testsMountsOf_shared_local config d t) by done.
  split; [reflexivity|]. split.
  - intros filename. rewrite list_elem_of_In, filter_In, keepEntry_spec.
    by rewrite <- list_elem_of_In.
  - intros Htp Hentries Hmappings Hnames.
    rewrite not_elem_of_cons, !not_elem_of_app. repeat split.
    + intros Heq.
      apply (mount_split (path d) (testsPath d)
               "/var/www/html" "/var/www/html") in Heq as [Heq _];
        [by apply Htp|done..].
    + intros (f & Heq & Hf)%list_elem_of_In%in_map_iff.
      apply filter_In in Hf as [Hf%list_elem_of_In _].
      by apply mount_below_differs in Heq; [|apply Hentries].
    + unfold directoryMounts.
      intros ([wpDir source] & Heq & Hin)%list_elem_of_In%in_map_iff.
      apply list_elem_of_In in Hin.
      by apply mount_below_differs in Heq; [|apply (Hmappings _ source)].
    + unfold pluginMounts.
      intros (source & Heq & Hin)%list_elem_of_In%in_map_iff.
      apply (mount_below_differs _ _ ("wp-content/plugins/" +:+ basename source))
        in Heq; [done|].
      simpl. apply Hnames, elem_of_app. left. by apply list_elem_of_In.
    + unfold themeMounts.
      intros (source & Heq & Hin)%list_elem_of_In%in_map_iff.
      apply (mount_below_differs _ _ ("wp-content/themes/" +:+ basename source))
        in Heq; [done|].
      simpl. apply Hnames, elem_of_app. right. by apply list_elem_of_In.
Qed.

End Topology.

(** Witness of C10: the development environment falls back to the
    default image while a top-level core is set. *)
Lemma named_volumes_follow_top_level_core_witness :
  head <$> (volumes
              <$> service
                    (buildDockerComposeConfig Examples.join
                       Examples.core_entries "/lib"
                       Examples.overridden_core_config)
                    "wordpress")
  = Some (Some "wordpress:/var/www/html")
  /\ named_volumes
       (buildDockerComposeConfig Examples.join Examples.core_entries "/lib"
          Examples.overridden_core_config)
     = ["mysql"; "phpunit-uploads"].
Proof.
  split; [|reflexivity].
  destruct (named_volumes_follow_top_level_core Examples.join
              Examples.core_entries "/lib")
    as (_ & _ & _ & _ & _ & Hoverride & _).
  by apply (Hoverride Examples.overridden_core_config Examples.gutenberg).
Defined.

(** Counterexample to C10 as stated: without the top-level key the field
    is not [null], and the volumes are declared. *)
Lemma named_volumes_declared_without_key : ~ Stated.named_volumes_iff_null.
Proof.
  intros H.
  destruct (H Examples.join Examples.core_entries "/lib"
              (Samples.without_core_key Examples.plugin_config))
    as [Hwordpress _].
  assert (@Undefined WPSource = Null) as Heq; [|discriminate Heq].
  apply Hwordpress. by left.
Qed.

(** Witness of C3: the configuration with a local core for both
    environments. The tests service takes [index.php], [wp-admin] and
    [wp-includes] from the core and the rest from the tests copy. *)
Lemma shared_local_core_mounts_witness :
  exists testsMounts,
    volumes
      <$> service
            (buildDockerComposeConfig Examples.join Examples.core_entries
               "/lib" Examples.local_core_config)
            "tests-wordpress"
    = Some testsMounts
    /\ testsMounts
       = ["/work/tests-wordpress:/var/www/html";
          "/home/dev/wordpress/index.php:/var/www/html/index.php";
          "/home/dev/wordpress/wp-admin:/var/www/html/wp-admin";
          "/home/dev/wordpress/wp-includes:/var/www/html/wp-includes";
          "/home/dev/plugin:/var/www/html/wp-content/plugins/plugin"]
    /\ ("/home/dev/wordpress:/var/www/html" ∉ testsMounts).
Proof.
  destruct (shared_local_core_mounts Examples.join Examples.core_entries
              "/lib" Examples.local_core_config
              Examples.local_core Examples.local_core)
    as (testsMounts & Hvolumes & Hlist & _ & Hnot);
    [reflexivity..|].
  exists testsMounts. split; [exact Hvolumes|]. split; [exact Hlist|].
  apply Hnot.
  - discriminate.
  - intros filename Hin.
    repeat (apply elem_of_cons in Hin as [-> | Hin]; [reflexivity|]).
    by apply elem_of_nil in Hin.
  - intros wpDir source Hin. by apply elem_of_nil in Hin.
  - intros source Hin.
    repeat (apply elem_of_cons in Hin as [-> | Hin]; [reflexivity|]).
    by apply elem_of_nil in Hin.
Defined.

(** Counterexample to C3 as stated: a local core whose [testsPath] is
    its [path]. The mount that replaces the core mount is the development
    core mount. *)
Lemma shared_core_tests_copy_in_place : ~ Stated.shared_local_core_replaced.
Proof.
  intros H.
  destruct (H Examples.join Examples.core_entries "/lib"
              Samples.core_in_place_config
              Samples.core_in_place Samples.core_in_place)
    as (testsMounts & _ & Hlist & Hnot); [reflexivity..|].
  apply Hnot. rewrite Hlist. by left.
Qed.

End ComposeFacts.

(** ** The start sequence *)
Module StartFacts.
Import Start.

Section Sequence.

Variable md5 : WPConfig -> string.
Variable default_delay : N.
Variable w : World.

(** *** States and traces *)

Lemma after_nil (s : State) : after s [] = s.
Proof. destruct s. unfold after; simpl. by rewrite app_nil_r. Qed.

Lemma after_after (s : State) (l1 l2 : list Event) :
  after (after s l1) l2 = after s (l1 ++ l2).
Proof. unfold after; simpl. by rewrite app_assoc. Qed.

Lemma emit_after (e : Event) (s : State) : emit e s = after s [e].
Proof. reflexivity. Qed.

Lemma occurrences_app (e : Event) (l1 l2 : list Event) :
  occurrences e (l1 ++ l2) = occurrences e l1 + occurrences e l2.
Proof. unfold occurrences. by rewrite List.filter_app, length_app. Qed.

Lemma occurrences_cons (e x : Event) (l : list Event) :
  occurrences e (x :: l) = occurrences e [x] + occurrences e l.
Proof. apply (occurrences_app e [x] l). Qed.

Lemma occurrences_absent (e : Event) (l : list Event) :
  Forall (fun x => x <> e) l -> occurrences e l = 0.
Proof.
  unfold occurrences. induction 1 as [|x l Hx _ IH]; [done|].
  simpl. by rewrite bool_decide_eq_false_2.
Qed.

Lemma occurrences_one (e : Event) : occurrences e [e] = 1.
Proof. unfold occurrences; simpl. by rewrite bool_decide_eq_true_2. Qed.

(** Events before the database check are no attempts at it or at the
    configuration. *)
Lemma occurrences_before_database (e : Event) (l : list Event) :
  before_database e = false ->
  Forall (fun x => before_database x = true) l ->
  occurrences e l = 0.
Proof.
  intros He Hl. apply occurrences_absent.
  eapply Forall_impl; [exact Hl|]. intros x Hx ->. congruence.
Qed.

Lemma reading_before_database (config : WPConfig) :
  Forall (fun x => before_database x = true) (reading config).
Proof.
  unfold reading. destruct (detectedLocalConfig config);
    repeat constructor.
Qed.

(** *** [retry] *)

(** The attempt that is answered well ends the retries: [k] attempts
    fail, each followed by a wait, and the next one resolves. *)
Lemma retry_from_resolves (e : Event) (ok : nat -> bool) (delay : N)
  (k more : nat) (s : State) :
  e <> RetryDelay delay ->
  k <= more ->
  (forall j, j < k -> ok (occurrences e (trace s) + j) = false) ->
  ok (occurrences e (trace s) + k) = true ->
  retry_from (attempt e ok) delay more s
  = (Resolved tt, after s (attempts e delay k)).
Proof.
  intros He. revert more s.
  induction k as [|k IH]; intros more s Hk Hfail Hok.
  - rewrite Nat.add_0_r in Hok.
    destruct more; simpl; unfold attempt, call; by rewrite Hok.
  - destruct more as [|more]; [lia|].
    cbn [retry_from]. unfold attempt at 1, call.
    rewrite <- (Nat.add_0_r (occurrences e (trace s))) at 1.
    rewrite Hfail by lia.
    rewrite !emit_after, after_after, IH; [|lia|..].
    + rewrite after_after. reflexivity.
    + intros j Hj. cbn [after trace].
      rewrite occurrences_app, (occurrences_app e [e]), occurrences_one.
      rewrite (occurrences_absent e [RetryDelay delay])
        by (constructor; [congruence|constructor]).
      replace (occurrences e (trace s) + (1 + 0) + j)
        with (occurrences e (trace s) + S j) by lia.
      apply Hfail. lia.
    + cbn [after trace].
      rewrite occurrences_app, (occurrences_app e [e]), occurrences_one.
      rewrite (occurrences_absent e [RetryDelay delay])
        by (constructor; [congruence|constructor]).
      replace (occurrences e (trace s) + (1 + 0) + k)
        with (occurrences e (trace s) + S k) by lia.
      exact Hok.
Qed.

(** When every attempt fails the last error is thrown, with no wait
    after the last attempt. *)
Lemma retry_from_rejects (e : Event) (ok : nat -> bool) (delay : N)
  (more : nat) (s : State) :
  e <> RetryDelay delay ->
  (forall j, j <= more -> ok (occurrences e (trace s) + j) = false) ->
  retry_from (attempt e ok) delay more s
  = (Rejected "rejected", after s (attempts e delay more)).
Proof.
  intros He. revert s.
  induction more as [|more IH]; intros s Hfail.
  - simpl. unfold attempt, call.
    rewrite <- (Nat.add_0_r (occurrences e (trace s))).
    by rewrite Hfail.
  - cbn [retry_from]. unfold attempt at 1, call.
    rewrite <- (Nat.add_0_r (occurrences e (trace s))) at 1.
    rewrite Hfail by lia.
    rewrite !emit_after, after_after, IH.
    + rewrite after_after. reflexivity.
    + intros j Hj. cbn [after trace].
      rewrite occurrences_app, (occurrences_app e [e]), occurrences_one.
      rewrite (occurrences_absent e [RetryDelay delay])
        by (constructor; [congruence|constructor]).
      replace (occurrences e (trace s) + (1 + 0) + j)
        with (occurrences e (trace s) + S j) by lia.
      apply Hfail. lia.
Qed.

(** Whatever the answers, [retry] only adds attempts and waits. *)
Lemma retry_from_adds (e : Event) (ok : nat -> bool) (delay : N)
  (more : nat) (s : State) :
  exists events,
    (retry_from (attempt e ok) delay more s).2 = after s events
    /\ Forall (fun x => x = e \/ x = RetryDelay delay) events.
Proof.
  revert s. induction more as [|more IH]; intros s.
  - exists [e]. simpl. unfold attempt, call.
    split; [by destruct (ok _)|by repeat constructor].
  - cbn [retry_from]. unfold attempt at 1, call.
    destruct (ok _).
    + exists [e]. split; [done|by repeat constructor].
    + destruct (IH (emit (RetryDelay delay) (emit e s)))
        as (events & Hevents & Hall).
      exists ([e; RetryDelay delay] ++ events).
      rewrite Hevents, !emit_after, !after_after.
      split; [done|]. apply Forall_app. split; [|done].
      by repeat constructor.
Qed.

Lemma attempts_events (e : Event) (delay : N) (k : nat) :
  Forall (fun x => x = e \/ x = RetryDelay delay) (attempts e delay k).
Proof.
  unfold attempts. apply Forall_app. split; [|by repeat constructor].
  induction k as [|k IH]; [constructor|].
  cbn [replicate concat app]. by repeat constructor.
Qed.

(** [k] failed attempts and one more are [k + 1] attempts. *)
Lemma occurrences_attempts (e : Event) (delay : N) (k : nat) :
  e <> RetryDelay delay ->
  occurrences e (attempts e delay k) = S k.
Proof.
  intros He. unfold attempts. rewrite occurrences_app, occurrences_one.
  induction k as [|k IH]; [reflexivity|].
  cbn [replicate concat]. rewrite occurrences_app.
  rewrite (occurrences_cons e e), occurrences_one.
  rewrite (occurrences_absent e [RetryDelay delay]);
    [lia|by apply Forall_singleton].
Qed.

(** *** The configuration phase *)

Lemma database_phase_at_once (s : State) :
  occurrences CheckDatabaseConnection (trace s) = 0 ->
  checkDatabaseConnection_ok w 0 = true ->
  database_phase default_delay w s
  = (Resolved tt, after s [CheckDatabaseConnection]).
Proof.
  intros Hs Hok.
  unfold database_phase, try_catch, checkDatabaseConnection, attempt, call.
  by rewrite Hs, Hok.
Qed.

Lemma database_phase_connects (k : nat) (s : State) :
  occurrences CheckDatabaseConnection (trace s) = 0 ->
  checkDatabaseConnection_ok w 0 = false ->
  k < 30 ->
  (forall j, j < k -> checkDatabaseConnection_ok w (S j) = false) ->
  checkDatabaseConnection_ok w (S k) = true ->
  database_phase default_delay w s
  = (Resolved tt,
     after s (CheckDatabaseConnection
                :: attempts CheckDatabaseConnection 1000 k
                ++ [Sleep 4000])).
Proof.
  intros Hs Hfirst Hk Hfail Hok.
  unfold database_phase, try_catch, checkDatabaseConnection.
  unfold attempt at 1, call. rewrite Hs, Hfirst.
  unfold bind, retry. cbn [default Nat.pred].
  rewrite (retry_from_resolves _ _ _ k); [| done | lia | |].
  - unfold sleep. by rewrite !emit_after, !after_after.
  - intros j Hj. cbn [emit trace].
    rewrite occurrences_app, Hs, occurrences_one. by apply Hfail.
  - cbn [emit trace]. by rewrite occurrences_app, Hs, occurrences_one.
Qed.

Lemma database_phase_gives_up (s : State) :
  occurrences CheckDatabaseConnection (trace s) = 0 ->
  (forall j, j <= 30 -> checkDatabaseConnection_ok w j = false) ->
  database_phase default_delay w s
  = (Rejected "rejected",
     after s (CheckDatabaseConnection
                :: attempts CheckDatabaseConnection 1000 29)).
Proof.
  intros Hs Hfail.
  unfold database_phase, try_catch, checkDatabaseConnection.
  unfold attempt at 1, call. rewrite Hs, Hfail by lia.
  unfold bind, retry. cbn [default Nat.pred].
  rewrite retry_from_rejects; [| done |].
  - by rewrite !emit_after, !after_after.
  - intros j Hj. cbn [emit trace].
    rewrite occurrences_app, Hs, occurrences_one. apply Hfail. lia.
Qed.

Lemma database_phase_adds (s : State) :
  exists events,
    (database_phase default_delay w s).2 = after s events
    /\ Forall database_event events.
Proof.
  unfold database_phase, try_catch, checkDatabaseConnection, database_event.
  unfold attempt at 1, call.
  destruct (checkDatabaseConnection_ok w _).
  - exists [CheckDatabaseConnection].
    split; [done|]. apply Forall_singleton. by left.
  - unfold bind, retry. cbn [default Nat.pred].
    destruct (retry_from_adds CheckDatabaseConnection
                (checkDatabaseConnection_ok w) 1000 29
                (emit CheckDatabaseConnection s))
      as (events & Hevents & Hall).
    destruct (retry_from _ _ _ _) as [[[]|err] s'] eqn:Hretry;
      cbn [snd] in Hevents; subst s'.
    + exists ([CheckDatabaseConnection] ++ events ++ [Sleep 4000]).
      unfold sleep. rewrite !emit_after, !after_after.
      split; [done|]. repeat (apply Forall_app; split).
      * apply Forall_singleton. by left.
      * eapply Forall_impl; [exact Hall|].
        intros x [-> | ->]; [by left|right; by left].
      * apply Forall_singleton. right; by right.
    + exists ([CheckDatabaseConnection] ++ events).
      rewrite !emit_after, !after_after.
      split; [done|]. apply Forall_app; split.
      * apply Forall_singleton. by left.
      * eapply Forall_impl; [exact Hall|].
        intros x [-> | ->]; [by left|right; by left].
Qed.

(** [retry] with [times: 2]: a second attempt after a failed first one,
    and no third. *)
Lemma retry_twice (environment : string) (ok : nat -> bool) (s : State) :
  occurrences (ConfigureWordPress environment) (trace s) = 0 ->
  retry default_delay (attempt (ConfigureWordPress environment) ok) 2 None s
  = (if configured ok then Resolved tt else Rejected "rejected",
     after s (configuring ok default_delay environment)).
Proof.
  intros Hs. unfold retry, configured, configuring.
  cbn [default Nat.pred].
  destruct (ok 0) eqn:H0; [|destruct (ok 1) eqn:H1]; cbn [orb].
  - rewrite (retry_from_resolves _ _ _ 0); [done|done|lia| |].
    + intros j Hj. lia.
    + by rewrite Hs.
  - rewrite (retry_from_resolves _ _ _ 1); [done|done|lia| |].
    + intros j Hj. assert (j = 0) as -> by lia. by rewrite Hs.
    + by rewrite Hs.
  - rewrite retry_from_rejects; [done|done|].
    intros j Hj. rewrite Hs.
    destruct j as [|[|j]]; [done|done|lia].
Qed.

(** An attempt after the events [l], by the number of earlier attempts
    among them. *)
Lemma attempt_after (e : Event) (ok : nat -> bool) (s : State)
  (l : list Event) (n : nat) :
  occurrences e (trace s) = 0 ->
  occurrences e l = n ->
  attempt e ok (after s l)
  = (if ok n then Resolved tt else Rejected "rejected", after s (l ++ [e])).
Proof.
  intros Hs Hl. unfold attempt, call. cbn [after trace].
  rewrite occurrences_app, Hs, Hl. cbn [Nat.add].
  by rewrite emit_after, after_after.
Qed.

(** A first attempt and what [retry_rest] leaves after it, made by one
    task on its own, are [retry] with [times: 2]. *)
Lemma retry_rest_alone (action : Async State unit) (s : State) :
  match action s with
  | (first, s1) => run_steps (retry_rest default_delay action first) first s1
  end
  = retry default_delay action 2 None s.
Proof.
  unfold retry. cbn [default Nat.pred retry_from].
  destruct (action s) as [[[]|e] s1]; cbn [retry_rest run_steps]; [done|].
  by destruct (action (emit (RetryDelay default_delay) s1)) as [[[]|e'] s2].
Qed.

(** The configuration of both environments: each gets its one or two
    attempts, whatever the other's come to; the first attempts are made
    before anything else, and the phase resolves when both environments
    were configured. *)
Lemma configuration_phase_runs (s : State) :
  occurrences (ConfigureWordPress "development") (trace s) = 0 ->
  occurrences (ConfigureWordPress "tests") (trace s) = 0 ->
  configuration_phase default_delay w s
  = (if configured (configureWordPress_ok w "development")
        && configured (configureWordPress_ok w "tests")
     then Resolved (tt, tt) else Rejected "rejected",
     after s (configuration_events w default_delay)).
Proof.
  intros Hdev Htests.
  unfold configuration_phase, configuration_events, configureWordPress,
    configured, retried.
  rewrite <- (after_nil s) at 1.
  rewrite (attempt_after _ _ s [] 0) by done. cbn [app].
  rewrite (attempt_after _ _ s _ 0) by done. cbn [app].
  destruct (configureWordPress_ok w "development" 0),
    (configureWordPress_ok w "tests" 0),
    (configureWordPress_ok w "development" 1) eqn:Hd,
    (configureWordPress_ok w "tests" 1) eqn:Ht;
    cbn [retry_rest orb andb];
    destruct (configuration_order w) as [|[] [|[] [|[] [|[] later]]]];
    cbn [interleaved run_steps interleave app];
    rewrite ?emit_after, ?after_after; cbn [app];
    repeat (rewrite (attempt_after _ _ s _ 1) by done;
            rewrite ?Hd, ?Ht; cbn [app interleaved run_steps];
            rewrite ?emit_after, ?after_after; cbn [app]);
    reflexivity.
Qed.

Lemma writable_phase_runs (config : WPConfig) (s : State) :
  writable_phase w config s
  = (if writable_resolves w config then Resolved tt
     else Rejected "rejected",
     after s (writable config)).
Proof.
  unfold writable_phase, writable_resolves, writable, Promise_all2, bind,
    ret, makeContentDirectoriesWritable, call.
  destruct (topCoreSource config).
  - by rewrite after_nil.
  - rewrite !emit_after, after_after.
    by destruct (makeContentDirectoriesWritable_ok w "development"),
         (makeContentDirectoriesWritable_ok w "tests").
  - by rewrite after_nil.
Qed.

Lemma database_event_after (e : Event) :
  database_event e ->
  before_database e = false /\ forall environment,
    e <> ConfigureWordPress environment.
Proof. by intros [-> | [-> | ->]]. Qed.

(** [configure], phase by phase. *)
Lemma configure_steps (config : WPConfig) (configHash : string)
  (s : State) :
  Forall (fun x => before_database x = true) (trace s) ->
  configure default_delay w config configHash s
  = if writable_resolves w config
    then
      match database_phase default_delay w (configuring_state config s) with
      | (Resolved _, s2) =>
          if configured (configureWordPress_ok w "development")
             && configured (configureWordPress_ok w "tests")
          then
            (Resolved tt,
             {| trace :=
                  trace s2
                    ++ configuration_events w default_delay
                    ++ [SetCache (workDirectoryPath config)
                                 CONFIG_CACHE_KEY configHash];
                cache := <[(workDirectoryPath config, CONFIG_CACHE_KEY)
                           := configHash]> (cache s2);
                spinner_text := spinner_text s2 |})
          else
            (Rejected "rejected",
             after s2
               (configuration_events w default_delay))
      | (Rejected e, s2) => (Rejected e, s2)
      end
    else (Rejected "rejected", configuring_state config s).
Proof.
  intros Hs.
  unfold configure, bind, set_text. rewrite writable_phase_runs.
  fold (configuring_state config s).
  destruct (writable_resolves w config); [|done].
  destruct (database_phase_adds (configuring_state config s))
    as (events & Hevents & Hall).
  destruct (database_phase default_delay w (configuring_state config s))
    as [[[]|e] s2]; [|done].
  cbn [snd] in Hevents. subst s2.
  assert (forall environment,
            occurrences (ConfigureWordPress environment)
              (trace (after (configuring_state config s) events)) = 0)
    as Hnone.
  { intros environment. cbn [after configuring_state trace].
    rewrite !occurrences_app.
    rewrite (occurrences_before_database _ (trace s)) by done.
    rewrite (occurrences_before_database _ (writable config));
      [|done|unfold writable; destruct (topCoreSource config);
             repeat constructor].
    rewrite occurrences_absent; [done|].
    eapply Forall_impl; [exact Hall|].
    intros x Hx. by apply database_event_after. }
  rewrite configuration_phase_runs by apply Hnone.
  destruct (configured (configureWordPress_ok w "development")
            && configured (configureWordPress_ok w "tests")); [|done].
  unfold setCache. cbn [after trace cache spinner_text].
  by rewrite <- (app_assoc (trace _ ++ events)).
Qed.

(** *** The steps of [start] *)

(** [start] once the configuration is read. *)
Lemma start_reads (update : bool) (config : WPConfig)
  (c : gmap (string * string) string) :
  checkForLegacyInstall_ok w = true ->
  initConfig_result w = Resolved config ->
  run md5 default_delay w update c
  = startWith md5 default_delay w update config
      {| trace := reading config; cache := c;
         spinner_text := "Reading configuration." |}.
Proof.
  intros Hlegacy Hinit.
  unfold run, start, checkForLegacyInstall, initConfig, call, set_text,
    emit, bind, ret, initial_state, reading.
  cbn [trace cache spinner_text]. rewrite Hlegacy, Hinit.
  by destruct (detectedLocalConfig config).
Qed.

(** [startWith] when nothing is to be configured. *)
Lemma startWith_unchanged (config : WPConfig) (s : State) :
  cache s !! (workDirectoryPath config, CONFIG_CACHE_KEY)
    = Some (md5 config) ->
  startWith md5 default_delay w false config s
  = if upOne_ok w "mysql"
    then if upMany_ok w ["wordpress"; "tests-wordpress"]
         then (Resolved tt,
               {| trace := trace s ++ [UpOne "mysql";
                                       UpMany ["wordpress"; "tests-wordpress"]];
                  cache := cache s;
                  spinner_text := "WordPress started." |})
         else (Rejected "rejected",
               {| trace := trace s ++ [UpOne "mysql";
                                       UpMany ["wordpress"; "tests-wordpress"]];
                  cache := cache s;
                  spinner_text := "Starting WordPress." |})
    else (Rejected "rejected", after s [UpOne "mysql"]).
Proof.
  intros Hcache.
  unfold startWith, didCacheChange, upOne, upMany, call, set_text, emit,
    bind, ret, Promise_all2, after.
  rewrite bool_decide_eq_true_2 by done. cbn.
  destruct (upOne_ok w "mysql"); [|done].
  rewrite <- app_assoc.
  by destruct (upMany_ok w ["wordpress"; "tests-wordpress"]).
Qed.

(** [startWith] when the configuration is to be applied and the
    services come up: [configure] runs after the events of
    [provisioned]. *)
Lemma startWith_provisions (update : bool) (config : WPConfig) (s : State) :
  shouldConfigureWp md5 update config (cache s) = true ->
  provisions w = true ->
  startWith md5 default_delay w update config s
  = bind (configure default_delay w config (md5 config))
         (fun _ => set_text "WordPress started.")
         {| trace := trace s ++ provisioned config; cache := cache s;
            spinner_text := "Starting WordPress." |}.
Proof.
  unfold shouldConfigureWp, provisions. intros Hshould Hok.
  apply andb_true_iff in Hok as [Hok Hmany].
  apply andb_true_iff in Hok as [Hok Hsetup].
  apply andb_true_iff in Hok as [Hok Hdownload].
  apply andb_true_iff in Hok as [Hstop Hone].
  unfold startWith, didCacheChange, stop, upOne, upMany, downloadSources,
    setupWordPressDirectories, call, Promise_all2.
  unfold bind at 1 2 3 4 5 6 7 8, ret, set_text, emit.
  destruct update; cbn [orb] in Hshould; cbn [trace cache spinner_text];
    rewrite ?Hshould, Hstop, Hone, Hdownload, Hsetup, Hmany;
    cbn [trace cache spinner_text];
    unfold provisioned; by rewrite <- !app_assoc.
Qed.

(** [startWith] when the configuration is to be applied and a call
    before [configure] rejects: [start] rejects there, with the cache as
    it was. *)
Lemma startWith_stopped (update : bool) (config : WPConfig) (s : State) :
  shouldConfigureWp md5 update config (cache s) = true ->
  provisions w = false ->
  exists events text e,
    startWith md5 default_delay w update config s
    = (Rejected e,
       {| trace := trace s ++ Stop :: events; cache := cache s;
          spinner_text := text |})
    /\ Forall (fun x => before_database x = true) events.
Proof.
  unfold shouldConfigureWp, provisions. intros Hshould Hok.
  unfold startWith, didCacheChange, stop, upOne, upMany, downloadSources,
    setupWordPressDirectories, call, Promise_all2.
  unfold bind at 1 2 3 4 5 6 7 8, ret, set_text, emit.
  destruct update; cbn [orb] in Hshould; cbn [trace cache spinner_text];
    rewrite ?Hshould;
    destruct (stop_ok w), (upOne_ok w "mysql"), (downloadSources_ok w),
      (setupWordPressDirectories_ok w),
      (upMany_ok w ["wordpress"; "tests-wordpress"]);
    try discriminate Hok; cbn [trace cache spinner_text];
    rewrite <- ?app_assoc; do 3 eexists;
    (split; [reflexivity|repeat constructor]).
Qed.

Lemma reading_not_provisioning (config : WPConfig) :
  Forall (fun e => provisioning e = false) (reading config).
Proof.
  unfold reading. destruct (detectedLocalConfig config);
    repeat constructor.
Qed.

(** C1. When [start] is called without [update] and the checksum of the
    resolved configuration is the one cached under the work directory,
    no call of [downloadSources], [setupWordPressDirectories] or
    [configureWordPress] is made and the cache is left as it is; the
    [mysql] service is brought up, and when the two docker-compose calls
    resolve, [wordpress] and [tests-wordpress] are brought up after it,
    nothing else is done, and [start] resolves with the spinner at
    [WordPress started.]. *)
Theorem unchanged_configuration_skips_provisioning
  (config : WPConfig) (c : gmap (string * string) string) :
  checkForLegacyInstall_ok w = true ->
  initConfig_result w = Resolved config ->
  c !! (workDirectoryPath config, CONFIG_CACHE_KEY) = Some (md5 config) ->
  Forall (fun e => provisioning e = false)
         (trace (run md5 default_delay w false c).2)
  /\ UpOne "mysql" ∈ trace (run md5 default_delay w false c).2
  /\ cache (run md5 default_delay w false c).2 = c
  /\ (upOne_ok w "mysql" = true ->
      upMany_ok w ["wordpress"; "tests-wordpress"] = true ->
      run md5 default_delay w false c
      = (Resolved tt,
         {| trace := reading config
                       ++ [UpOne "mysql";
                           UpMany ["wordpress"; "tests-wordpress"]];
            cache := c;
            spinner_text := "WordPress started." |})).
Proof.
  intros Hlegacy Hinit Hcache.
  rewrite (start_reads false config c) by done.
  rewrite startWith_unchanged by done.
  pose proof (reading_not_provisioning config) as Hreading.
  destruct (upOne_ok w "mysql"), (upMany_ok w ["wordpress"; "tests-wordpress"]);
    cbn [fst snd trace cache after];
    (split; [apply Forall_app; split; [done|repeat constructor]|]);
    (split; [apply elem_of_app; right; by left|]);
    (split; [done|]); try done; by intros [=].
Qed.

Lemma interleave_Forall (P : Event -> Prop) (schedule : list bool)
  (a b : list Event) :
  Forall P a -> Forall P b -> Forall P (interleave schedule a b).
Proof.
  revert a b. induction schedule as [|first later IH]; intros a b Ha Hb.
  - by apply Forall_app.
  - destruct a as [|x a], b as [|y b]; cbn [interleave]; [done..|].
    apply Forall_cons in Ha as [Hx Ha]. apply Forall_cons in Hb as [Hy Hb].
    destruct first; apply Forall_cons; (split; [done|]); apply IH;
      try done; by apply Forall_cons.
Qed.

(** The events of the configuration come after the database phase,
    none of them writes the cache, and both environments are attempted. *)
Lemma configuration_events_after_database :
  Forall (fun e => before_database e = false /\ is_SetCache e = false)
         (configuration_events w default_delay)
  /\ ConfigureWordPress "development" ∈ configuration_events w default_delay
  /\ ConfigureWordPress "tests" ∈ configuration_events w default_delay.
Proof.
  unfold configuration_events. split; [|split; [by left|right; by left]].
  apply Forall_app. split; [by repeat constructor|].
  apply interleave_Forall; unfold retried;
    destruct (configureWordPress_ok w _ 0); by repeat constructor.
Qed.

Lemma provisioned_before_database (config : WPConfig) :
  Forall (fun x => before_database x = true) (provisioned config).
Proof. repeat constructor. Qed.

Lemma writable_before_database (config : WPConfig) :
  Forall (fun x => before_database x = true) (writable config).
Proof. unfold writable. destruct (topCoreSource config); repeat constructor. Qed.

(** A run that applies the configuration, up to the database phase. *)
Lemma run_provisions (update : bool) (config : WPConfig)
  (c : gmap (string * string) string) :
  checkForLegacyInstall_ok w = true ->
  initConfig_result w = Resolved config ->
  shouldConfigureWp md5 update config c = true ->
  provisions w = true ->
  run md5 default_delay w update c
  = bind (configure default_delay w config (md5 config))
         (fun _ => set_text "WordPress started.")
         {| trace := reading config ++ provisioned config; cache := c;
            spinner_text := "Starting WordPress." |}.
Proof.
  intros Hlegacy Hinit Hshould Hok.
  rewrite (start_reads update config c) by done.
  by rewrite startWith_provisions.
Qed.

Lemma occurrences_database_start (config : WPConfig) (e : Event)
  (c : gmap (string * string) string) (text : string) :
  before_database e = false ->
  occurrences e
    (trace (configuring_state config
              {| trace := reading config ++ provisioned config;
                 cache := c; spinner_text := text |})) = 0.
Proof.
  intros He. cbn [configuring_state after trace].
  apply occurrences_before_database; [done|].
  apply Forall_app. split; [apply Forall_app; split|].
  - apply reading_before_database.
  - apply provisioned_before_database.
  - apply writable_before_database.
Qed.

Lemma occurrences_interleave (e : Event) (schedule : list bool)
  (a b : list Event) :
  occurrences e (interleave schedule a b)
  = occurrences e a + occurrences e b.
Proof.
  revert a b. induction schedule as [|first later IH]; intros a b.
  - apply occurrences_app.
  - destruct a as [|x a], b as [|y b]; cbn [interleave];
      [done|done|change (occurrences e []) with 0; lia|].
    destruct first.
    + rewrite occurrences_cons, IH, (occurrences_cons e x a). lia.
    + rewrite occurrences_cons, IH, (occurrences_cons e y b). lia.
Qed.

(** Each environment is attempted once, and once more when its first
    attempt fails, in whatever order the two go on. *)
Lemma occurrences_configuration_events :
  occurrences (ConfigureWordPress "development")
    (configuration_events w default_delay)
  = (if configureWordPress_ok w "development" 0 then 1 else 2)
  /\ occurrences (ConfigureWordPress "tests")
       (configuration_events w default_delay)
     = (if configureWordPress_ok w "tests" 0 then 1 else 2)
  /\ occurrences (Sleep 4000) (configuration_events w default_delay) = 0
  /\ occurrences CheckDatabaseConnection
       (configuration_events w default_delay) = 0.
Proof.
  unfold configuration_events, retried.
  rewrite !occurrences_app, !occurrences_interleave.
  by destruct (configureWordPress_ok w "development" 0),
    (configureWordPress_ok w "tests" 0).
Qed.

(** C6. In a run that applies the configuration and gets as far as the
    database, when the first connection check fails: if the check
    numbered [k + 1] of the retries is the first to succeed, with
    [k < 30], the check was retried [k + 1] times, with a wait of 1000 ms
    between two retries, and one wait of 4000 ms follows. Then both
    environments are configured side by side: the first attempt at
    [configureWordPress] for development and the first for tests are made
    one after the other, before the wait or the second attempt of either;
    an environment whose first attempt failed waits and makes a second
    attempt, whatever becomes of the other, and the two go on in the
    order the outside gives. So each environment is attempted once or
    twice, and the run resolves when both were configured. If all 30
    retries of the check fail there are no more checks, and the run
    rejects. *)
Theorem database_retried_then_both_configured
  (update : bool) (config : WPConfig) (c : gmap (string * string) string) :
  checkForLegacyInstall_ok w = true ->
  initConfig_result w = Resolved config ->
  shouldConfigureWp md5 update config c = true ->
  provisions w = true ->
  writable_resolves w config = true ->
  checkDatabaseConnection_ok w 0 = false ->
  (forall k,
     k < 30 ->
     (forall j, j < k -> checkDatabaseConnection_ok w (S j) = false) ->
     checkDatabaseConnection_ok w (S k) = true ->
     trace (run md5 default_delay w update c).2
     = reading config ++ provisioned config ++ writable config
         ++ CheckDatabaseConnection
              :: attempts CheckDatabaseConnection 1000 k
         ++ [Sleep 4000]
         ++ ConfigureWordPress "development"
              :: ConfigureWordPress "tests"
              :: interleave (configuration_order w)
                   (retried (configureWordPress_ok w "development")
                      default_delay "development")
                   (retried (configureWordPress_ok w "tests")
                      default_delay "tests")
         ++ (if configured (configureWordPress_ok w "development")
                && configured (configureWordPress_ok w "tests")
             then [SetCache (workDirectoryPath config) CONFIG_CACHE_KEY
                            (md5 config)]
             else [])
     /\ occurrences CheckDatabaseConnection
          (trace (run md5 default_delay w update c).2) = S (S k)
     /\ occurrences (Sleep 4000) (trace (run md5 default_delay w update c).2)
        = 1
     /\ occurrences (ConfigureWordPress "development")
          (trace (run md5 default_delay w update c).2)
        = (if configureWordPress_ok w "development" 0 then 1 else 2)
     /\ occurrences (ConfigureWordPress "tests")
          (trace (run md5 default_delay w update c).2)
        = (if configureWordPress_ok w "tests" 0 then 1 else 2)
     /\ ((run md5 default_delay w update c).1 = Resolved tt
         <-> configured (configureWordPress_ok w "development")
             && configured (configureWordPress_ok w "tests") = true))
  /\ ((forall j, j <= 30 -> checkDatabaseConnection_ok w j = false) ->
      trace (run md5 default_delay w update c).2
      = reading config ++ provisioned config ++ writable config
          ++ CheckDatabaseConnection
               :: attempts CheckDatabaseConnection 1000 29
      /\ (run md5 default_delay w update c).1 = Rejected "rejected").
Proof.
  intros Hlegacy Hinit Hshould Hok Hwritable Hfirst.
  rewrite (run_provisions update config c) by done.
  unfold bind. rewrite configure_steps, Hwritable; cycle 1.
  { cbn [trace]. apply Forall_app;
      auto using reading_before_database, provisioned_before_database. }
  split.
  - intros k Hk Hfail Hconnects.
    rewrite (database_phase_connects k);
      [|by apply occurrences_database_start|done..].
    destruct occurrences_configuration_events
      as (Hdevelopment & Htests & Hsleep & Hnone).
    assert (occurrences CheckDatabaseConnection
              (attempts CheckDatabaseConnection 1000 k) = S k) as Hchecks.
    { by apply occurrences_attempts. }
    assert (forall e, e <> CheckDatabaseConnection -> e <> RetryDelay 1000 ->
              occurrences e (attempts CheckDatabaseConnection 1000 k) = 0)
      as Hother.
    { intros e He He'. apply occurrences_absent.
      eapply Forall_impl; [apply attempts_events|].
      by intros x [-> | ->]. }
    assert (forall e written,
              Forall (fun x => is_SetCache x = true) written ->
              before_database e = false -> is_SetCache e = false ->
              occurrences e
                (reading config ++ provisioned config ++ writable config
                   ++ CheckDatabaseConnection
                        :: attempts CheckDatabaseConnection 1000 k
                   ++ [Sleep 4000]
                   ++ configuration_events w default_delay
                   ++ written)
              = occurrences e [CheckDatabaseConnection]
                + occurrences e (attempts CheckDatabaseConnection 1000 k)
                + occurrences e [Sleep 4000]
                + occurrences e (configuration_events w default_delay))
      as Hcount.
    { intros e written Hwritten He He'.
      rewrite !occurrences_app, occurrences_cons, !occurrences_app.
      rewrite (occurrences_before_database _ (reading config))
        by auto using reading_before_database.
      rewrite (occurrences_before_database _ (provisioned config))
        by auto using provisioned_before_database.
      rewrite (occurrences_before_database _ (writable config))
        by auto using writable_before_database.
      rewrite (occurrences_absent _ written); [lia|].
      eapply Forall_impl; [exact Hwritten|]. intros x Hx ->. congruence. }
    assert (forall written,
              Forall (fun x => is_SetCache x = true) written ->
              occurrences CheckDatabaseConnection
                (reading config ++ provisioned config ++ writable config
                   ++ CheckDatabaseConnection
                        :: attempts CheckDatabaseConnection 1000 k
                   ++ [Sleep 4000]
                   ++ configuration_events w default_delay
                   ++ written) = S (S k)
              /\ occurrences (Sleep 4000)
                   (reading config ++ provisioned config ++ writable config
                      ++ CheckDatabaseConnection
                           :: attempts CheckDatabaseConnection 1000 k
                      ++ [Sleep 4000]
                      ++ configuration_events w default_delay
                      ++ written) = 1
              /\ occurrences (ConfigureWordPress "development")
                   (reading config ++ provisioned config ++ writable config
                      ++ CheckDatabaseConnection
                           :: attempts CheckDatabaseConnection 1000 k
                      ++ [Sleep 4000]
                      ++ configuration_events w default_delay
                      ++ written)
                 = (if configureWordPress_ok w "development" 0
                    then 1 else 2)
              /\ occurrences (ConfigureWordPress "tests")
                   (reading config ++ provisioned config ++ writable config
                      ++ CheckDatabaseConnection
                           :: attempts CheckDatabaseConnection 1000 k
                      ++ [Sleep 4000]
                      ++ configuration_events w default_delay
                      ++ written)
                 = (if configureWordPress_ok w "tests" 0 then 1 else 2))
      as Hcounts.
    { intros written Hwritten. rewrite !Hcount by done.
      rewrite Hchecks, Hnone, Hsleep, Hdevelopment, Htests.
      rewrite !Hother by done.
      rewrite occurrences_one.
      rewrite !(occurrences_absent _ [_]) by (by apply Forall_singleton).
      rewrite occurrences_one. repeat split; lia. }
    destruct (configured (configureWordPress_ok w "development")
              && configured (configureWordPress_ok w "tests"));
      cbn [set_text fst snd after configuring_state trace].
    + assert ((((reading config ++ provisioned config) ++ writable config)
                ++ CheckDatabaseConnection
                     :: attempts CheckDatabaseConnection 1000 k
                ++ [Sleep 4000])
                ++ configuration_events w default_delay
                ++ [SetCache (workDirectoryPath config) CONFIG_CACHE_KEY
                             (md5 config)]
              = reading config ++ provisioned config ++ writable config
                  ++ CheckDatabaseConnection
                       :: attempts CheckDatabaseConnection 1000 k
                  ++ [Sleep 4000]
                  ++ configuration_events w default_delay
                  ++ [SetCache (workDirectoryPath config) CONFIG_CACHE_KEY
                               (md5 config)]) as Htrace
        by (rewrite <- !app_assoc; cbn [app]; by rewrite <- !app_assoc).
      rewrite Htrace. split; [reflexivity|].
      destruct (Hcounts [SetCache (workDirectoryPath config)
                                  CONFIG_CACHE_KEY (md5 config)])
        as (? & ? & ? & ?); [by apply Forall_singleton|].
      done.
    + assert ((((reading config ++ provisioned config) ++ writable config)
                ++ CheckDatabaseConnection
                     :: attempts CheckDatabaseConnection 1000 k
                ++ [Sleep 4000])
                ++ configuration_events w default_delay
              = reading config ++ provisioned config ++ writable config
                  ++ CheckDatabaseConnection
                       :: attempts CheckDatabaseConnection 1000 k
                  ++ [Sleep 4000]
                  ++ configuration_events w default_delay ++ []) as Htrace
        by (rewrite app_nil_r, <- !app_assoc; cbn [app];
            by rewrite <- !app_assoc).
      rewrite Htrace. split; [reflexivity|].
      destruct (Hcounts []) as (? & ? & ? & ?); [constructor|].
      do 4 (split; [done|]). by split; intros [=].
  - intros Hfail.
    rewrite database_phase_gives_up;
      [|by apply occurrences_database_start|done].
    cbn [fst snd after configuring_state trace].
    by rewrite <- ?app_assoc.
Qed.

(** How [configure] ends: it rejects with the cache as it was, or it
    resolves after both environments were configured, having written the
    cache last. *)
Lemma configure_outcome (config : WPConfig) (configHash : string)
  (s : State) :
  Forall (fun x => before_database x = true) (trace s) ->
  exists rest,
    Forall (fun e => before_database e = false /\ is_SetCache e = false) rest
    /\ (((exists e,
            (configure default_delay w config configHash s).1 = Rejected e)
         /\ trace (configure default_delay w config configHash s).2
            = trace s ++ writable config ++ rest
         /\ cache (configure default_delay w config configHash s).2
            = cache s)
        \/ ((configure default_delay w config configHash s).1 = Resolved tt
            /\ trace (configure default_delay w config configHash s).2
               = trace s ++ writable config ++ rest
                   ++ [SetCache (workDirectoryPath config) CONFIG_CACHE_KEY
                                configHash]
            /\ cache (configure default_delay w config configHash s).2
               = <[(workDirectoryPath config, CONFIG_CACHE_KEY)
                   := configHash]> (cache s)
            /\ configured (configureWordPress_ok w "development") = true
            /\ configured (configureWordPress_ok w "tests") = true
            /\ ConfigureWordPress "development" ∈ rest
            /\ ConfigureWordPress "tests" ∈ rest)).
Proof.
  intros Hs. rewrite configure_steps by done.
  destruct (writable_resolves w config).
  2:{ exists []. split; [constructor|]. left.
      cbn [fst snd configuring_state after trace cache].
      rewrite app_nil_r. eauto. }
  destruct (database_phase_adds (configuring_state config s))
    as (events & Hevents & Hall).
  assert (Forall (fun e => before_database e = false /\ is_SetCache e = false)
            events) as Hall'.
  { eapply Forall_impl; [exact Hall|]. by intros x [-> | [-> | ->]]. }
  destruct (database_phase default_delay w (configuring_state config s))
    as [[[]|e] s2]; cbn [snd] in Hevents; subst s2.
  2:{ exists events. split; [done|]. left.
      cbn [fst snd configuring_state after trace cache].
      rewrite <- app_assoc. eauto. }
  destruct configuration_events_after_database
    as (Hafter & Hdev_in & Htests_in).
  exists (events ++ configuration_events w default_delay).
  split; [by apply Forall_app|].
  destruct (configured (configureWordPress_ok w "development")) eqn:Hd,
    (configured (configureWordPress_ok w "tests")) eqn:Ht;
    cbn [andb fst snd configuring_state after trace cache];
    rewrite <- ?app_assoc;
    [right|left; eauto..].
  repeat split; try done.
  - apply elem_of_app. by right.
  - apply elem_of_app. by right.
Qed.

(** The events from reading the configuration to bringing the services
    up are no cache writes, no calls of [makeContentDirectoriesWritable]
    and no attempts at the configuration. *)
Lemma reading_provisioned_before_database (config : WPConfig) :
  Forall (fun x => before_database x = true)
         (reading config ++ provisioned config).
Proof.
  apply Forall_app. split;
    [apply reading_before_database|apply provisioned_before_database].
Qed.

(** A run that applies the configuration stops the services first. *)
Lemma run_stops (update : bool) (config : WPConfig)
  (c : gmap (string * string) string) :
  checkForLegacyInstall_ok w = true ->
  initConfig_result w = Resolved config ->
  shouldConfigureWp md5 update config c = true ->
  exists later,
    trace (run md5 default_delay w update c).2
    = reading config ++ Stop :: later.
Proof.
  intros Hlegacy Hinit Hshould.
  destruct (provisions w) eqn:Hok.
  - rewrite (run_provisions update config c) by done. unfold bind.
    destruct (configure_outcome config (md5 config)
                {| trace := reading config ++ provisioned config;
                   cache := c;
                   spinner_text := "Starting WordPress." |}
                (reading_provisioned_before_database config))
      as (rest & _ & [([e He] & Htrace & _) | (Hr & Htrace & _)]);
      destruct (configure _ _ _ _ _) as [[[]|e'] s2];
      cbn [fst snd] in *; try discriminate;
      cbn [set_text fst snd trace]; rewrite Htrace; cbn [trace];
      rewrite <- app_assoc; eauto.
  - rewrite (start_reads update config c) by done.
    destruct (startWith_stopped update config
                {| trace := reading config; cache := c;
                   spinner_text := "Reading configuration." |}
                Hshould Hok) as (events & text & e & -> & _).
    eauto.
Qed.

(** How a run ends: without a cache write and with the cache as it was,
    or resolved after both environments were configured, with the cache
    write as its last event. *)
Lemma run_outcome (update : bool) (config : WPConfig)
  (c : gmap (string * string) string) :
  checkForLegacyInstall_ok w = true ->
  initConfig_result w = Resolved config ->
  (Forall (fun e => is_SetCache e = false)
          (trace (run md5 default_delay w update c).2)
   /\ cache (run md5 default_delay w update c).2 = c)
  \/ ((run md5 default_delay w update c).1 = Resolved tt
      /\ configured (configureWordPress_ok w "development") = true
      /\ configured (configureWordPress_ok w "tests") = true
      /\ exists before,
           trace (run md5 default_delay w update c).2
           = before ++ [SetCache (workDirectoryPath config)
                                 CONFIG_CACHE_KEY (md5 config)]
           /\ Forall (fun e => is_SetCache e = false) before
           /\ ConfigureWordPress "development" ∈ before
           /\ ConfigureWordPress "tests" ∈ before).
Proof.
  intros Hlegacy Hinit.
  assert (Forall (fun e => is_SetCache e = false) (reading config))
    as Hreading.
  { unfold reading. destruct (detectedLocalConfig config);
      repeat constructor. }
  destruct (shouldConfigureWp md5 update config c) eqn:Hshould.
  2:{ left. unfold shouldConfigureWp in Hshould.
      apply orb_false_iff in Hshould as [-> Hhit].
      apply negb_false_iff, bool_decide_eq_true_1 in Hhit.
      rewrite (start_reads false config c) by done.
      rewrite startWith_unchanged by done.
      destruct (upOne_ok w "mysql"),
        (upMany_ok w ["wordpress"; "tests-wordpress"]);
        cbn [fst snd trace cache after];
        (split; [|done]); apply Forall_app; split; try done;
        repeat constructor. }
  destruct (provisions w) eqn:Hok.
  2:{ left. rewrite (start_reads update config c) by done.
      destruct (startWith_stopped update config
                  {| trace := reading config; cache := c;
                     spinner_text := "Reading configuration." |}
                  Hshould Hok) as (events & text & e & -> & Hall).
      cbn [fst snd trace cache]. split; [|done].
      apply Forall_app. split; [done|]. constructor; [done|].
      eapply Forall_impl; [exact Hall|]. by intros [].  }
  rewrite (run_provisions update config c) by done. unfold bind.
  assert (Forall (fun e => is_SetCache e = false)
            (reading config ++ provisioned config)) as Hbefore.
  { apply Forall_app. split; [done|repeat constructor]. }
  assert (Forall (fun e => is_SetCache e = false) (writable config))
    as Hwritable.
  { unfold writable. destruct (topCoreSource config); repeat constructor. }
  destruct (configure_outcome config (md5 config)
              {| trace := reading config ++ provisioned config;
                 cache := c;
                 spinner_text := "Starting WordPress." |}
              (reading_provisioned_before_database config))
    as (rest & Hrest
        & [([e He] & Htrace & Hcache)
          | (Hr & Htrace & Hcache & Hd & Ht & Hdin & Htin)]);
    destruct (configure _ _ _ _ _) as [[[]|e'] s2];
    cbn [fst snd] in *; try discriminate;
    cbn [set_text fst snd trace cache].
  - left. rewrite Htrace, Hcache. cbn [trace cache]. split; [|done].
    apply Forall_app. split; [exact Hbefore|].
    apply Forall_app. split; [exact Hwritable|].
    eapply Forall_impl; [exact Hrest|]. by intros x [_ ?].
  - right. repeat split; try done.
    exists ((reading config ++ provisioned config)
            ++ writable config ++ rest).
    rewrite Htrace. cbn [trace]. rewrite <- !app_assoc.
    split; [done|]. split.
    + rewrite app_assoc.
      apply Forall_app. split; [exact Hbefore|].
      apply Forall_app. split; [exact Hwritable|].
      eapply Forall_impl; [exact Hrest|]. by intros x [_ ?].
    + split; do 3 (apply elem_of_app; right); done.
Qed.






End Sequence.

(** C5, as the code has it. The checksum is written to the cache only by
    a run that resolves, as its last event, after [configureWordPress] was
    attempted and answered well within two attempts for both
    environments. A run that does not resolve, whatever failed, leaves
    the cache as it was; the next start on the same configuration then
    stops the services and provisions again when it is called with
    [update] or when the cached checksum was already different before the
    failed run. *)
Theorem checksum_cached_on_full_success
  (md5 : WPConfig -> string) (default_delay : N) (w next : World)
  (update again : bool) (c : gmap (string * string) string)
  (config : WPConfig) :
  checkForLegacyInstall_ok w = true ->
  initConfig_result w = Resolved config ->
  (forall directory key value,
     SetCache directory key value
       ∈ trace (run md5 default_delay w update c).2 ->
     (run md5 default_delay w update c).1 = Resolved tt
     /\ configured (configureWordPress_ok w "development") = true
     /\ configured (configureWordPress_ok w "tests") = true
     /\ exists before,
          trace (run md5 default_delay w update c).2
          = before ++ [SetCache (workDirectoryPath config)
                                CONFIG_CACHE_KEY (md5 config)]
          /\ Forall (fun e => is_SetCache e = false) before
          /\ ConfigureWordPress "development" ∈ before
          /\ ConfigureWordPress "tests" ∈ before)
  /\ ((run md5 default_delay w update c).1 <> Resolved tt ->
      cache (run md5 default_delay w update c).2 = c
      /\ (checkForLegacyInstall_ok next = true ->
          initConfig_result next = Resolved config ->
          shouldConfigureWp md5 again config c = true ->
          exists later,
            trace (run md5 default_delay next again
                     (cache (run md5 default_delay w update c).2)).2
            = reading config ++ Stop :: later)).
Proof.
  intros Hlegacy Hinit.
  destruct (run_outcome md5 default_delay w update config c Hlegacy Hinit)
    as [[Hquiet Hcache] | (Hr & Hd & Ht & before & Htrace & Hrest)].
  - split.
    + intros directory key value Hin.
      by apply (proj1 (Forall_forall _ _) Hquiet) in Hin.
    + intros _. split; [done|]. rewrite Hcache.
      intros Hlegacy' Hinit' Hshould. by apply run_stops.
  - split; [|done].
    intros directory key value _. repeat split; try done.
    by exists before.
Qed.

(** Witness of C5: with an empty cache and a database that accepts the
    second connection, the checksum is the last thing written; with a
    database that never does, the run rejects, the cache stays empty and
    the next start stops the services again. *)
Lemma checksum_cached_on_full_success_witness :
  (exists before,
     trace (run Examples.checksum 5000
              (Examples.slow_database Examples.plugin_config 1) false ∅).2
     = before ++ [SetCache "/work" "config_checksum"
                           "d41d8cd98f00b204e9800998ecf8427e"])
  /\ cache (run Examples.checksum 5000
              (Examples.no_database Examples.plugin_config) false ∅).2 = ∅
  /\ exists later,
       trace (run Examples.checksum 5000
                (Examples.calm Examples.plugin_config) false
                (cache (run Examples.checksum 5000
                          (Examples.no_database Examples.plugin_config)
                          false ∅).2)).2
       = reading Examples.plugin_config ++ Stop :: later.
Proof.
  split; [|split].
  - destruct (proj1 (checksum_cached_on_full_success Examples.checksum 5000
                       (Examples.slow_database Examples.plugin_config 1)
                       (Examples.calm Examples.plugin_config)
                       false false ∅ Examples.plugin_config
                       eq_refl eq_refl)
                "/work" "config_checksum"
                "d41d8cd98f00b204e9800998ecf8427e")
      as (_ & _ & _ & before & Htrace & _).
    + vm_compute. repeat (first [apply list_elem_of_here
                                |apply list_elem_of_further]).
    + by exists before.
  - apply (proj2 (checksum_cached_on_full_success Examples.checksum 5000
                    (Examples.no_database Examples.plugin_config)
                    (Examples.calm Examples.plugin_config)
                    false false ∅ Examples.plugin_config
                    eq_refl eq_refl)).
    vm_compute. discriminate.
  - apply (proj2 (checksum_cached_on_full_success Examples.checksum 5000
                    (Examples.no_database Examples.plugin_config)
                    (Examples.calm Examples.plugin_config)
                    false false ∅ Examples.plugin_config
                    eq_refl eq_refl)).
    + vm_compute. discriminate.
    + reflexivity.
    + reflexivity.
    + reflexivity.
Defined.

(** Counterexample to C5 as stated: a start with [update] on a
    configuration whose checksum is already cached fails at the database;
    the cache still holds that checksum, so the next plain start brings
    the services up without stopping them or provisioning. *)
Lemma failed_update_is_not_redone : ~ Stated.checksum_on_full_success.
Proof.
  intros [_ H].
  destruct (H Examples.checksum 5000%N
              (Examples.no_database Examples.plugin_config)
              (Examples.calm Examples.plugin_config)
              true false (Examples.applied Examples.plugin_config)
              Examples.plugin_config eq_refl eq_refl eq_refl eq_refl)
    as [_ [later Hlater]].
  - vm_compute. discriminate.
  - vm_compute in Hlater. discriminate Hlater.
Qed.

(** Witness of C1: a second start on [{ "plugins": [ "." ] }], with the
    checksum of the first in the cache, brings the services up and does
    nothing else. *)
Lemma unchanged_configuration_skips_provisioning_witness :
  run Examples.checksum 5000 (Examples.calm Examples.plugin_config) false
      (Examples.applied Examples.plugin_config)
  = (Resolved tt,
     {| trace := [CheckForLegacyInstall; InitConfig; UpOne "mysql";
                  UpMany ["wordpress"; "tests-wordpress"]];
        cache := Examples.applied Examples.plugin_config;
        spinner_text := "WordPress started." |}).
Proof.
  apply (unchanged_configuration_skips_provisioning Examples.checksum 5000
           (Examples.calm Examples.plugin_config) Examples.plugin_config
           (Examples.applied Examples.plugin_config)).
  - reflexivity.
  - reflexivity.
  - reflexivity.
  - reflexivity.
  - reflexivity.
Defined.



(** Witness of C6: a database that refuses the first check and the ten
    retries after it, and accepts the eleventh; both sites are configured
    at the second attempt, tests before development. *)
Lemma database_retried_then_both_configured_witness :
  trace (run Examples.checksum 5000
           (Samples.both_retried Examples.plugin_config) false ∅).2
  = reading Examples.plugin_config
      ++ provisioned Examples.plugin_config
      ++ writable Examples.plugin_config
      ++ CheckDatabaseConnection
           :: attempts CheckDatabaseConnection 1000 10
      ++ [Sleep 4000;
          ConfigureWordPress "development"; ConfigureWordPress "tests";
          RetryDelay 5000; ConfigureWordPress "tests";
          RetryDelay 5000; ConfigureWordPress "development";
          SetCache "/work" "config_checksum"
                   "d41d8cd98f00b204e9800998ecf8427e"]
  /\ occurrences CheckDatabaseConnection
       (trace (run Examples.checksum 5000
                 (Samples.both_retried Examples.plugin_config)
                 false ∅).2) = 12
  /\ (run Examples.checksum 5000
        (Samples.both_retried Examples.plugin_config) false ∅).1
     = Resolved tt.
Proof.
  destruct (database_retried_then_both_configured Examples.checksum
              5000 (Samples.both_retried Examples.plugin_config)
              false Examples.plugin_config ∅) as [Hconnects _];
    [reflexivity..|].
  destruct (Hconnects 10) as (Htrace & Hchecks & _ & _ & _ & Hresolves).
  - lia.
  - intros j Hj. apply Nat.leb_gt. lia.
  - reflexivity.
  - split; [exact Htrace|]. split; [exact Hchecks|].
    by apply Hresolves.
Defined.

End StartFacts.

(** ** More on source acquisition *)
Module DownloadMore.
Import Download DownloadFacts.

Lemma first_per_url_sublist (l : list WPSource) (m : gmap string bool) :
  first_per_url m l `sublist_of` l.
Proof.
  revert m. induction l as [|s l IH]; intros m; simpl; [constructor|].
  destruct (key_of s) as [u|]; [|by apply sublist_cons].
  destruct (is_added m u); [by apply sublist_cons|by apply sublist_skip].
Qed.

(** A url that is offered and not recorded yet is the url of a
    descriptor that is kept. *)
Lemma first_per_url_covers (l : list WPSource) (m : gmap string bool)
  (d : WPSource) (u : string) :
  d ∈ l -> key_of d = Some u -> is_added m u = false ->
  exists d', d' ∈ first_per_url m l /\ key_of d' = Some u.
Proof.
  revert m. induction l as [|s l IH]; intros m Hin Hd Hm.
  { by apply elem_of_nil in Hin. }
  simpl. destruct (key_of s) as [v|] eqn:Hs.
  - destruct (is_added m v) eqn:Hv.
    + apply elem_of_cons in Hin as [-> | Hin]; [congruence|by apply IH].
    + destruct (decide (v = u)) as [-> | Hne].
      * exists s. split; [by left|done].
      * apply elem_of_cons in Hin as [-> | Hin]; [congruence|].
        destruct (IH (<[v := true]> m) Hin Hd) as (d' & Hd' & Hkey).
        { rewrite is_added_insert. by destruct (decide (v = u)). }
        exists d'. split; [by right|done].
  - apply elem_of_cons in Hin as [-> | Hin]; [congruence|by apply IH].
Qed.

(** X1. [downloadSources] skips no url that it can record and keeps
    the order: every non-empty url of a descriptor offered by an
    environment, other than the names of the properties that
    [addedSources] inherits, is the url of one of the sources handed to
    [downloadSource], and these sources are the offered descriptors with
    some left out, in the order in which the loop met them. *)
Theorem downloadSources_covers_every_url (config : WPConfig) :
  (forall d u,
     d ∈ offered (Object_values (env config)) ->
     url d = Some u -> u <> "" -> inherited u = false ->
     exists d', d' ∈ downloadSources config /\ url d' = Some u)
  /\ downloadSources config `sublist_of` offered (Object_values (env config)).
Proof.
  rewrite downloadSources_first_per_url. split.
  - intros d u Hin Hurl Hu Hown.
    destruct (first_per_url_covers _ ∅ d u Hin) as (d' & Hd' & Hkey);
      [by apply key_of_Some|unfold is_added; by rewrite lookup_empty|].
    exists d'. split; [done|]. by apply key_of_Some in Hkey as [? _].
  - apply first_per_url_sublist.
Qed.

(** Witness of X1: the repository that only the tests environment
    names at another ref is covered by the download of the first ref. *)
Lemma downloadSources_covers_every_url_witness :
  exists d',
    d' ∈ downloadSources Examples.two_refs_config
    /\ url d' = url Examples.gutenberg_trunk.
Proof.
  apply (proj1 (downloadSources_covers_every_url Examples.two_refs_config)
           Examples.gutenberg_trunk).
  - do 3 apply list_elem_of_further. apply list_elem_of_here.
  - reflexivity.
  - discriminate.
  - reflexivity.
Defined.

(** The state of the loop after more descriptors: what was recorded
    stays recorded, and the key of every descriptor passed is recorded. *)
Lemma forEach_addSource_added (l : list WPSource) (st : Added) (u : string) :
  is_added (addedSources st) u = true
  \/ (exists d, d ∈ l /\ key_of d = Some u) ->
  is_added (addedSources (forEach_addSource st l)) u = true.
Proof.
  revert st. induction l as [|s l IH]; intros st Hu.
  { destruct Hu as [Hu | (d & Hd & _)]; [done|by apply elem_of_nil in Hd]. }
  unfold forEach_addSource in *. cbn [foldl]. apply IH.
  rewrite addSource_step.
  destruct Hu as [Hu | (d & [-> | Hd]%elem_of_cons & Hkey)].
  - left. destruct (key_of s) as [v|]; [|done].
    destruct (is_added (addedSources st) v); [done|].
    cbn [addedSources]. rewrite is_added_insert, Hu.
    by destruct (decide (v = u)).
  - left. rewrite Hkey.
    destruct (is_added (addedSources st) u) eqn:Hadded; [done|].
    cbn [addedSources]. rewrite is_added_insert.
    by destruct (decide (u = u)).
  - right. by exists d.
Qed.

(** Descriptors whose keys are all recorded change nothing. *)
Lemma forEach_addSource_known (l : list WPSource) (st : Added) :
  (forall d u, d ∈ l -> key_of d = Some u ->
     is_added (addedSources st) u = true) ->
  forEach_addSource st l = st.
Proof.
  induction l as [|s l IH]; intros Hknown; [done|].
  unfold forEach_addSource in *. cbn [foldl]. rewrite addSource_step.
  destruct (key_of s) as [v|] eqn:Hs.
  - rewrite (Hknown s v) by (done || by left).
    apply IH. intros d u Hd. apply Hknown. by right.
  - apply IH. intros d u Hd. apply Hknown. by right.
Qed.

(** X2. An environment none of whose urls is new adds no download: when
    every non-empty url offered by an environment is offered by the
    environments before it, the sources to download are those of the
    environments before it. So a source used in several environments is
    downloaded once. *)
Theorem collectSources_known_environment
  (envs : list WPServiceConfig) (e : WPServiceConfig) :
  (forall d u, d ∈ offered [e] -> url d = Some u -> u <> "" ->
     exists d0, d0 ∈ offered envs /\ url d0 = Some u) ->
  collectSources (envs ++ [e]) = collectSources envs.
Proof.
  intros Hknown. unfold collectSources.
  rewrite !loop_is_forEach. unfold offered at 1.
  rewrite flat_map_app. fold (offered envs). fold (offered [e]).
  rewrite forEach_addSource_app. f_equal.
  apply forEach_addSource_known. intros d u Hd Hkey.
  apply key_of_Some in Hkey as [Hurl Hu].
  destruct (Hknown d u Hd Hurl Hu) as (d0 & Hd0 & Hurl0).
  apply forEach_addSource_added. right. exists d0.
  split; [done|]. by apply key_of_Some.
Qed.

(** Witness of X2: two environments with the same plugins download what
    one of them does. *)
Lemma collectSources_known_environment_witness :
  downloadSources Samples.mirrored_config
  = collectSources [development (env Samples.mirrored_config)].
Proof.
  apply (collectSources_known_environment
           [development (env Samples.mirrored_config)]
           (tests (env Samples.mirrored_config))).
  intros d u Hd Hurl _. exists d. split; [exact Hd|exact Hurl].
Defined.

(** X3. A git acquisition resolves exactly when the repository could
    be cloned or, failing that, opened where it is; the remote was got,
    fetched and disconnected; and the ref could be checked out from
    [FETCH_HEAD] or, failing that, from the reference of its own name, or,
    when neither gives a reference or the checkout fails, the head could
    be set detached at the ref. *)
Theorem downloadGitSource_resolves_iff (git : NodeGit) :
  (acquire git).1 = Resolved tt
  <-> (Clone_ok git || Repository_open_ok git)
      && getRemote_ok git && fetch_ok git && disconnect_ok git
      && ((getReference_FETCH_HEAD_ok git || getReference_ref_ok git)
          && checkoutRef_ok git
          || setHeadDetached_ok git) = true.
Proof.
  destruct git as [creports cok ook rok freports fok dok hok refok chok sok].
  unfold acquire, downloadGitSource, bind, try_catch, transfer, nodegit,
    onProgress; simpl.
  destruct cok, ook, rok, fok, dok, hok, refok, chok, sok; simpl;
    split; (done || discriminate).
Qed.

(** Witness of X3: clone fails on an existing repository, which is
    opened instead; the tag is found under its own name. *)
Lemma downloadGitSource_resolves_iff_witness :
  (acquire Samples.existing_repository).1 = Resolved tt.
Proof.
  apply (proj2 (downloadGitSource_resolves_iff Samples.existing_repository)).
  reflexivity.
Defined.

(** X4. A git acquisition that rejects has reported 0, then the progress
    of the clone, then that of the fetch if the fetch was reached, and
    nothing after: completion is not reported. *)
Theorem downloadGitSource_rejected_progress (git : NodeGit) (e : string) :
  (acquire git).1 = Rejected e ->
  (acquire git).2
  = Finite 0
      :: map transferProgress
           (Clone_reports git
            ++ (if (Clone_ok git || Repository_open_ok git)
                   && getRemote_ok git
                then fetch_reports git else [])).
Proof.
  destruct git as [creports cok ook rok freports fok dok hok refok chok sok].
  unfold acquire, downloadGitSource, bind, try_catch, transfer, nodegit,
    onProgress; simpl.
  destruct cok, ook, rok, fok, dok, hok, refok, chok, sok; simpl;
    intros [=]; rewrite ?map_app, ?app_nil_r, <- ?app_assoc; reflexivity.
Qed.

(** Witness of X4: a clone that fails after one report, with nothing to
    open, leaves the progress at that report. *)
Lemma downloadGitSource_rejected_progress_witness :
  (acquire Samples.broken_clone).2 = [Finite 0; Finite (1 # 8)].
Proof.
  apply (downloadGitSource_rejected_progress Samples.broken_clone
           "NodeGit.Repository.open").
  reflexivity.
Defined.

End DownloadMore.

(** ** More on the docker-compose topology *)
Module ComposeMore.
Import Compose ComposeFacts.

(** The tests mounts do not depend on the file system or on [path.join]
    unless the development core is a local source. *)
Lemma testsMountsOf_without_local_core
  (path_join path_join' : string -> string -> string)
  (readdirSync readdirSync' : string -> list string) (config : WPConfig) :
  (forall d, coreSource (development (env config)) = Some d ->
     type d <> "local") ->
  testsMountsOf path_join readdirSync config
  = testsMountsOf path_join' readdirSync' config.
Proof.
  intros Hremote. unfold testsMountsOf.
  destruct (coreSource (development (env config))) as [d|]; [|done].
  destruct (hasSameCoreSource _); [|done].
  unfold sharedCoreMounts.
  destruct (String.eqb_spec (type d) "local") as [Hlocal|_]; [|done].
  by destruct (Hremote d).
Qed.

(** X5. The directory of the core is read only for a local development
    core: when the development environment has no core source, or one
    that is not of type [local], the generated configuration is the same
    whatever the file system holds and whatever [path.join] does. *)
Theorem buildDockerComposeConfig_reads_local_core_only
  (path_join path_join' : string -> string -> string)
  (readdirSync readdirSync' : string -> list string)
  (dirname : string) (config : WPConfig) :
  (forall d, coreSource (development (env config)) = Some d ->
     type d <> "local") ->
  buildDockerComposeConfig path_join readdirSync dirname config
  = buildDockerComposeConfig path_join' readdirSync' dirname config.
Proof.
  intros Hremote. unfold buildDockerComposeConfig.
  by rewrite (testsMountsOf_without_local_core path_join path_join'
                readdirSync readdirSync' config).
Qed.

(** Witness of X5: with a git core, an empty core directory and a full
    one give one configuration. *)
Lemma buildDockerComposeConfig_reads_local_core_only_witness :
  buildDockerComposeConfig Examples.join (fun _ => []) "/lib"
    Examples.remote_core_config
  = buildDockerComposeConfig Examples.join Examples.core_entries "/lib"
      Examples.remote_core_config.
Proof.
  apply (buildDockerComposeConfig_reads_local_core_only Examples.join
           Examples.join (fun _ => []) Examples.core_entries "/lib"
           Examples.remote_core_config).
  intros d [= <-]. discriminate.
Defined.

Section Topology.

Variable path_join : string -> string -> string.
Variable readdirSync : string -> list string.
Variable dirname : string.

(** Whatever is done to the core mount, the mounts after it stay. *)
Lemma testsMountsOf_keeps_tail (config : WPConfig) (mount : string) :
  mount ∈ directoryMounts (tests (env config))
          ++ pluginMounts (tests (env config))
          ++ themeMounts (tests (env config)) ->
  mount ∈ testsMountsOf path_join readdirSync config.
Proof.
  intros Hin. unfold testsMountsOf.
  destruct (coreSource (development (env config))) as [d|];
    [destruct (hasSameCoreSource _)|].
  - apply elem_of_app. by right.
  - by right.
  - by right.
Qed.

(** X6. Replacing the tests core mount loses no other mount: in every
    configuration, each mapped directory, plugin and theme of the tests
    environment is mounted in the [tests-wordpress], [tests-cli] and
    [phpunit] services, and each one of the development environment in
    [wordpress] and [cli]. *)
Theorem every_source_is_mounted (config : WPConfig) (mount : string) :
  (mount ∈ directoryMounts (tests (env config))
            ++ pluginMounts (tests (env config))
            ++ themeMounts (tests (env config)) ->
   forall name, name ∈ ["tests-wordpress"; "tests-cli"; "phpunit"] ->
     exists s,
       service (buildDockerComposeConfig path_join readdirSync dirname
                  config) name = Some s
       /\ mount ∈ volumes s)
  /\ (mount ∈ directoryMounts (development (env config))
               ++ pluginMounts (development (env config))
               ++ themeMounts (development (env config)) ->
      forall name, name ∈ ["wordpress"; "cli"] ->
        exists s,
          service (buildDockerComposeConfig path_join readdirSync dirname
                     config) name = Some s
          /\ mount ∈ volumes s).
Proof.
  split; intros Hin name Hname.
  - apply (testsMountsOf_keeps_tail config) in Hin.
    repeat (apply elem_of_cons in Hname as [-> | Hname]);
      [..|by apply elem_of_nil in Hname];
      (eexists; split; [reflexivity|]); cbn [volumes]; [done..|].
    apply elem_of_app. by left.
  - repeat (apply elem_of_cons in Hname as [-> | Hname]);
      [..|by apply elem_of_nil in Hname];
      (eexists; split; [reflexivity|]); cbn [volumes];
      unfold getMounts; by right.
Qed.

(** X7. The generated file is closed: the seven services have different
    names, every service named in a [depends_on] is one of them, and the
    named volumes [mysql] and [phpunit-uploads], which the [mysql] and
    [phpunit] services mount, are declared whatever the configuration. *)
Theorem buildDockerComposeConfig_is_closed (config : WPConfig) :
  NoDup (fst <$> services
           (buildDockerComposeConfig path_join readdirSync dirname config))
  /\ (forall name s dependency,
        (name, s) ∈ services
          (buildDockerComposeConfig path_join readdirSync dirname config) ->
        dependency ∈ depends_on s ->
        is_Some (service
                   (buildDockerComposeConfig path_join readdirSync dirname
                      config) dependency))
  /\ "mysql" ∈ named_volumes
       (buildDockerComposeConfig path_join readdirSync dirname config)
  /\ "phpunit-uploads" ∈ named_volumes
       (buildDockerComposeConfig path_join readdirSync dirname config).
Proof.
  split; [|split; [|split]].
  - cbn. repeat (apply NoDup_cons; split; [intros Hin; not_listed Hin|]).
    constructor.
  - intros name s dependency Hs Hdep. cbn in Hs.
    repeat (apply elem_of_cons in Hs as [[= -> ->] | Hs]);
      [..|by apply elem_of_nil in Hs]; cbn [depends_on] in Hdep;
      repeat (apply elem_of_cons in Hdep as [-> | Hdep]);
      try (by apply elem_of_nil in Hdep); by eexists.
  - unfold buildDockerComposeConfig; cbn [named_volumes].
    apply elem_of_app. right. apply elem_of_app. right. by left.
  - unfold buildDockerComposeConfig; cbn [named_volumes].
    apply elem_of_app. right. apply elem_of_app. right. right. by left.
Qed.

End Topology.

(** Witness of X6: the plugin of the tests environment stays mounted
    when the local core is shared. *)
Lemma every_source_is_mounted_witness :
  exists s,
    service (buildDockerComposeConfig Examples.join Examples.core_entries
               "/lib" Examples.local_core_config) "phpunit" = Some s
    /\ "/home/dev/plugin:/var/www/html/wp-content/plugins/plugin"
         ∈ volumes s.
Proof.
  apply (proj1 (every_source_is_mounted Examples.join Examples.core_entries
                  "/lib" Examples.local_core_config
                  "/home/dev/plugin:/var/www/html/wp-content/plugins/plugin")).
  - apply list_elem_of_here.
  - do 2 apply list_elem_of_further. apply list_elem_of_here.
Defined.

End ComposeMore.

(** ** More on the start sequence *)
Module StartMore.
Import Start StartFacts.

Section Sequence.

Variable md5 : WPConfig -> string.
Variable default_delay : N.
Variable w : World.

(** [startWith] when the configuration is to be applied, by the first
    call that rejects. *)
Lemma startWith_changed (update : bool) (config : WPConfig) (s : State) :
  shouldConfigureWp md5 update config (cache s) = true ->
  startWith md5 default_delay w update config s
  = if stop_ok w
    then
      if upOne_ok w "mysql" && downloadSources_ok w
      then
        if setupWordPressDirectories_ok w
        then
          if upMany_ok w ["wordpress"; "tests-wordpress"]
          then
            bind (configure default_delay w config (md5 config))
                 (fun _ => set_text "WordPress started.")
                 {| trace := trace s ++ provisioned config;
                    cache := cache s;
                    spinner_text := "Starting WordPress." |}
          else
            (Rejected "rejected",
             {| trace := trace s ++ provisioned config; cache := cache s;
                spinner_text := "Starting WordPress." |})
        else
          (Rejected "rejected",
           {| trace := trace s
                         ++ [Stop; UpOne "mysql";
                             DownloadSources
                               (Download.downloadSources config);
                             SetupWordPressDirectories];
              cache := cache s;
              spinner_text := "Downloading sources." |})
      else
        (Rejected "rejected",
         {| trace := trace s
                       ++ [Stop; UpOne "mysql";
                           DownloadSources
                             (Download.downloadSources config)];
            cache := cache s;
            spinner_text := "Downloading sources." |})
    else (Rejected "rejected", after s [Stop]).
Proof.
  unfold shouldConfigureWp. intros Hshould.
  unfold startWith, didCacheChange, stop, upOne, upMany, downloadSources,
    setupWordPressDirectories, call, Promise_all2.
  unfold bind at 1 2 3 4 5 6 7 8, ret, set_text, emit, after.
  destruct update; cbn [orb] in Hshould; cbn [trace cache spinner_text];
    rewrite ?Hshould;
    destruct (stop_ok w), (upOne_ok w "mysql"), (downloadSources_ok w),
      (setupWordPressDirectories_ok w),
      (upMany_ok w ["wordpress"; "tests-wordpress"]);
    cbn [andb trace cache spinner_text]; unfold provisioned;
    rewrite <- ?app_assoc; reflexivity.
Qed.

Lemma reading_elem (config : WPConfig) (e : Event) :
  e ∈ reading config ->
  e = CheckForLegacyInstall \/ e = InitConfig \/ e = Warn (warning config).
Proof.
  unfold reading. destruct (detectedLocalConfig config); cbn [app];
    rewrite !elem_of_cons, elem_of_nil; tauto.
Qed.

(** Closes a goal from [H : e ∈ reading config] when [e] is not an event
    of reading the configuration. *)
Ltac not_reading H :=
  apply reading_elem in H as [H | [H | H]]; discriminate H.

(** The trace of a run that applies the configuration and whose calls
    up to [upMany] resolve. *)
Lemma run_provisions_trace (update : bool) (config : WPConfig)
  (c : gmap (string * string) string) :
  checkForLegacyInstall_ok w = true ->
  initConfig_result w = Resolved config ->
  shouldConfigureWp md5 update config c = true ->
  provisions w = true ->
  exists rest,
    trace (run md5 default_delay w update c).2
    = reading config ++ provisioned config ++ writable config ++ rest.
Proof.
  intros Hlegacy Hinit Hshould Hok.
  rewrite (run_provisions md5 default_delay w update config c) by done.
  unfold bind.
  destruct (configure_outcome default_delay w config (md5 config)
              {| trace := reading config ++ provisioned config;
                 cache := c;
                 spinner_text := "Starting WordPress." |}
              (reading_provisioned_before_database config))
    as (rest & _ & [(_ & Htrace & _) | (_ & Htrace & _)]);
    destruct (configure _ _ _ _ _) as [[[]|e'] s2];
    cbn [set_text fst snd trace] in *; rewrite Htrace;
    rewrite <- !app_assoc; eauto.
Qed.

(** X8. In a run that applies the configuration, what is started
    depends on what came before. If stopping the services fails nothing
    else is called. Once they are stopped, bringing up [mysql] and the
    download of the sources are both started, whatever becomes of the
    other. [setupWordPressDirectories] is called only if both resolved,
    and the [wordpress] and [tests-wordpress] services are brought up only
    if it resolved as well. *)
Theorem start_orders_provisioning
  (update : bool) (config : WPConfig) (c : gmap (string * string) string) :
  checkForLegacyInstall_ok w = true ->
  initConfig_result w = Resolved config ->
  shouldConfigureWp md5 update config c = true ->
  (stop_ok w = false ->
   run md5 default_delay w update c
   = (Rejected "rejected",
      {| trace := reading config ++ [Stop]; cache := c;
         spinner_text := "Reading configuration." |}))
  /\ (stop_ok w = true ->
      UpOne "mysql" ∈ trace (run md5 default_delay w update c).2
      /\ DownloadSources (Download.downloadSources config)
           ∈ trace (run md5 default_delay w update c).2)
  /\ (SetupWordPressDirectories
        ∈ trace (run md5 default_delay w update c).2 ->
      upOne_ok w "mysql" = true /\ downloadSources_ok w = true)
  /\ (UpMany ["wordpress"; "tests-wordpress"]
        ∈ trace (run md5 default_delay w update c).2 ->
      upOne_ok w "mysql" = true /\ downloadSources_ok w = true
      /\ setupWordPressDirectories_ok w = true).
Proof.
  intros Hlegacy Hinit Hshould.
  destruct (provisions w) eqn:Hok.
  - destruct (run_provisions_trace update config c Hlegacy Hinit Hshould Hok)
      as (rest & ->).
    unfold provisions in Hok.
    repeat (apply andb_true_iff in Hok as [Hok ?]).
    split; [congruence|]. split; [|by split].
    intros _. split; apply elem_of_app; right; apply elem_of_app; left.
    + by right; left.
    + right; right; by left.
  - rewrite (start_reads md5 default_delay w update config c) by done.
    rewrite startWith_changed by done. unfold provisions in Hok.
    destruct (stop_ok w), (upOne_ok w "mysql"), (downloadSources_ok w),
      (setupWordPressDirectories_ok w),
      (upMany_ok w ["wordpress"; "tests-wordpress"]);
      try discriminate Hok; unfold after, provisioned;
      cbn [andb fst snd trace];
      split_and!; try done;
      try (intros _; split; apply elem_of_app; right;
           [right; by left | right; right; by left]);
      intros [Hin | Hin]%elem_of_app; try (by not_reading Hin);
      repeat (apply elem_of_cons in Hin as [Hin | Hin];
              [discriminate Hin|]);
      by apply elem_of_nil in Hin.
Qed.


(** X9. [start] stops the running services exactly when it was called
    with [update] or the checksum cached for the work directory is not
    the checksum of the configuration. *)
Theorem services_stopped_iff_configuration_applied
  (update : bool) (config : WPConfig) (c : gmap (string * string) string) :
  checkForLegacyInstall_ok w = true ->
  initConfig_result w = Resolved config ->
  Stop ∈ trace (run md5 default_delay w update c).2
  <-> update = true
      \/ c !! (workDirectoryPath config, CONFIG_CACHE_KEY)
         <> Some (md5 config).
Proof.
  intros Hlegacy Hinit.
  destruct (shouldConfigureWp md5 update config c) eqn:Hshould.
  - destruct (run_stops md5 default_delay w update config c)
      as (later & ->); [done..|].
    split.
    + intros _. unfold shouldConfigureWp in Hshould.
      destruct update; [by left|right]. cbn [orb] in Hshould.
      intros Heq. by rewrite bool_decide_eq_true_2 in Hshould.
    + intros _. apply elem_of_app. right. by left.
  - unfold shouldConfigureWp in Hshould.
    apply orb_false_iff in Hshould as [-> Hcached].
    apply negb_false_iff, bool_decide_eq_true in Hcached.
    rewrite (start_reads md5 default_delay w false config c) by done.
    rewrite startWith_unchanged by done.
    split; [|by intros [? | ?]].
    destruct (upOne_ok w "mysql"),
      (upMany_ok w ["wordpress"; "tests-wordpress"]);
      cbn [snd trace]; intros [Hin | Hin]%elem_of_app;
      try (by not_reading Hin);
      repeat (apply elem_of_cons in Hin as [Hin | Hin];
              [discriminate Hin|]);
      by apply elem_of_nil in Hin.
Qed.

(** X10. When the services come up, the content directories are made
    writable and the database accepts the first connection check, that
    check is the only one: no retry and no wait of 4000 ms follow it. The
    first attempts at [configureWordPress] for development and for tests
    come right after it, and after them the wait and the second attempt of
    each environment whose first attempt failed, the two environments in
    the order the outside gives. The checksum is written, and the spinner
    reports the start, exactly if both sites were configured within two
    attempts. *)
Theorem database_ready_at_first_check
  (update : bool) (config : WPConfig) (c : gmap (string * string) string) :
  checkForLegacyInstall_ok w = true ->
  initConfig_result w = Resolved config ->
  shouldConfigureWp md5 update config c = true ->
  provisions w = true ->
  writable_resolves w config = true ->
  checkDatabaseConnection_ok w 0 = true ->
  run md5 default_delay w update c
  = if configured (configureWordPress_ok w "development")
       && configured (configureWordPress_ok w "tests")
    then
      (Resolved tt,
       {| trace :=
            reading config ++ provisioned config ++ writable config
              ++ [CheckDatabaseConnection;
                  ConfigureWordPress "development";
                  ConfigureWordPress "tests"]
              ++ interleave (configuration_order w)
                   (retried (configureWordPress_ok w "development")
                      default_delay "development")
                   (retried (configureWordPress_ok w "tests")
                      default_delay "tests")
              ++ [SetCache (workDirectoryPath config) CONFIG_CACHE_KEY
                           (md5 config)];
          cache := <[(workDirectoryPath config, CONFIG_CACHE_KEY)
                     := md5 config]> c;
          spinner_text := "WordPress started." |})
    else
      (Rejected "rejected",
       {| trace :=
            reading config ++ provisioned config ++ writable config
              ++ [CheckDatabaseConnection;
                  ConfigureWordPress "development";
                  ConfigureWordPress "tests"]
              ++ interleave (configuration_order w)
                   (retried (configureWordPress_ok w "development")
                      default_delay "development")
                   (retried (configureWordPress_ok w "tests")
                      default_delay "tests");
          cache := c;
          spinner_text := "Configuring WordPress." |}).
Proof.
  intros Hlegacy Hinit Hshould Hok Hwritable Hready.
  rewrite (run_provisions md5 default_delay w update config c) by done.
  unfold bind.
  rewrite configure_steps by apply reading_provisioned_before_database.
  rewrite Hwritable.
  rewrite database_phase_at_once;
    [|by apply occurrences_database_start|done].
  destruct (configured (configureWordPress_ok w "development")
            && configured (configureWordPress_ok w "tests"));
    unfold set_text, configuring_state, after, configuration_events;
    cbn [trace cache spinner_text fst snd];
    rewrite <- !app_assoc; reflexivity.
Qed.

(** X11. With [null] as the core source at the top level of the
    configuration, both content directories are asked to be made writable,
    also when
    the call for the first fails; if either call fails the run rejects
    there: the database is not checked, no site is configured and the
    cache is left as it was. *)
Theorem unwritable_content_ends_the_run
  (update : bool) (config : WPConfig) (c : gmap (string * string) string) :
  checkForLegacyInstall_ok w = true ->
  initConfig_result w = Resolved config ->
  shouldConfigureWp md5 update config c = true ->
  provisions w = true ->
  topCoreSource config = Null ->
  makeContentDirectoriesWritable_ok w "development"
    && makeContentDirectoriesWritable_ok w "tests" = false ->
  run md5 default_delay w update c
  = (Rejected "rejected",
     {| trace := reading config ++ provisioned config
                   ++ [MakeContentDirectoriesWritable "development";
                       MakeContentDirectoriesWritable "tests"];
        cache := c;
        spinner_text := "Configuring WordPress." |}).
Proof.
  intros Hlegacy Hinit Hshould Hok Htop Hfails.
  rewrite (run_provisions md5 default_delay w update config c) by done.
  unfold bind.
  rewrite configure_steps by apply reading_provisioned_before_database.
  unfold writable_resolves, configuring_state, writable, after.
  rewrite Htop, Hfails. cbn [trace cache spinner_text].
  by rewrite <- app_assoc.
Qed.



(** After a run that resolves, the cache holds the checksum of the
    configuration. *)
Lemma run_resolved_cache (update : bool) (config : WPConfig)
  (c : gmap (string * string) string) :
  checkForLegacyInstall_ok w = true ->
  initConfig_result w = Resolved config ->
  (run md5 default_delay w update c).1 = Resolved tt ->
  cache (run md5 default_delay w update c).2
    !! (workDirectoryPath config, CONFIG_CACHE_KEY)
  = Some (md5 config).
Proof.
  intros Hlegacy Hinit.
  destruct (shouldConfigureWp md5 update config c) eqn:Hshould.
  - destruct (provisions w) eqn:Hok.
    + rewrite (run_provisions md5 default_delay w update config c) by done.
      unfold bind.
      destruct (configure_outcome default_delay w config (md5 config)
                  {| trace := reading config ++ provisioned config;
                     cache := c;
                     spinner_text := "Starting WordPress." |}
                  (reading_provisioned_before_database config))
        as (rest & _ & [([e He] & _) | (_ & _ & Hcache & _)]);
        destruct (configure _ _ _ _ _) as [[[]|e'] s2];
        cbn [set_text fst snd cache] in *; try done.
      intros _. rewrite Hcache. apply lookup_insert_eq.
    + rewrite (start_reads md5 default_delay w update config c) by done.
      destruct (startWith_stopped md5 default_delay w update config
                  {| trace := reading config; cache := c;
                     spinner_text := "Reading configuration." |})
        as (events & text & e & -> & _); done.
  - unfold shouldConfigureWp in Hshould.
    apply orb_false_iff in Hshould as [-> Hcached].
    apply negb_false_iff, bool_decide_eq_true in Hcached.
    rewrite (start_reads md5 default_delay w false config c) by done.
    rewrite startWith_unchanged by done.
    by destruct (upOne_ok w "mysql"),
      (upMany_ok w ["wordpress"; "tests-wordpress"]).
Qed.

(** X13. A start that resolved is not redone. When [start] resolves
    and is then called again without [update] on the same configuration,
    with the cache the first run left, the second run stops no service,
    downloads and configures nothing and leaves the cache as it is,
    whatever the outside answers the second time. The cache is the one
    described for lib/cache.js. *)
Theorem resolved_start_is_not_redone
  (update : bool) (config : WPConfig) (c : gmap (string * string) string)
  (w' : World) :
  checkForLegacyInstall_ok w = true ->
  initConfig_result w = Resolved config ->
  (run md5 default_delay w update c).1 = Resolved tt ->
  checkForLegacyInstall_ok w' = true ->
  initConfig_result w' = Resolved config ->
  Forall (fun e => provisioning e = false /\ e <> Stop)
         (trace (run md5 default_delay w' false
                   (cache (run md5 default_delay w update c).2)).2)
  /\ cache (run md5 default_delay w' false
              (cache (run md5 default_delay w update c).2)).2
     = cache (run md5 default_delay w update c).2.
Proof.
  intros Hlegacy Hinit Hresolved Hlegacy' Hinit'.
  pose proof (run_resolved_cache update config c Hlegacy Hinit Hresolved)
    as Hcache.
  rewrite (start_reads md5 default_delay w' false config _) by done.
  rewrite startWith_unchanged by done.
  assert (Forall (fun e => provisioning e = false /\ e <> Stop)
                 (reading config)) as Hreading.
  { apply Forall_forall. intros e He.
    apply reading_elem in He as [-> | [-> | ->]]; by split. }
  destruct (upOne_ok w' "mysql"),
    (upMany_ok w' ["wordpress"; "tests-wordpress"]);
    cbn [snd trace cache]; (split; [|done]);
    (apply Forall_app; split; [exact Hreading|]);
    repeat (apply Forall_cons; split; [by split|]); constructor.
Qed.

End Sequence.

(** Witness of X8: the sources cannot be fetched; [mysql] was brought
    up and the download was started all the same. *)
Lemma start_orders_provisioning_witness :
  UpOne "mysql"
    ∈ trace (run Examples.checksum 5000
               (Samples.offline Examples.plugin_config) false ∅).2
  /\ DownloadSources (Download.downloadSources Examples.plugin_config)
       ∈ trace (run Examples.checksum 5000
                  (Samples.offline Examples.plugin_config) false ∅).2.
Proof.
  destruct (start_orders_provisioning Examples.checksum 5000
              (Samples.offline Examples.plugin_config) false
              Examples.plugin_config ∅) as (_ & Hboth & _);
    [reflexivity..|].
  by apply Hboth.
Defined.

(** Witness of X9: a first start, with nothing cached. *)
Lemma services_stopped_iff_configuration_applied_witness :
  Stop ∈ trace (run Examples.checksum 5000
                  (Examples.calm Examples.plugin_config) false ∅).2.
Proof.
  apply (services_stopped_iff_configuration_applied Examples.checksum 5000
           (Examples.calm Examples.plugin_config) false
           Examples.plugin_config ∅).
  - reflexivity.
  - reflexivity.
  - right. discriminate.
Defined.

(** Witness of X10: the development site is configured at the second
    attempt, which it makes after the first attempt for tests. *)
Lemma database_ready_at_first_check_witness :
  run Examples.checksum 5000
      (Samples.slow_development_site Examples.plugin_config) false ∅
  = (Resolved tt,
     {| trace :=
          [CheckForLegacyInstall; InitConfig; Stop; UpOne "mysql";
           DownloadSources []; SetupWordPressDirectories;
           UpMany ["wordpress"; "tests-wordpress"];
           MakeContentDirectoriesWritable "development";
           MakeContentDirectoriesWritable "tests";
           CheckDatabaseConnection;
           ConfigureWordPress "development";
           ConfigureWordPress "tests"; RetryDelay 5000;
           ConfigureWordPress "development";
           SetCache "/work" "config_checksum"
                    "d41d8cd98f00b204e9800998ecf8427e"];
        cache := Examples.applied Examples.plugin_config;
        spinner_text := "WordPress started." |}).
Proof.
  apply (database_ready_at_first_check Examples.checksum 5000
           (Samples.slow_development_site Examples.plugin_config) false
           Examples.plugin_config ∅).
  - reflexivity.
  - reflexivity.
  - reflexivity.
  - reflexivity.
  - reflexivity.
  - reflexivity.
Defined.

(** Witness of X11: the development content directories cannot be made
    writable. *)
Lemma unwritable_content_ends_the_run_witness :
  run Examples.checksum 5000
      (Samples.read_only_content Examples.plugin_config) false ∅
  = (Rejected "rejected",
     {| trace :=
          [CheckForLegacyInstall; InitConfig; Stop; UpOne "mysql";
           DownloadSources []; SetupWordPressDirectories;
           UpMany ["wordpress"; "tests-wordpress"];
           MakeContentDirectoriesWritable "development";
           MakeContentDirectoriesWritable "tests"];
        cache := ∅;
        spinner_text := "Configuring WordPress." |}).
Proof.
  apply (unwritable_content_ends_the_run Examples.checksum 5000
           (Samples.read_only_content Examples.plugin_config) false
           Examples.plugin_config ∅).
  - reflexivity.
  - reflexivity.
  - reflexivity.
  - reflexivity.
  - reflexivity.
  - reflexivity.
Defined.

(** Witness of X13: a first start that resolves, then a start while the
    sources cannot be fetched. *)
Lemma resolved_start_is_not_redone_witness :
  cache (run Examples.checksum 5000
           (Samples.offline Examples.plugin_config) false
           (cache (run Examples.checksum 5000
                     (Examples.calm Examples.plugin_config) false ∅).2)).2
  = cache (run Examples.checksum 5000
             (Examples.calm Examples.plugin_config) false ∅).2.
Proof.
  apply (resolved_start_is_not_redone Examples.checksum 5000
           (Examples.calm Examples.plugin_config) false
           Examples.plugin_config ∅
           (Samples.offline Examples.plugin_config)).
  - reflexivity.
  - reflexivity.
  - reflexivity.
  - reflexivity.
  - reflexivity.
Defined.

End StartMore.

(** ** Zip sources and the choice by type *)
Module ArchiveFacts.
Import Download Archive.

Lemma append_nil_r (a : string) : a +:+ "" = a.
Proof.
  induction a as [|c a IH]; [done|].
  change (String c (a +:+ "") = String c a). by rewrite IH.
Qed.

(** A path with a suffix added is another path. *)
Lemma append_suffix_differs (a suffix : string) :
  suffix <> "" -> a +:+ suffix <> a.
Proof.
  intros Hsuffix Heq. apply Hsuffix.
  apply (String.app_inj a). by rewrite append_nil_r.
Qed.

Section Source.

Variable path_join : string -> string -> string.
Variable o : Outside.

(** [Promise.all] over the copies: every copy is started, and the
    result resolves if all of them do. *)
Lemma Promise_all_copies (dirName to : string) (files : list string)
  (s : State) :
  Promise_all
    (map (fun file => copyDir o (path_join dirName file) to) files) s
  = (if forallb (fun file => copyDir_ok o (path_join dirName file)) files
     then Resolved tt else Rejected "rejected",
     {| calls := calls s;
        ops := ops s
                 ++ map (fun file => CopyDir (path_join dirName file) to)
                        files |}).
Proof.
  revert s. induction files as [|file files IH]; intros s.
  - cbn. unfold ret. rewrite app_nil_r. by destruct s.
  - cbn [map Promise_all forallb]. unfold bind, Promise_all2, copyDir, call.
    rewrite IH. cbn [calls ops]. rewrite <- app_assoc. cbn [app].
    by destruct (copyDir_ok o (path_join dirName file)),
      (forallb _ files).
Qed.

(** [downloadZipSource], by the first call that rejects. *)
Lemma downloadZipSource_runs (source : WPSource) :
  unzip path_join o source
  = let zipName := path source +:+ ".zip" in
    let dirName := path source +:+ ".temp" in
    let downloaded := [CreateWriteStream zipName;
                       Pipeline (url source) zipName] in
    if pipeline_ok o
    then
      if extractZip_ok o
      then
        match readdir_result o with
        | Resolved files =>
            if rimraf_ok o zipName && copied path_join o source
            then
              (if rimraf_ok o dirName then Resolved tt
               else Rejected "rejected",
               {| calls := Finite 0 :: percents o
                             ++ (if rimraf_ok o dirName then [Finite 1]
                                 else []);
                  ops := downloaded
                           ++ [ExtractZip zipName dirName; Rimraf zipName;
                               Readdir dirName]
                           ++ copies path_join source files
                           ++ [Rimraf dirName] |})
            else
              (Rejected "rejected",
               {| calls := Finite 0 :: percents o;
                  ops := downloaded
                           ++ [ExtractZip zipName dirName; Rimraf zipName;
                               Readdir dirName]
                           ++ copies path_join source files |})
        | Rejected e =>
            (Rejected e,
             {| calls := Finite 0 :: percents o;
                ops := downloaded
                         ++ [ExtractZip zipName dirName; Rimraf zipName;
                             Readdir dirName] |})
        end
      else
        (Rejected "rejected",
         {| calls := Finite 0 :: percents o;
            ops := downloaded ++ [ExtractZip zipName dirName] |})
    else
      (Rejected "rejected",
       {| calls := Finite 0 :: percents o; ops := downloaded |}).
Proof.
  unfold unzip, downloadZipSource, copy_and_clean_up, copied, copies, bind,
    onProgress, pipeline, rimraf, readdir, call, initial_state.
  cbn [calls ops app].
  destruct (pipeline_ok o); [|done].
  destruct (extractZip_ok o); [|done].
  destruct (readdir_result o) as [files|e]; [|done].
  rewrite Promise_all_copies. cbn [calls ops app].
  destruct (rimraf_ok o (path source +:+ ".zip")),
    (forallb _ files), (rimraf_ok o (path source +:+ ".temp"));
    cbn [andb calls ops app]; rewrite ?app_nil_r; try reflexivity;
    by rewrite <- ?app_assoc.
Qed.

(** X14. When every call resolves, a zip source is downloaded to
    [<path>.zip] and extracted to [<path>.temp]; the archive file is
    removed, every entry that [readdir] lists in the temporary directory
    is copied to [source.path], and the temporary directory is removed
    last. [onProgress] gets 0, then the [percent] of each progress event
    of the response, then 1. *)
Theorem downloadZipSource_copies_every_entry
  (source : WPSource) (files : list string) :
  pipeline_ok o = true ->
  extractZip_ok o = true ->
  readdir_result o = Resolved files ->
  (forall file,
     file ∈ files ->
     copyDir_ok o (path_join (path source +:+ ".temp") file) = true) ->
  rimraf_ok o (path source +:+ ".zip") = true ->
  rimraf_ok o (path source +:+ ".temp") = true ->
  unzip path_join o source
  = (Resolved tt,
     {| calls := Finite 0 :: percents o ++ [Finite 1];
        ops := [CreateWriteStream (path source +:+ ".zip");
                Pipeline (url source) (path source +:+ ".zip");
                ExtractZip (path source +:+ ".zip")
                           (path source +:+ ".temp");
                Rimraf (path source +:+ ".zip");
                Readdir (path source +:+ ".temp")]
               ++ map (fun file =>
                         CopyDir (path_join (path source +:+ ".temp") file)
                                 (path source))
                      files
               ++ [Rimraf (path source +:+ ".temp")] |}).
Proof.
  intros Hpipeline Hextract Hreaddir Hcopy Hzip Htemp.
  rewrite downloadZipSource_runs. cbn zeta.
  unfold copied. rewrite Hpipeline, Hextract, Hreaddir, Hzip, Htemp.
  assert (forallb
            (fun file =>
               copyDir_ok o (path_join (path source +:+ ".temp") file))
            files = true) as ->; [|reflexivity].
  apply forallb_forall. intros file Hfile. apply Hcopy.
  by apply list_elem_of_In.
Qed.

(** X15. [downloadZipSource] calls [rimraf] on nothing but [<path>.zip]
    and [<path>.temp], which are never [source.path] itself. It is called
    on the archive file exactly when the download and the extraction
    resolved, and on the temporary directory only when, after that, the
    removal of the archive file and every copy resolved, so a failed copy
    leaves the temporary directory in place. The download resolves exactly
    when that last call was made and resolved. *)
Theorem downloadZipSource_removes_temporaries_only (source : WPSource) :
  (forall target,
     Rimraf target ∈ ops (unzip path_join o source).2 ->
     target = path source +:+ ".zip" \/ target = path source +:+ ".temp")
  /\ (Rimraf (path source) ∉ ops (unzip path_join o source).2)
  /\ (Rimraf (path source +:+ ".zip") ∈ ops (unzip path_join o source).2
      <-> pipeline_ok o && extractZip_ok o = true)
  /\ (Rimraf (path source +:+ ".temp") ∈ ops (unzip path_join o source).2
      <-> pipeline_ok o && extractZip_ok o
          && rimraf_ok o (path source +:+ ".zip")
          && copied path_join o source = true)
  /\ ((unzip path_join o source).1 = Resolved tt
      <-> Rimraf (path source +:+ ".temp")
            ∈ ops (unzip path_join o source).2
          /\ rimraf_ok o (path source +:+ ".temp") = true).
Proof.
  assert (forall target files,
            Rimraf target ∉ copies path_join source files) as Hcopies.
  { intros target files (file & [=] & _)%list_elem_of_fmap. }
  assert (path source +:+ ".zip" <> path source +:+ ".temp") as Hdiffer.
  { by intros [=]%(String.app_inj (path source)). }
  assert (forall target,
            target = path source +:+ ".zip"
            \/ target = path source +:+ ".temp" ->
            target <> path source) as Hother.
  { intros target [-> | ->]; by apply append_suffix_differs. }
  assert (forall target,
            Rimraf target ∈ ops (unzip path_join o source).2 ->
            target = path source +:+ ".zip"
            \/ target = path source +:+ ".temp") as Honly.
  { intros target. rewrite downloadZipSource_runs. cbn zeta.
    destruct (pipeline_ok o), (extractZip_ok o),
      (readdir_result o) as [files|e],
      (rimraf_ok o (path source +:+ ".zip")),
      (copied path_join o source),
      (rimraf_ok o (path source +:+ ".temp"));
      cbn [andb snd ops app];
      rewrite ?elem_of_cons, ?elem_of_app, ?elem_of_cons, ?elem_of_nil;
      intros Hin; decompose [or] Hin; try done;
      try (by exfalso; eapply Hcopies);
      match goal with
      | H : Rimraf _ = Rimraf _ |- _ => injection H as ->; tauto
      end. }
  split; [exact Honly|].
  split; [intros Hin; by apply (Hother _ (Honly _ Hin))|].
  rewrite downloadZipSource_runs. cbn zeta.
  destruct (pipeline_ok o), (extractZip_ok o),
    (readdir_result o) as [files|e] eqn:Hreaddir,
    (rimraf_ok o (path source +:+ ".zip")),
    (copied path_join o source) eqn:Hcopied,
    (rimraf_ok o (path source +:+ ".temp"));
    cbn [andb fst snd ops app];
    rewrite ?elem_of_cons, ?elem_of_app, ?elem_of_cons, ?elem_of_nil;
    try (unfold copied in Hcopied; rewrite Hreaddir in Hcopied;
         discriminate Hcopied);
    (split; [|split]); split; try done; try tauto;
    intros Hin; decompose [and or] Hin; try done;
    try (by exfalso; eapply Hcopies);
    try match goal with
        | H : Rimraf _ = Rimraf _ |- _ => by injection H
        end.
Qed.

(** What [downloadGitSource] leaves: the progress values of [Download],
    and no call on the file system. *)
Lemma downloadGitSource_runs (source : WPSource) :
  downloadGitSource o source initial_state
  = ((acquire (git o)).1,
     {| calls := (acquire (git o)).2; ops := [] |}).
Proof.
  unfold downloadGitSource, acquire, initial_state. cbn [calls ops].
  by destruct (Download.downloadGitSource (git o) []).
Qed.


End Source.

(** Witness of X14: an archive with a directory and a file. *)
Lemma downloadZipSource_copies_every_entry_witness :
  unzip Examples.join Samples.unpacked Samples.archive
  = (Resolved tt,
     {| calls := [Finite 0; Finite (1 # 2); Finite 1; Finite 1];
        ops := [CreateWriteStream "/work/gutenberg.zip";
                Pipeline
                  (Some "https://downloads.wordpress.org/plugin/gutenberg.zip")
                  "/work/gutenberg.zip";
                ExtractZip "/work/gutenberg.zip" "/work/gutenberg.temp";
                Rimraf "/work/gutenberg.zip";
                Readdir "/work/gutenberg.temp";
                CopyDir "/work/gutenberg.temp/gutenberg" "/work/gutenberg";
                CopyDir "/work/gutenberg.temp/readme.txt" "/work/gutenberg";
                Rimraf "/work/gutenberg.temp"] |}).
Proof.
  apply (downloadZipSource_copies_every_entry Examples.join Samples.unpacked
           Samples.archive ["gutenberg"; "readme.txt"]).
  - reflexivity.
  - reflexivity.
  - reflexivity.
  - reflexivity.
  - reflexivity.
  - reflexivity.
Defined.

(** Witness of X15: the file of the archive cannot be copied; the
    archive file is removed and the temporary directory stays. *)
Lemma downloadZipSource_removes_temporaries_only_witness :
  Rimraf "/work/gutenberg.zip"
    ∈ ops (unzip Examples.join Samples.half_copied Samples.archive).2
  /\ (Rimraf "/work/gutenberg.temp"
        ∉ ops (unzip Examples.join Samples.half_copied Samples.archive).2).
Proof.
  destruct (downloadZipSource_removes_temporaries_only Examples.join
              Samples.half_copied Samples.archive)
    as (_ & _ & Hzip & Htemp & _).
  split.
  - by apply Hzip.
  - intros Hin. by apply Htemp in Hin.
Defined.


End ArchiveFacts.

(** ** Installs of earlier versions *)
Module LegacyFacts.
Import Legacy.

(** The two installs of a directory are different paths. *)
Lemma installs_differ (basename : string) :
  "../" +:+ basename +:+ "-wordpress"
  <> "../" +:+ basename +:+ "-tests-wordpress".
Proof.
  intros Heq. apply (String.app_inj "../") in Heq.
  by apply (String.app_inj basename) in Heq.
Qed.

(** Taking out one of two different elements, and the only element. *)
Lemma splice_first (a b : string) :
  splice1 (indexOf a [a; b]) [a; b] = [b].
Proof. unfold indexOf. cbn [indexOf_from]. by rewrite String.eqb_refl. Qed.

Lemma splice_second (a b : string) :
  a <> b -> splice1 (indexOf b [a; b]) [a; b] = [a].
Proof.
  intros Hne%String.eqb_neq. unfold indexOf. cbn [indexOf_from].
  by rewrite Hne, String.eqb_refl.
Qed.

Lemma splice_only (a : string) : splice1 (indexOf a [a]) [a] = [].
Proof. unfold indexOf. cbn [indexOf_from]. by rewrite String.eqb_refl. Qed.

(** The callbacks leave the installs that can be accessed, in whichever
    order they run. *)
Lemma remaining_found (o : Outside) : remaining o = found o.
Proof.
  unfold remaining, found, rejections, installs_of.
  pose proof (installs_differ (cwd_basename o)) as Hne.
  cbn [List.filter].
  destruct (access_ok o ("../" +:+ cwd_basename o +:+ "-wordpress")),
    (access_ok o ("../" +:+ cwd_basename o +:+ "-tests-wordpress")),
    (tests_first o);
    cbn [negb reverse rev_append foldl app];
    rewrite ?splice_first, ?splice_second, ?splice_only by done;
    reflexivity.
Qed.

Lemma Promise_all_rimraf (o : Outside) (l : list string) (t : list Event) :
  Promise_all (map (rimraf o) l) t
  = (if forallb (rimraf_ok o) l then Resolved tt else Rejected "rejected",
     t ++ map Rimraf l).
Proof.
  revert t. induction l as [|install l IH]; intros t.
  - cbn. unfold ret. by rewrite app_nil_r.
  - cbn [map Promise_all forallb]. unfold bind, Promise_all2, rimraf at 1.
    rewrite IH. rewrite <- app_assoc. cbn [app].
    by destruct (rimraf_ok o install), (forallb (rimraf_ok o) l).
Qed.

(** [checkForLegacyInstall], by what is found and answered. *)
Lemma check_runs (o : Outside) :
  check o
  = let accessed := map Access (installs_of (cwd_basename o)) in
    match found o with
    | [] => (Resolved tt, accessed)
    | _ :: _ =>
        match prompt_result o with
        | Resolved true =>
            if forallb (rimraf_ok o) (found o)
            then (Resolved tt,
                  accessed ++ [Info (notice (found o)); Prompt]
                    ++ map Rimraf (found o)
                    ++ [Info "Old installs deleted successfully.";
                        SpinnerStart])
            else (Rejected "rejected",
                  accessed ++ [Info (notice (found o)); Prompt]
                    ++ map Rimraf (found o))
        | Resolved false =>
            (Resolved tt,
             accessed ++ [Info (notice (found o)); Prompt; SpinnerStart])
        | Rejected e =>
            (Rejected e, accessed ++ [Info (notice (found o)); Prompt])
        end
    end.
Proof.
  unfold check, checkForLegacyInstall. rewrite remaining_found.
  unfold installs_of at 1 2. cbn [map Promise_all].
  unfold bind at 1. unfold Promise_all2, bind, ret, emit. cbn [app].
  destruct (found o) as [|install l] eqn:Hfound; [done|].
  unfold prompt.
  destruct (prompt_result o) as [[]|e]; [|done..].
  rewrite Promise_all_rimraf.
  destruct (forallb (rimraf_ok o) (install :: l));
    rewrite <- ?app_assoc; reflexivity.
Qed.

Lemma found_elem (o : Outside) (install : string) :
  install ∈ found o
  <-> install ∈ installs_of (cwd_basename o) /\ access_ok o install = true.
Proof.
  unfold found. rewrite !list_elem_of_In. apply filter_In.
Qed.

Lemma notice_differs (installs : list string) :
  Info (notice installs) <> Info "Old installs deleted successfully.".
Proof. intros [=]. Qed.

(** Closes a goal in which an element is in a list that a hypothesis
    keeps it out of. *)
Ltac elem_contradiction :=
  match goal with
  | Hin : ?e ∈ ?l, Hnot : ?e ∉ ?l |- _ => by destruct (Hnot Hin)
  | Hin : Rimraf ?x ∈ ?l, Hnot : forall install, Rimraf install ∉ ?l |- _ =>
      by destruct (Hnot _ Hin)
  end.

(** X17. The installs named in the notice and offered for deletion are
    exactly the two legacy directories that can be accessed, in the order
    [-wordpress], [-tests-wordpress], whichever failed check is handled
    first. The user is prompted exactly when one of them is there, and
    [rimraf] is called on each of them, and on nothing else, exactly when
    the user confirmed. *)
Theorem legacy_installs_offered (o : Outside) :
  remaining o = found o
  /\ (Prompt ∈ (check o).2 <-> found o <> [])
  /\ (found o <> [] -> Info (notice (found o)) ∈ (check o).2)
  /\ (forall install,
        Rimraf install ∈ (check o).2
        <-> install ∈ installs_of (cwd_basename o)
            /\ access_ok o install = true
            /\ prompt_result o = Resolved true).
Proof.
  split; [apply remaining_found|].
  rewrite check_runs. cbn zeta.
  assert (forall install,
            Rimraf install ∈ map Rimraf (found o)
            <-> install ∈ installs_of (cwd_basename o)
                /\ access_ok o install = true) as Hrimraf.
  { intros install. rewrite <- found_elem. split.
    - by intros (x & [= ->] & Hx)%list_elem_of_fmap.
    - intros Hin. by apply (list_elem_of_fmap_2 Rimraf). }
  assert (forall install, Rimraf install ∉ map Access
                            (installs_of (cwd_basename o))) as Haccess.
  { intros install (x & [=] & _)%list_elem_of_fmap. }
  assert (found o = [] -> map Rimraf (found o) = []) as Hnone
    by by intros ->.
  assert (Prompt ∉ map Access (installs_of (cwd_basename o))) as Hprompt.
  { intros (x & [=] & _)%list_elem_of_fmap. }
  remember (map Rimraf (found o)) as removed eqn:Hremoved.
  remember (map Access (installs_of (cwd_basename o))) as accessed
    eqn:Haccessed.
  remember (forallb (rimraf_ok o) (found o)) as all_removed.
  remember (notice (found o)) as text.
  clear Hremoved Haccessed.
  destruct (found o) as [|first rest].
  - cbn [snd]. split; [|split; [done|]].
    + split; [|done]. by intros Hin%Hprompt.
    + intros install. split; [by intros ?%Haccess|].
      intros (Hin & Hok & _).
      assert (Rimraf install ∈ removed) as Hremoved
        by (apply Hrimraf; by split).
      rewrite Hnone in Hremoved by done. by apply elem_of_nil in Hremoved.
  - clear Hnone.
    destruct (prompt_result o) as [[]|e]; [destruct all_removed|..];
      cbn [snd]; (split; [|split]);
      try (split; [done|intros _; apply elem_of_app; right; right; by left]);
      try (intros _; apply elem_of_app; right; by left);
      intros install; rewrite !elem_of_app, !elem_of_cons, ?elem_of_nil;
      rewrite ?Hrimraf;
      (split;
       [intros Hin; decompose [and or] Hin; try done;
        by exfalso; eapply Haccess
       |intros Hin; decompose [and] Hin; try done; tauto]).
Qed.

(** X18. A failed access check never makes [checkForLegacyInstall]
    reject. When no legacy directory can be accessed it resolves after the
    two checks with nothing printed or asked, and without a call of
    [spinner.start]. Otherwise it resolves when the user declines, or
    confirms and every removal resolves; the message that the installs
    were deleted is printed only in the latter case. *)
Theorem legacy_check_outcome (o : Outside) :
  (found o = [] ->
   check o = (Resolved tt, map Access (installs_of (cwd_basename o))))
  /\ ((check o).1 = Resolved tt
      <-> found o = []
          \/ prompt_result o = Resolved false
          \/ (prompt_result o = Resolved true
              /\ forallb (rimraf_ok o) (found o) = true))
  /\ (Info "Old installs deleted successfully." ∈ (check o).2
      <-> found o <> [] /\ prompt_result o = Resolved true
          /\ forallb (rimraf_ok o) (found o) = true)
  /\ (prompt_result o = Resolved false ->
      forall install, Rimraf install ∉ (check o).2).
Proof.
  rewrite check_runs. cbn zeta.
  assert (Info "Old installs deleted successfully."
            ∉ map Rimraf (found o)) as Hremoved.
  { intros (x & [=] & _)%list_elem_of_fmap. }
  assert (Info "Old installs deleted successfully."
            ∉ map Access (installs_of (cwd_basename o))) as Haccessed.
  { intros (x & [=] & _)%list_elem_of_fmap. }
  assert (forall install,
            Rimraf install ∉ map Access (installs_of (cwd_basename o)))
    as Hrimraf.
  { intros install (x & [=] & _)%list_elem_of_fmap. }
  pose proof (notice_differs (found o)) as Hnotice.
  remember (map Rimraf (found o)) as removed.
  remember (map Access (installs_of (cwd_basename o))) as accessed.
  remember (forallb (rimraf_ok o) (found o)) as all_removed.
  remember (notice (found o)) as text.
  destruct (found o) as [|first rest].
  - cbn [fst snd]. split; [done|]. split; [by split; [left|]|].
    split.
    + split; [|by intros [? _]]. by intros Hin%Haccessed.
    + intros _ install Hin. by apply Hrimraf in Hin.
  - split; [done|].
    destruct (prompt_result o) as [[]|e]; [destruct all_removed|..];
      cbn [fst snd]; (split; [|split]).
    + split; [intros _; right; right; by split|done].
    + split; [by intros _|intros _].
      rewrite !elem_of_app, !elem_of_cons. tauto.
    + intros [=].
    + split; [done|]. intros [? | [? | [? ?]]]; done.
    + split; [|by intros (_ & _ & ?)].
      rewrite !elem_of_app, !elem_of_cons, elem_of_nil.
      intros Hin; decompose [or] Hin; try done; elem_contradiction.
    + intros [=].
    + split; [intros _; right; by left|done].
    + split; [|by intros (_ & ? & _)].
      rewrite !elem_of_app, !elem_of_cons, elem_of_nil.
      intros Hin; decompose [or] Hin; try done; elem_contradiction.
    + intros _ install.
      rewrite !elem_of_app, !elem_of_cons, elem_of_nil.
      intros Hin; decompose [or] Hin; try done; elem_contradiction.
    + split; [done|]. intros [? | [? | [? ?]]]; done.
    + split; [|by intros (_ & ? & _)].
      rewrite !elem_of_app, !elem_of_cons, elem_of_nil.
      intros Hin; decompose [or] Hin; try done; elem_contradiction.
    + intros [=].
Qed.

(** Witness of X17: the old tests install is found, named and removed. *)
Lemma legacy_installs_offered_witness :
  check Samples.old_tests_install
  = (Resolved tt,
     [Access "../gutenberg-wordpress";
      Access "../gutenberg-tests-wordpress";
      Info (notice ["../gutenberg-tests-wordpress"]);
      Prompt;
      Rimraf "../gutenberg-tests-wordpress";
      Info "Old installs deleted successfully.";
      SpinnerStart])
  /\ Rimraf "../gutenberg-tests-wordpress"
       ∈ (check Samples.old_tests_install).2.
Proof.
  split; [reflexivity|].
  destruct (legacy_installs_offered Samples.old_tests_install)
    as (_ & _ & _ & Hrimraf).
  apply Hrimraf. split; [|done]. right. by left.
Defined.

(** Witness of X18: no old install is left. *)
Lemma legacy_check_outcome_witness :
  check Samples.no_old_install
  = (Resolved tt,
     [Access "../gutenberg-wordpress";
      Access "../gutenberg-tests-wordpress"]).
Proof.
  by apply (legacy_check_outcome Samples.no_old_install).
Defined.

End LegacyFacts.

(** ** The progress display *)
Module ProgressFacts.
Import Download Progress.

Lemma assign_assign (id : string) (v v' : JsNumber)
  (p : list (string * JsNumber)) :
  assign id v (assign id v' p) = assign id v p.
Proof.
  induction p as [|[key value] p IH]; cbn [assign].
  - by rewrite String.eqb_refl.
  - destruct (String.eqb key id) eqn:Hkey; cbn [assign]; rewrite Hkey;
      [done|by rewrite IH].
Qed.

Lemma assign_keys (id : string) (v : JsNumber) (p : list (string * JsNumber))
  (key : string) :
  key ∈ (assign id v p).*1 <-> key = id \/ key ∈ p.*1.
Proof.
  induction p as [|[k x] p IH]; cbn [assign].
  - cbn. rewrite list_elem_of_singleton, elem_of_nil. tauto.
  - destruct (String.eqb_spec k id) as [->|Hne]; cbn [fmap list_fmap fst];
      rewrite !elem_of_cons; [tauto|]. rewrite IH. tauto.
Qed.

Lemma assign_NoDup (id : string) (v : JsNumber)
  (p : list (string * JsNumber)) :
  NoDup p.*1 -> NoDup (assign id v p).*1.
Proof.
  induction p as [|[k x] p IH]; cbn [assign].
  - intros _. apply NoDup_singleton.
  - destruct (String.eqb_spec k id) as [->|Hne]; [done|].
    cbn [fmap list_fmap fst]. rewrite !NoDup_cons.
    intros [Hk Hp]. split; [|by apply IH].
    rewrite assign_keys. tauto.
Qed.

(** After an assignment the key has the value assigned, and the other
    keys have the value they had. *)
Lemma assign_elem (id : string) (v : JsNumber)
  (p : list (string * JsNumber)) (key : string) (value : JsNumber) :
  NoDup p.*1 ->
  (key, value) ∈ assign id v p
  <-> (key = id /\ value = v) \/ (key <> id /\ (key, value) ∈ p).
Proof.
  induction p as [|[k x] p IH]; cbn [assign].
  - intros _. rewrite list_elem_of_singleton, elem_of_nil.
    split; [intros [= -> ->]; by left|intros [[-> ->]|[_ []]]; done].
  - cbn [fmap list_fmap fst]. rewrite NoDup_cons. intros [Hk Hp].
    destruct (String.eqb_spec k id) as [->|Hne]; rewrite !elem_of_cons.
    + split.
      * intros [[= -> ->] | Hin]; [by left|]. right. split; [|by right].
        intros ->. apply Hk. by apply (list_elem_of_fmap_2 fst) in Hin.
      * intros [[-> ->] | [Hne [[= -> ->] | Hin]]]; [by left|done|by right].
    + rewrite IH by done. split.
      * intros [[= -> ->] | [[-> ->] | [Hne' Hin]]].
        -- right. split; [done|by left].
        -- by left.
        -- right. split; [done|by right].
      * intros [[-> ->] | [Hne' [[= -> ->] | Hin]]].
        -- right. by left.
        -- by left.
        -- right. right. by split.
Qed.

Section Display.

Variable path_join : string -> string -> string.
Variable Object_entries :
  list (string * JsNumber) -> list (string * JsNumber).
Variable percent : JsNumber -> string.
Variable outside : WPSource -> Archive.Outside.

Local Abbreviation render := (render Object_entries percent).
Local Abbreviation getProgressSetter := (getProgressSetter Object_entries percent).
Local Abbreviation downloadSource :=
  (downloadSource path_join Object_entries percent outside).
Local Abbreviation run := (run path_join Object_entries percent outside).
Local Abbreviation download source :=
  (Archive.download path_join (outside source) source).

Lemma set_property_twice (id : string) (v v' : JsNumber)
  (p : list (string * JsNumber)) :
  set_property id v (set_property id v' p) = set_property id v p.
Proof.
  unfold set_property. destruct (String.eqb id "__proto__"); [done|].
  apply assign_assign.
Qed.

(** The display after a source reported a run of values: the last one
    stands for the source's basename. *)
Lemma reported_values (id : string) (values : list JsNumber) (last : JsNumber)
  (s : State) :
  foldl (fun shown progress => getProgressSetter id progress shown) s
        (values ++ [last])
  = {| progresses := set_property id last (progresses s);
       text := render (set_property id last (progresses s));
       file_ops := file_ops s |}.
Proof.
  revert s. induction values as [|v values IH]; intros s; [done|].
  cbn [app foldl]. rewrite IH. unfold getProgressSetter at 1 2 3.
  cbn [progresses file_ops]. by rewrite set_property_twice.
Qed.

(** What a download that resolves reported: nothing for a type that
    is not downloaded, and otherwise values that end in 1. *)
Lemma download_reported (source : WPSource) :
  (download source).1 = Resolved tt ->
  if reports source
  then exists values, Archive.calls (download source).2
                      = values ++ [Finite 1]
  else download source = (Resolved tt, Archive.initial_state).
Proof.
  unfold Archive.download, Archive.downloadSource, reports.
  destruct (String.eqb (type source) "git").
  - rewrite ArchiveFacts.downloadGitSource_runs. cbn [fst snd orb].
    intros Hresolved.
    rewrite (DownloadFacts.acquire_resolved (Archive.git (outside source))
               (acquire (Archive.git (outside source))).2).
    + by exists (Finite 0
                   :: map transferProgress
                        (Clone_reports (Archive.git (outside source))
                         ++ fetch_reports (Archive.git (outside source)))).
    + rewrite <- Hresolved. by destruct (acquire _).
  - destruct (String.eqb (type source) "zip"); cbn [orb]; [|done].
    fold (Archive.unzip path_join (outside source) source).
    rewrite ArchiveFacts.downloadZipSource_runs. cbn zeta.
    destruct (Archive.pipeline_ok (outside source)),
      (Archive.extractZip_ok (outside source)),
      (Archive.readdir_result (outside source)) as [files|e],
      (Archive.rimraf_ok (outside source) (path source +:+ ".zip")),
      (Archive.copied path_join (outside source) source),
      (Archive.rimraf_ok (outside source) (path source +:+ ".temp"));
      cbn [andb fst snd Archive.calls]; try done.
    intros _. by exists (Finite 0 :: Archive.percents (outside source)).
Qed.

(** The display after the download of one source that resolves. *)
Lemma downloadSource_resolved (source : WPSource) (s : State) :
  (download source).1 = Resolved tt ->
  downloadSource source s
  = (Resolved tt,
     if reports source
     then {| progresses := set_property (basename source) (Finite 1)
                                        (progresses s);
             text := render (set_property (basename source) (Finite 1)
                                          (progresses s));
             file_ops := file_ops s ++ Archive.ops (download source).2 |}
     else s).
Proof.
  intros Hresolved. pose proof (download_reported source Hresolved) as Hcalls.
  unfold Progress.downloadSource.
  destruct (reports source).
  - destruct Hcalls as [values Hcalls].
    destruct (download source) as [result downloaded].
    cbn [fst snd] in *. subst result. rewrite Hcalls, reported_values.
    reflexivity.
  - rewrite Hcalls. cbn [Archive.initial_state Archive.calls Archive.ops foldl].
    rewrite app_nil_r. by destruct s.
Qed.

Lemma downloadSource_outcome (source : WPSource) (s : State) :
  (downloadSource source s).1 = (download source).1
  /\ file_ops (downloadSource source s).2
     = file_ops s ++ Archive.ops (download source).2.
Proof.
  unfold Progress.downloadSource. by destruct (download source).
Qed.

(** [Promise.all] over the sources: the outcome and the calls on the
    file system. *)
Lemma downloadSources_outcome (sources : list WPSource) (s : State) :
  ((Promise_all (map downloadSource sources) s).1 = Resolved tt
   <-> forall source, source ∈ sources ->
                      (download source).1 = Resolved tt)
  /\ file_ops (Promise_all (map downloadSource sources) s).2
     = file_ops s
         ++ flat_map (fun source => Archive.ops (download source).2) sources.
Proof.
  revert s. induction sources as [|source sources IH]; intros s.
  - cbn. rewrite app_nil_r. split; [|done].
    split; [by intros _ ? ?%elem_of_nil|done].
  - cbn [map Promise_all flat_map]. unfold bind, Promise_all2.
    destruct (downloadSource_outcome source s) as [Hresult Hops].
    destruct (downloadSource source s) as [result s1].
    cbn [fst snd] in Hresult, Hops. subst result.
    destruct (IH s1) as [Hrest Hrest_ops].
    destruct (Promise_all (map downloadSource sources) s1) as [rest s2].
    cbn [fst snd] in *.
    assert (file_ops s2
            = file_ops s
                ++ Archive.ops (download source).2
                ++ flat_map (fun x => Archive.ops (download x).2) sources)
      as Hs2 by by rewrite Hrest_ops, Hops, <- app_assoc.
    destruct (download source).1 as [[]|e] eqn:Hsource,
      rest as [[]|e']; cbn [fst snd]; (split; [|exact Hs2]).
    + split; [|done]. intros _ x [-> | Hx]%elem_of_cons; [done|].
      by apply Hrest.
    + split; [done|]. intros Hall.
      apply Hrest. intros x Hx. apply Hall. by right.
    + split; [done|]. intros Hall.
      assert (Rejected e = Resolved tt) as [=].
      rewrite <- Hsource. apply Hall. by left.
    + split; [done|]. intros Hall.
      assert (Rejected e = Resolved tt) as [=].
      rewrite <- Hsource. apply Hall. by left.
Qed.

(** X19. [downloadSources] starts the download of every source it
    collected, also when the download of another one rejects, and
    resolves exactly when all of them do. With no source to download it
    resolves at once and leaves the spinner's text as it is. (The calls of
    the downloads are listed source by source.) *)
Theorem downloadSources_starts_every_download
  (config : WPConfig) (shown : string) :
  ((run config shown).1 = Resolved tt
   <-> forall source,
         source ∈ Download.downloadSources config ->
         (download source).1 = Resolved tt)
  /\ file_ops (run config shown).2
     = flat_map (fun source => Archive.ops (download source).2)
                (Download.downloadSources config)
  /\ (Download.downloadSources config = [] ->
      run config shown
      = (Resolved tt,
         {| progresses := []; text := shown; file_ops := [] |})).
Proof.
  unfold Progress.run, downloadSources.
  destruct (downloadSources_outcome (Download.downloadSources config)
              {| progresses := []; text := shown; file_ops := [] |})
    as [Hresult Hops].
  split; [exact Hresult|]. split; [exact Hops|].
  by intros ->.
Qed.

(** The display while only sources that resolve are downloaded. *)
Lemma downloadSources_display (sources done : list WPSource)
  (shown : string) (s : State) :
  (forall source, source ∈ sources -> (download source).1 = Resolved tt) ->
  NoDup (progresses s).*1 ->
  (forall key value,
     (key, value) ∈ progresses s
     <-> value = Finite 1 /\ key <> "__proto__"
         /\ exists source,
              source ∈ done /\ reports source = true
              /\ basename source = key) ->
  text s = (if existsb reports done then render (progresses s)
            else shown) ->
  NoDup (progresses (Promise_all (map downloadSource sources) s).2).*1
  /\ (forall key value,
        (key, value)
          ∈ progresses (Promise_all (map downloadSource sources) s).2
        <-> value = Finite 1 /\ key <> "__proto__"
            /\ exists source,
                 source ∈ done ++ sources /\ reports source = true
                 /\ basename source = key)
  /\ text (Promise_all (map downloadSource sources) s).2
     = if existsb reports (done ++ sources)
       then render
              (progresses (Promise_all (map downloadSource sources) s).2)
       else shown.
Proof.
  revert done s. induction sources as [|source sources IH];
    intros done s Hall Hnodup Hentries Htext.
  - cbn [map Promise_all]. unfold ret. cbn [snd]. rewrite app_nil_r.
    by split; [|split].
  - cbn [map Promise_all]. unfold bind, Promise_all2.
    rewrite downloadSource_resolved by (apply Hall; by left).
    specialize (IH (done ++ [source])
                  (if reports source
                   then {| progresses :=
                             set_property (basename source) (Finite 1)
                                          (progresses s);
                           text := render (set_property (basename source)
                                             (Finite 1) (progresses s));
                           file_ops := file_ops s
                                         ++ Archive.ops (download source).2 |}
                   else s)).
    destruct (Promise_all (map downloadSource sources) _) as [rest s2].
    cbn [snd] in IH.
    assert ((let (o, s') :=
               (match rest with
                | Resolved y => Resolved (tt, y)
                | Rejected e => Rejected e
                end, s2) in
             match o with
             | Resolved a => ret tt s'
             | Rejected e => (Rejected e, s')
             end).2 = s2) as -> by by destruct rest.
    rewrite <- app_assoc in IH. cbn [app] in IH. apply IH.
    + intros x Hx. apply Hall. by right.
    + destruct (reports source); [|done]. cbn [progresses].
      unfold set_property.
      destruct (String.eqb (basename source) "__proto__"); [done|].
      by apply assign_NoDup.
    + intros key value.
      destruct (reports source) eqn:Hreports.
      * cbn [progresses]. unfold set_property.
        destruct (String.eqb_spec (basename source) "__proto__")
          as [Hproto|Hproto].
        -- rewrite Hentries. split.
           ++ intros (-> & Hkey & x & Hx & Hr & Hb).
              split; [done|]. split; [done|].
              exists x. split; [apply elem_of_app; by left|done].
           ++ intros (-> & Hkey & x
                      & [Hx | ->%list_elem_of_singleton]%elem_of_app
                      & Hr & Hb); [|congruence].
              split; [done|]. split; [done|by exists x].
        -- rewrite assign_elem by done. rewrite Hentries. split.
           ++ intros [[-> ->] | [Hne (-> & Hkey & x & Hx & Hr & Hb)]].
              ** split; [done|]. split; [done|]. exists source.
                 split; [apply elem_of_app; right; by left|done].
              ** split; [done|]. split; [done|]. exists x.
                 split; [apply elem_of_app; by left|done].
           ++ intros (-> & Hkey & x
                      & [Hx | ->%list_elem_of_singleton]%elem_of_app
                      & Hr & Hb).
              ** destruct (decide (key = basename source)) as [->|Hne];
                   [by left|].
                 right. split; [done|]. split; [done|].
                 split; [done|by exists x].
              ** left. by split.
      * rewrite Hentries. split.
        -- intros (-> & Hkey & x & Hx & Hr & Hb).
           split; [done|]. split; [done|].
           exists x. split; [apply elem_of_app; by left|done].
        -- intros (-> & Hkey & x
                   & [Hx | ->%list_elem_of_singleton]%elem_of_app
                   & Hr & Hb); [|congruence].
           split; [done|]. split; [done|by exists x].
    + rewrite existsb_app. cbn [existsb]. rewrite orb_false_r.
      destruct (reports source); cbn [text progresses].
      * by rewrite orb_true_r.
      * by rewrite orb_false_r.
Qed.

(** X20. When every download resolves, the progress display ends with
    one entry per basename of a git or zip source that was downloaded, each
    at 1; sources that share a basename share one entry, and the basename
    [__proto__] gets none. The spinner's text then is the text rendered
    from these entries, and it is left as it was when no git or zip source
    was downloaded. *)
Theorem downloadSources_display_when_done
  (config : WPConfig) (shown : string) :
  (forall source,
     source ∈ Download.downloadSources config ->
     (download source).1 = Resolved tt) ->
  NoDup (progresses (run config shown).2).*1
  /\ (forall key value,
        (key, value) ∈ progresses (run config shown).2
        <-> value = Finite 1 /\ key <> "__proto__"
            /\ exists source,
                 source ∈ Download.downloadSources config
                 /\ reports source = true
                 /\ basename source = key)
  /\ text (run config shown).2
     = if existsb reports (Download.downloadSources config)
       then render (progresses (run config shown).2)
       else shown.
Proof.
  intros Hall. unfold Progress.run, downloadSources.
  apply (downloadSources_display (Download.downloadSources config) []
           shown {| progresses := []; text := shown; file_ops := [] |});
    [done|constructor| |done].
  intros key value. cbn [progresses]. split.
  - by intros ?%elem_of_nil.
  - by intros (_ & _ & x & ?%elem_of_nil & _).
Qed.

End Display.

(** Witness of X19: two repositories are cloned; no call on the file
    system is recorded for them. *)
Lemma downloadSources_starts_every_download_witness :
  (run Examples.join Samples.entries Samples.percent
       (fun _ => Samples.unpacked) Examples.same_destination_config
       "Downloading sources.").1
  = Resolved tt.
Proof.
  apply (downloadSources_starts_every_download Examples.join Samples.entries
           Samples.percent (fun _ => Samples.unpacked)
           Examples.same_destination_config "Downloading sources.").
  intros source Hsource.
  repeat (apply elem_of_cons in Hsource as [-> | Hsource]; [reflexivity|]).
  by apply elem_of_nil in Hsource.
Defined.

(** Witness of X20: two repositories named [gutenberg] leave one line. *)
Lemma downloadSources_display_when_done_witness :
  text (run Examples.join Samples.entries Samples.percent
            (fun _ => Samples.unpacked) Examples.same_destination_config
            "Downloading sources.").2
  = "Downloading WordPress." +:+ newline +:+ "  - gutenberg: 100/100%".
Proof.
  destruct (downloadSources_display_when_done Examples.join Samples.entries
              Samples.percent (fun _ => Samples.unpacked)
              Examples.same_destination_config "Downloading sources.")
    as (_ & _ & ->).
  - intros source Hsource.
    repeat (apply elem_of_cons in Hsource as [-> | Hsource]; [reflexivity|]).
    by apply elem_of_nil in Hsource.
  - reflexivity.
Defined.

End ProgressFacts.
